(** * Radiosonde cross-section interpolation: a verified model

    This development embeds the two hand-written routines of the
    "Real Data Cross-Section Example" notebook,

      - [vertical_interpolate]      (log-linear interpolation of one sounding
                                     onto a pressure grid), and
      - [radisonde_cross_section]   (per-station interpolation, station
                                     distances, 2-D gridding),

    together with the NumPy primitives they call.

    Numbers.  NumPy's float64 arrays are idealised as lists of real numbers
    ([R] of the Standard Library): [np.log] is [ln], comparisons are the
    order of [R], and rounding, NaN and infinities are outside the model.
    [ln] is the logarithm only on positive arguments, which is why the
    statements that depend on the values of logarithms assume positive
    pressures.

    Exceptions.  A Python call that raises is a [Raise e]; a call that
    returns is an [OK v].

    Libraries.  [np.interp], [np.arange], [np.linspace], [np.meshgrid],
    boolean-mask and slice assignment are written out.  The great-circle
    distance of pyproj is written as the distance on the sphere.  SciPy's
    [griddata] and MetPy's [height_to_pressure_std] are parameters of the
    builder, as is the content of the memory that [np.empty] hands out.

    Memory.  The first embedding passes arrays by value.  A second one, in
    [Store], keeps them in an explicit store with views, and is shown to
    compute the same results. *)

From Stdlib Require Import String Reals Lra Lia ZArith Bool Arith List.
Import ListNotations.

Local Open Scope R_scope.

(** ** Exceptions and the error monad *)

Inductive exn : Type :=
| IndexError
| KeyError
| ValueError
| TypeError
| AttributeError
| LibraryError.

Inductive result (A : Type) : Type :=
| OK (a : A)
| Raise (e : exn).

Arguments OK {A} a.
Arguments Raise {A} e.

Definition bind {A B : Type} (m : result A) (k : A -> result B) : result B :=
  match m with
  | OK a => k a
  | Raise e => Raise e
  end.

Notation "x <- m ;; k" := (bind m (fun x => k))
  (at level 61, m at next level, right associativity).
Notation "' pat <- m ;; k" := (bind m (fun x => match x with pat => k end))
  (at level 61, pat pattern, m at next level, right associativity).

(** A Python [for] loop whose body may raise, threading the loop state. *)
Fixpoint for_each {A S : Type} (body : S -> A -> result S) (xs : list A) (s : S)
  : result S :=
  match xs with
  | [] => OK s
  | x :: xs' => s' <- body s x ;; for_each body xs' s'
  end.

(** ** Comparisons on array elements *)

Definition Rltb (x y : R) : bool := if Rlt_dec x y then true else false.
Definition Rgtb (x y : R) : bool := Rltb y x.

(** ** Indexing *)

(** [a[0]] *)
Definition getitem_first {A : Type} (a : list A) : result A :=
  match a with
  | [] => Raise IndexError
  | x :: _ => OK x
  end.

(** [a[-1]] *)
Definition getitem_last {A : Type} (a : list A) : result A :=
  getitem_first (rev a).

(** [a[mask] = v] for a boolean [mask]: NumPy insists on a mask of the
    length of [a]. *)
Definition setitem_mask (a : list R) (mask : list bool) (v : R) : result (list R) :=
  if Nat.eqb (length mask) (length a)
  then OK (map (fun am : R * bool => if snd am then v else fst am) (combine a mask))
  else Raise IndexError.

(** ** [np.interp]

    NumPy's [arr_interp] (compiled_base.c).  For each [x] it looks up the
    index [j] of the last sample point not above [x] and then

      - [j = -1]             : [left], by default [fp[0]];
      - [j >= lenxp - 1]     : [fp[lenxp-1]] (the last sample, also [right]);
      - [xp[j] = x]          : [fp[j]];
      - otherwise            : [slope * (x - xp[j]) + fp[j]].

    NumPy finds [j] by bisection.  [search] counts the leading sample points
    that are not above [x]; on increasing sample points, the only ones for
    which [np.interp] is specified, it is [j + 1]. *)

Fixpoint search (xp : list R) (x : R) : nat :=
  match xp with
  | [] => O
  | x0 :: xp' => if Rlt_dec x x0 then O else S (search xp' x)
  end.

Definition interp_one (xp fp : list R) (x : R) : R :=
  match search xp x with
  | O => nth 0 fp 0
  | S j =>
      if Nat.eqb (S j) (length xp) then nth j fp 0
      else if Req_dec_T (nth j xp 0) x then nth j fp 0
      else
        let slope := (nth (S j) fp 0 - nth j fp 0) / (nth (S j) xp 0 - nth j xp 0) in
        slope * (x - nth j xp 0) + nth j fp 0
  end.

Definition np_interp (x xp fp : list R) : result (list R) :=
  if Nat.eqb (length xp) 0 then Raise ValueError
  else if negb (Nat.eqb (length fp) (length xp)) then Raise ValueError
  else OK (map (interp_one xp fp) x).

(** ** [vertical_interpolate] *)

Definition vertical_interpolate (vcoord_data interp_var interp_levels : list R)
  : result (list R) :=
  (* Make vertical coordinate data and grid level log variables *)
  let lnp := map ln vcoord_data in
  let lnp_intervals := map ln interp_levels in
  (* Use numpy to interpolate from observed levels to grid levels *)
  r <- np_interp (rev lnp_intervals) (rev lnp) (rev interp_var) ;;
  let interp_data := rev r in
  (* Mask for missing data (generally only near the surface) *)
  p_first <- getitem_first vcoord_data ;;
  let mask_low := map (fun l => Rgtb l p_first) interp_levels in
  p_last <- getitem_last vcoord_data ;;
  let mask_high := map (fun l => Rltb l p_last) interp_levels in
  v_first <- getitem_first interp_var ;;
  interp_data <- setitem_mask interp_data mask_low v_first ;;
  v_last <- getitem_last interp_var ;;
  interp_data <- setitem_mask interp_data mask_high v_last ;;
  OK interp_data.

(** ** Arrays, dictionaries and data frames *)

(** A 2-D float array, row-major. *)
Abbreviation ndarray2 := (list (list R)) (only parsing).

(** A Python [dict] with string keys, in insertion order. *)
Abbreviation dict V := (list (string * V)) (only parsing).

(** [d[k]] *)
Fixpoint getitem {V : Type} (d : dict V) (k : string) : result V :=
  match d with
  | [] => Raise KeyError
  | (k', v) :: d' => if String.eqb k' k then OK v else getitem d' k
  end.

(** A sounding as retrieved: a pandas [DataFrame], its labelled numeric
    columns in column order, the profile variables ('pressure',
    'temperature', ...) and the station attributes 'latitude', 'longitude'
    and 'elevation', repeated on every row.  Columns of text are outside the
    model. *)
Abbreviation DataFrame := (dict (list R)) (only parsing).

(** [df.name], a column read as an attribute. *)
Definition getattr {V : Type} (df : dict V) (name : string) : result V :=
  match getitem df name with
  | OK c => OK c
  | Raise _ => Raise AttributeError
  end.

(** [series[0]] on a column with the default integer index. *)
Definition series_first (c : list R) : result R :=
  match c with
  | [] => Raise KeyError
  | x :: _ => OK x
  end.

(** [df.keys()[:8]] *)
Definition keys_upto8 {V : Type} (df : dict V) : list string :=
  firstn 8 (map fst df).

(** [dict.fromkeys(keys)]: the keys in first-insertion order, each once. *)
Definition dict_fromkeys (keys : list string) : list string :=
  fold_left
    (fun acc k => if existsb (String.eqb k) acc then acc else acc ++ [k])
    keys [].

(** [np.arange(start, stop, step)] on integers, as the defaults of the
    builder are: [ceil((stop - start) / step)] elements, none when that is
    negative; a step of 0 raises. *)
Definition np_arange (start stop step : Z) : result (list Z) :=
  if Z.eqb step 0 then Raise LibraryError
  else
    let n := Z.to_nat (- ((start - stop) / step))%Z in
    OK (map (fun i => (start + Z.of_nat i * step)%Z) (seq 0 n)).

(** [np.empty((n, m))]: an array of whatever the allocator left in memory,
    [uninit i j] at row [i] and column [j]. *)
Definition np_empty (uninit : nat -> nat -> R) (n m : nat) : ndarray2 :=
  map (fun i => map (uninit i) (seq 0 m)) (seq 0 n).

(** Broadcasting a 1-D array to a row of [ncols] elements. *)
Definition broadcast_row (ncols : nat) (v : list R) : result (list R) :=
  if Nat.eqb (length v) ncols then OK v
  else
    match v with
    | [c] => OK (repeat c ncols)
    | _ => Raise ValueError
    end.

(** [a[loc, :] = v] *)
Definition setitem_row (a : ndarray2) (loc : nat) (v : list R) : result ndarray2 :=
  match nth_error a loc with
  | None => Raise IndexError
  | Some old =>
      row <- broadcast_row (length old) v ;;
      OK (firstn loc a ++ row :: skipn (S loc) a)
  end.

Fixpoint map_result {A B : Type} (f : A -> result B) (xs : list A) : result (list B) :=
  match xs with
  | [] => OK []
  | x :: xs' => y <- f x ;; ys <- map_result f xs' ;; OK (y :: ys)
  end.

(** [a[:] = src] for 2-D arrays: [src] is broadcast to the shape of [a]. *)
Definition setitem_all (a src : ndarray2) : result ndarray2 :=
  if Nat.eqb (length src) (length a)
  then map_result
         (fun on : list R * list R => broadcast_row (length (fst on)) (snd on))
         (combine a src)
  else
    match src with
    | [row] => map_result (fun old => broadcast_row (length old) row) a
    | _ => Raise ValueError
    end.

(** [np.linspace(a, b, num)] for [num >= 2]. *)
Definition np_linspace (a b : R) (num : nat) : list R :=
  map (fun i => a + INR i * ((b - a) / INR (num - 1))) (seq 0 num).

(** [np.meshgrid(a, b)]: two arrays of shape [(len b, len a)]. *)
Definition np_meshgrid (a b : list R) : ndarray2 * ndarray2 :=
  (map (fun _ => a) b, map (fun bi => map (fun _ => bi) a) b).

(** [a.flatten()] *)
Definition flatten (a : ndarray2) : list R := concat a.

(** ** Great-circle distance *)

(** Radius of PROJ's ellipsoid [sphere], in metres. *)
Definition sphere_radius : R := 6370997.

Definition radians (deg : R) : R := deg * PI / 180.

(** Modelled from the spec: the distance that pyproj's
    [Geod(ellps='sphere').inv] returns is library code that is not part of
    the sources; the spec calls it the great-circle distance on a spherical
    Earth model, angles in degrees converted to radians inside the
    computation.  It is written here by the spherical law of cosines. *)
Definition great_circle_distance (lon1 lat1 lon2 lat2 : R) : R :=
  sphere_radius *
  acos (sin (radians lat1) * sin (radians lat2)
        + cos (radians lat1) * cos (radians lat2)
          * cos (radians lon2 - radians lon1)).

Fixpoint zip4 (a b c d : list R) : list (R * R * R * R) :=
  match a, b, c, d with
  | x :: a', y :: b', z :: c', w :: d' => (x, y, z, w) :: zip4 a' b' c' d'
  | _, _, _, _ => []
  end.

(** The third result of [g.inv(lons1, lats1, lons2, lats2)]: the distances,
    element by element.  The four sequences must be equally long. *)
Definition geod_inv_dist (lons1 lats1 lons2 lats2 : list R) : result (list R) :=
  let n := length lons1 in
  if (Nat.eqb (length lats1) n && Nat.eqb (length lons2) n
      && Nat.eqb (length lats2) n)%bool
  then OK (map (fun q : R * R * R * R =>
                  let '(lon1, lat1, lon2, lat2) := q in
                  great_circle_distance lon1 lat1 lon2 lat2)
               (zip4 lons1 lats1 lons2 lats2))
  else Raise LibraryError.

(** ** [radisonde_cross_section] *)

Record cross_section : Type := {
  grid_data : dict ndarray2;
  obs_distance : list R;
  x_grid : ndarray2;
  p_grid : ndarray2;
  elevation : list R
}.

(** The station attributes gathered while the 'pressure' key is handled. *)
Record coords : Type := {
  lats : list R;
  lons : list R;
  elev : list R
}.

Section Builder.

(** [scipy.interpolate.griddata((px, py), values, (xi_x, xi_y),
    method='cubic')]: the scattered-data interpolator, library code whose
    values the model leaves open. *)
Variable griddata :
  list R -> list R -> list R -> ndarray2 -> ndarray2 -> result ndarray2.

(** [mpcalc.height_to_pressure_std], on the elevations in metres. *)
Variable height_to_pressure_std : list R -> list R.

(** The memory that the [np.empty] calls hand out: [uninit site key i j]
    for the array of [key] at the first ([0], [tmp_grid]) or second
    ([1], [grid]) call site. *)
Variable uninit : nat -> string -> nat -> nat -> R.

(** The body of the loop over [zip(stns, range(nstns))]. *)
Definition fill_station (data : dict DataFrame) (vertical_levels : list R)
    (key : string) (st : ndarray2 * coords) (sl : string * nat) : result (ndarray2 * coords) :=
  let '(tmp, c) := st in
  let '(station, loc) := sl in
  if String.eqb key "pressure" then
    df <- getitem data station ;;
    col <- getattr df "latitude" ;;
    lat <- series_first col ;;
    df <- getitem data station ;;
    col <- getattr df "longitude" ;;
    lon <- series_first col ;;
    df <- getitem data station ;;
    col <- getattr df "elevation" ;;
    el <- series_first col ;;
    tmp <- setitem_row tmp loc vertical_levels ;;
    OK (tmp, {| lats := lats c ++ [lat];
                lons := lons c ++ [lon];
                elev := elev c ++ [el] |})
  else
    df <- getitem data station ;;
    p <- getitem df "pressure" ;;
    df <- getitem data station ;;
    v <- getitem df key ;;
    col <- vertical_interpolate p v vertical_levels ;;
    tmp <- setitem_row tmp loc col ;;
    OK (tmp, c).

(** The body of the loop over [tmp_grid.keys()]. *)
Definition fill_key (stns : list string) (data : dict DataFrame)
    (vertical_levels : list R) (st : dict ndarray2 * coords) (key : string)
    : result (dict ndarray2 * coords) :=
  let '(tmp_grid, c) := st in
  let nstns := length stns in
  let plevs := length vertical_levels in
  '(tmp, c) <- for_each (fill_station data vertical_levels key)
                 (combine stns (seq 0 nstns))
                 (np_empty (uninit 0 key) nstns plevs, c) ;;
  OK (tmp_grid ++ [(key, tmp)], c).

(** Step 1: interpolate all variables for each radiosonde observation. *)
Definition interpolate_stations (stns : list string) (data : dict DataFrame)
    (keys : list string) (vertical_levels : list R)
    : result (dict ndarray2 * coords) :=
  for_each (fill_key stns data vertical_levels) keys
    ([], {| lats := []; lons := []; elev := [] |}).

(** The body of the loop over [grid.keys()]. *)
Definition grid_key (tmp_grid : dict ndarray2) (nx plevs : nat)
    (ddist pdist xx pp : ndarray2) (grid : dict ndarray2) (key : string)
    : result (dict ndarray2) :=
  let g := np_empty (uninit 1 key) nx plevs in
  tmp <- getitem tmp_grid key ;;
  src <- griddata (flatten ddist) (flatten pdist) (flatten tmp) xx pp ;;
  g <- setitem_all g src ;;
  OK (grid ++ [(key, g)]).

Definition radisonde_cross_section (stns : list string) (data : dict DataFrame)
    (start end_ step : Z) : result cross_section :=
  (* Set up vertical grid, largest value first *)
  levels <- np_arange start (end_ - 1) (- step) ;;
  let vertical_levels := map IZR levels in
  (* Number of vertical levels and stations *)
  let plevs := length vertical_levels in
  let nstns := length stns in
  s0 <- getitem_first stns ;;
  df0 <- getitem data s0 ;;
  let keys := dict_fromkeys (keys_upto8 df0) in
  (* Interpolate all variables for each radiosonde observation *)
  '(tmp_grid, c) <- interpolate_stations stns data keys vertical_levels ;;
  (* Compute distance between each station *)
  lon0 <- getitem_first (lons c) ;;
  lat0 <- getitem_first (lats c) ;;
  dist <- geod_inv_dist (repeat lon0 nstns) (repeat lat0 nstns) (lons c) (lats c) ;;
  (* Pseudo ground elevation in pressure from the standard atmosphere *)
  let ground_elevation := height_to_pressure_std (elev c) in
  (* Set up grid for 2D interpolation *)
  d_first <- getitem_first dist ;;
  d_last <- getitem_last dist ;;
  let x := np_linspace d_first d_last 100 in
  let nx := length x in
  let '(pp, xx) := np_meshgrid vertical_levels x in
  let '(pdist, ddist) := np_meshgrid vertical_levels dist in
  (* Interpolate to 2D grid using griddata *)
  grid <- for_each (grid_key tmp_grid nx plevs ddist pdist xx pp) keys [] ;;
  (* Gather needed data in dictionary for return *)
  OK {| grid_data := grid; obs_distance := dist;
        x_grid := xx; p_grid := pp; elevation := ground_elevation |}.

End Builder.

(** * Specification vocabulary *)

(** A pressure column as the data model has it: strictly decreasing from the
    surface upwards. *)
Fixpoint strictly_decreasing (l : list R) : Prop :=
  match l with
  | a :: ((b :: _) as t) => a > b /\ strictly_decreasing t
  | _ => True
  end.

Fixpoint strictly_increasing (l : list R) : Prop :=
  match l with
  | a :: ((b :: _) as t) => a < b /\ strictly_increasing t
  | _ => True
  end.

(** The value that [vertical_interpolate] leaves at a target level [l]:
    the two masks are applied over the result of [np.interp], the upper one
    last. *)
Definition level_value (vcoord_data interp_var : list R) (l : R) : R :=
  if Rltb l (last vcoord_data 0) then last interp_var 0
  else if Rgtb l (hd 0 vcoord_data) then hd 0 interp_var
  else interp_one (rev (map ln vcoord_data)) (rev interp_var) (ln l).

(** ** The worked example of the specification *)

Definition example_pressures : list R := [1000; 850; 700; 500].
Definition example_temperatures : list R := [20; 15; 5; -10].
Definition example_grid : list R := [1000; 900; 100].

(** Where 900 hPa lies between 850 and 1000 hPa, in log-pressure. *)
Definition example_fraction : R := (ln 900 - ln 850) / (ln 1000 - ln 850).

(** ** The station loop, station by station *)

(** [data[station].latitude[0]], [.longitude[0]] and [.elevation[0]]. *)
Definition station_coords (data : dict DataFrame) (station : string)
  : result (R * R * R) :=
  df <- getitem data station ;;
  col <- getattr df "latitude" ;;
  lat <- series_first col ;;
  df <- getitem data station ;;
  col <- getattr df "longitude" ;;
  lon <- series_first col ;;
  df <- getitem data station ;;
  col <- getattr df "elevation" ;;
  el <- series_first col ;;
  OK (lat, lon, el).

(** The column that the loop interpolates for a key other than 'pressure'. *)
Definition station_column (data : dict DataFrame) (vertical_levels : list R)
    (key station : string) : result (list R) :=
  df <- getitem data station ;;
  p <- getitem df "pressure" ;;
  df <- getitem data station ;;
  v <- getitem df key ;;
  vertical_interpolate p v vertical_levels.

Definition push_coords (c : coords) (q : R * R * R) : coords :=
  let '(lat, lon, el) := q in
  {| lats := lats c ++ [lat]; lons := lons c ++ [lon]; elev := elev c ++ [el] |}.

(** What one turn of the station loop writes into its row of [tmp_grid[key]]
    and what it leaves in the gathered coordinates. *)
Definition station_entry (data : dict DataFrame) (vertical_levels : list R)
    (key : string) (c : coords) (station : string) : result (list R * coords) :=
  if String.eqb key "pressure" then
    q <- station_coords data station ;;
    OK (vertical_levels, push_coords c q)
  else
    col <- station_column data vertical_levels key station ;;
    OK (col, c).

(** The rows written by a whole pass over the stations. *)
Fixpoint station_rows (data : dict DataFrame) (vertical_levels : list R)
    (key : string) (stns : list string) (c : coords)
  : result (list (list R) * coords) :=
  match stns with
  | [] => OK ([], c)
  | station :: rest =>
      '(row, c1) <- station_entry data vertical_levels key c station ;;
      '(rows, c2) <- station_rows data vertical_levels key rest c1 ;;
      OK (row :: rows, c2)
  end.

(** ** Inputs on which the builder returns *)

(** A column that is present and not empty. *)
Definition column_ok (df : DataFrame) (name : string) : bool :=
  match getitem df name with
  | OK (_ :: _) => true
  | _ => false
  end.

(** A sounding that can be interpolated for [keys]: station attributes and
    at least one pressure level are there, and each column of [keys] is as
    long as the pressure column. *)
Definition frame_ok (keys : list string) (df : DataFrame) : bool :=
  column_ok df "latitude" && column_ok df "longitude"
  && column_ok df "elevation"
  && match getitem df "pressure" with
     | OK p =>
         negb (Nat.eqb (length p) 0)
         && forallb
              (fun key =>
                 match getitem df key with
                 | OK v => Nat.eqb (length v) (length p)
                 | Raise _ => false
                 end)
              keys
     | Raise _ => false
     end.

Definition inputs_ok (stns : list string) (data : dict DataFrame) : bool :=
  match stns with
  | [] => false
  | s0 :: _ =>
      match getitem data s0 with
      | OK df0 =>
          let keys := dict_fromkeys (keys_upto8 df0) in
          existsb (String.eqb "pressure") keys
          && forallb
               (fun s =>
                  match getitem data s with
                  | OK df => frame_ok keys df
                  | Raise _ => false
                  end)
               stns
      | Raise _ => false
      end
  end.

(** The shape of a 2-D array: [n] rows of [m] elements. *)
Definition has_shape (n m : nat) (a : ndarray2) : Prop :=
  length a = n /\ Forall (fun row => length row = m) a.

(** The distances of the stations at [qs] (latitude, longitude, elevation)
    from the station at longitude [lon0] and latitude [lat0]. *)
Definition distances_from (lon0 lat0 : R) (qs : list (R * R * R)) : list R :=
  map (fun q : R * R * R =>
         great_circle_distance lon0 lat0 (snd (fst q)) (fst (fst q)))
      qs.

Fixpoint non_decreasing (l : list R) : Prop :=
  match l with
  | a :: ((b :: _) as t) => a <= b /\ non_decreasing t
  | _ => True
  end.

(** ** A small cross-section, used as a running example

    Three soundings on the equator, at longitudes 0, 10 and 5 degrees, each
    with two observed levels, and the grid [1000, 550, 100] hPa. *)

Definition sounding (lat lon el : R) (p t : list R) : DataFrame :=
  [("pressure"%string, p); ("temperature"%string, t);
   ("latitude"%string, map (fun _ => lat) p);
   ("longitude"%string, map (fun _ => lon) p);
   ("elevation"%string, map (fun _ => el) p)].

Definition demo_stns : list string := ["AAA"%string; "BBB"%string; "CCC"%string].

Definition demo_data : dict DataFrame :=
  [("AAA"%string, sounding 0 0 0 [1000; 500] [20; -10]);
   ("BBB"%string, sounding 0 10 0 [900; 400] [15; -20]);
   ("CCC"%string, sounding 0 5 0 [950; 300] [18; -30])].

Definition demo_keys : list string :=
  dict_fromkeys (keys_upto8 (sounding 0 0 0 [1000; 500] [20; -10])).

Definition demo_levels : list R := map IZR [1000; 550; 100]%Z.

(** A stand-in for [griddata] that returns zeros on the points asked for. *)
Definition demo_griddata (px py v : list R) (xx pp : ndarray2) : result ndarray2 :=
  OK (map (map (fun _ : R => 0)) xx).

Definition demo_height_to_pressure (elevations : list R) : list R := elevations.

(** Some content for the memory that [np.empty] hands out. *)
Definition demo_uninit (site : nat) (key : string) (i j : nat) : R :=
  INR (site + i + j) + 12345.

(** * The same two routines over a store of arrays

    NumPy arrays are mutable objects that several names may share: a slice
    such as [a[::-1]] is a view on the memory of [a], and [df[key].values]
    hands out the array held by the data frame.  To speak about what a call
    writes, the routines are embedded a second time over an explicit store.
    An address is an index into the store; allocation appends. *)

Module Store.

Inductive object : Type :=
| Vec (v : list R)
| Mat (m : list (list R)).

Definition heap : Type := list object.
Definition addr : Type := nat.

(** A computation: from a store to a result, returned or raised, and the
    store it leaves. *)
Definition M (A : Type) : Type := heap -> result A * heap.

Definition ret {A : Type} (a : A) : M A := fun h => (OK a, h).

Definition lift {A : Type} (r : result A) : M A := fun h => (r, h).

Definition bind {A B : Type} (m : M A) (k : A -> M B) : M B :=
  fun h =>
    match m h with
    | (OK a, h') => k a h'
    | (Raise e, h') => (Raise e, h')
    end.

Declare Scope store_scope.
Delimit Scope store_scope with store.
Notation "x <- m ;; k" := (bind m (fun x => k))
  (at level 61, m at next level, right associativity) : store_scope.
Notation "m ;;; k" := (bind m (fun _ => k))
  (at level 61, right associativity) : store_scope.
Local Open Scope store_scope.

Fixpoint for_each {A S : Type} (body : S -> A -> M S) (xs : list A) (s : S) : M S :=
  match xs with
  | [] => ret s
  | x :: xs' => s' <- body s x ;; for_each body xs' s'
  end.

(** A 1-D array as a name holds it: the buffer it looks at and whether it
    looks at it back to front. *)
Record ndarray : Type := {
  base : addr;
  reversed : bool
}.

Definition whole (a : addr) : ndarray := {| base := a; reversed := false |}.

(** [a[::-1]], a view: no memory is copied. *)
Definition flip (a : ndarray) : ndarray :=
  {| base := base a; reversed := negb (reversed a) |}.

Definition view (a : ndarray) (buf : list R) : list R :=
  if reversed a then rev buf else buf.

Definition put (h : heap) (a : addr) (o : object) : heap :=
  firstn a h ++ o :: skipn (S a) h.

(** Reading the elements of a 1-D array. *)
Definition load (a : ndarray) : M (list R) :=
  fun h =>
    match nth_error h (base a) with
    | Some (Vec buf) => (OK (view a buf), h)
    | _ => (Raise TypeError, h)
    end.

(** Writing the elements [v] through the name [a]. *)
Definition store (a : ndarray) (v : list R) : M unit :=
  fun h =>
    match nth_error h (base a) with
    | Some (Vec _) => (OK tt, put h (base a) (Vec (view a v)))
    | _ => (Raise TypeError, h)
    end.

Definition load2 (a : addr) : M (list (list R)) :=
  fun h =>
    match nth_error h a with
    | Some (Mat m) => (OK m, h)
    | _ => (Raise TypeError, h)
    end.

Definition store2 (a : addr) (m : list (list R)) : M unit :=
  fun h =>
    match nth_error h a with
    | Some (Mat _) => (OK tt, put h a (Mat m))
    | _ => (Raise TypeError, h)
    end.

(** A new 1-D array with the elements [v]. *)
Definition new_array (v : list R) : M ndarray :=
  fun h => (OK (whole (length h)), h ++ [Vec v]).

(** A new 2-D array with the elements [m]. *)
Definition new_array2 (m : list (list R)) : M addr :=
  fun h => (OK (length h), h ++ [Mat m]).

(** [a[mask] = v]; the boolean mask is a temporary of its own. *)
Definition setitem_mask (a : ndarray) (mask : list bool) (v : R) : M unit :=
  cur <- load a ;;
  new <- lift (setitem_mask cur mask v) ;;
  store a new.

(** [a[loc, :] = v] *)
Definition setitem_row (a : addr) (loc : nat) (v : list R) : M unit :=
  cur <- load2 a ;;
  new <- lift (setitem_row cur loc v) ;;
  store2 a new.

(** [a[:] = src] *)
Definition setitem_all (a : addr) (src : list (list R)) : M unit :=
  cur <- load2 a ;;
  new <- lift (setitem_all cur src) ;;
  store2 a new.

Definition vertical_interpolate (vcoord_data interp_var interp_levels : ndarray)
  : M ndarray :=
  (* lnp = np.log(vcoord_data) *)
  p <- load vcoord_data ;;
  lnp <- new_array (map ln p) ;;
  (* lnp_intervals = np.log(interp_levels) *)
  l <- load interp_levels ;;
  lnp_intervals <- new_array (map ln l) ;;
  (* interp_data = np.interp(lnp_intervals[::-1], lnp[::-1],
                             interp_var[::-1])[::-1] *)
  x <- load (flip lnp_intervals) ;;
  xp <- load (flip lnp) ;;
  fp <- load (flip interp_var) ;;
  r <- lift (np_interp x xp fp) ;;
  r <- new_array r ;;
  let interp_data := flip r in
  (* mask_low = interp_levels > vcoord_data[0] *)
  l <- load interp_levels ;;
  p <- load vcoord_data ;;
  p_first <- lift (getitem_first p) ;;
  let mask_low := map (fun l => Rgtb l p_first) l in
  (* mask_high = interp_levels < vcoord_data[-1] *)
  l <- load interp_levels ;;
  p <- load vcoord_data ;;
  p_last <- lift (getitem_last p) ;;
  let mask_high := map (fun l => Rltb l p_last) l in
  (* interp_data[mask_low] = interp_var[0] *)
  v <- load interp_var ;;
  v_first <- lift (getitem_first v) ;;
  setitem_mask interp_data mask_low v_first ;;;
  (* interp_data[mask_high] = interp_var[-1] *)
  v <- load interp_var ;;
  v_last <- lift (getitem_last v) ;;
  setitem_mask interp_data mask_high v_last ;;;
  ret interp_data.

(** A sounding whose columns are arrays of the store. *)
Abbreviation DataFrame := (dict ndarray) (only parsing).

(** The structure returned by the builder: the arrays it names. *)
Record cross_section : Type := {
  grid_data : dict addr;
  obs_distance : ndarray;
  x_grid : addr;
  p_grid : addr;
  elevation : ndarray
}.

Section Builder.

Variable griddata :
  list R -> list R -> list R -> list (list R) -> list (list R)
  -> result (list (list R)).
Variable height_to_pressure_std : list R -> list R.
Variable uninit : nat -> string -> nat -> nat -> R.

(** [data[station].name[0]] *)
Definition station_attribute (data : dict DataFrame) (station name : string)
  : M R :=
  df <- lift (getitem data station) ;;
  col <- lift (getattr df name) ;;
  v <- load col ;;
  lift (series_first v).

Definition fill_station (data : dict DataFrame) (vertical_levels : ndarray)
    (key : string) (st : addr * coords) (sl : string * nat) : M (addr * coords) :=
  let '(tmp, c) := st in
  let '(station, loc) := sl in
  if String.eqb key "pressure" then
    lat <- station_attribute data station "latitude" ;;
    lon <- station_attribute data station "longitude" ;;
    el <- station_attribute data station "elevation" ;;
    lv <- load vertical_levels ;;
    setitem_row tmp loc lv ;;;
    ret (tmp, {| lats := lats c ++ [lat];
                 lons := lons c ++ [lon];
                 elev := elev c ++ [el] |})
  else
    df <- lift (getitem data station) ;;
    p <- lift (getitem df "pressure") ;;
    df <- lift (getitem data station) ;;
    v <- lift (getitem df key) ;;
    col <- vertical_interpolate p v vertical_levels ;;
    colv <- load col ;;
    setitem_row tmp loc colv ;;;
    ret (tmp, c).

Definition fill_key (stns : list string) (data : dict DataFrame)
    (vertical_levels : ndarray) (plevs : nat) (st : dict addr * coords)
    (key : string) : M (dict addr * coords) :=
  let '(tmp_grid, c) := st in
  let nstns := length stns in
  tmp <- new_array2 (np_empty (uninit 0 key) nstns plevs) ;;
  st' <- for_each (fill_station data vertical_levels key)
           (combine stns (seq 0 nstns)) (tmp, c) ;;
  ret (tmp_grid ++ [(key, fst st')], snd st').

Definition grid_key (tmp_grid : dict addr) (nx plevs : nat)
    (ddist pdist xx pp : addr) (grid : dict addr) (key : string)
    : M (dict addr) :=
  g <- new_array2 (np_empty (uninit 1 key) nx plevs) ;;
  (* ddist.flatten(), pdist.flatten(), tmp_grid[key][:].flatten() *)
  d <- load2 ddist ;;
  px <- new_array (flatten d) ;;
  d <- load2 pdist ;;
  py <- new_array (flatten d) ;;
  tmp <- lift (getitem tmp_grid key) ;;
  d <- load2 tmp ;;
  values <- new_array (flatten d) ;;
  px <- load px ;;
  py <- load py ;;
  values <- load values ;;
  xi_x <- load2 xx ;;
  xi_y <- load2 pp ;;
  src <- lift (griddata px py values xi_x xi_y) ;;
  src <- new_array2 src ;;
  src <- load2 src ;;
  setitem_all g src ;;;
  ret (grid ++ [(key, g)]).

Definition radisonde_cross_section (stns : list string) (data : dict DataFrame)
    (start end_ step : Z) : M cross_section :=
  levels <- lift (np_arange start (end_ - 1) (- step)) ;;
  vertical_levels <- new_array (map IZR levels) ;;
  let plevs := length levels in
  let nstns := length stns in
  s0 <- lift (getitem_first stns) ;;
  df0 <- lift (getitem data s0) ;;
  let keys := dict_fromkeys (keys_upto8 df0) in
  st <- for_each (fill_key stns data vertical_levels plevs) keys
          ([], {| lats := []; lons := []; elev := [] |}) ;;
  let tmp_grid := fst st in
  let c := snd st in
  lon0 <- lift (getitem_first (lons c)) ;;
  lat0 <- lift (getitem_first (lats c)) ;;
  dist <- lift (geod_inv_dist (repeat lon0 nstns) (repeat lat0 nstns)
                  (lons c) (lats c)) ;;
  dist <- new_array dist ;;
  ground_elevation <- new_array (height_to_pressure_std (elev c)) ;;
  d <- load dist ;;
  d_first <- lift (getitem_first d) ;;
  d <- load dist ;;
  d_last <- lift (getitem_last d) ;;
  x <- new_array (np_linspace d_first d_last 100) ;;
  x_elems <- load x ;;
  let nx := length x_elems in
  lv <- load vertical_levels ;;
  pp <- new_array2 (fst (np_meshgrid lv x_elems)) ;;
  xx <- new_array2 (snd (np_meshgrid lv x_elems)) ;;
  lv <- load vertical_levels ;;
  d <- load dist ;;
  pdist <- new_array2 (fst (np_meshgrid lv d)) ;;
  ddist <- new_array2 (snd (np_meshgrid lv d)) ;;
  grid <- for_each (grid_key tmp_grid nx plevs ddist pdist xx pp) keys [] ;;
  ret {| grid_data := grid; obs_distance := dist;
         x_grid := xx; p_grid := pp; elevation := ground_elevation |}.

End Builder.

End Store.

(** ** What a call leaves of the store *)

(** [h'] holds every object of [h], where it was and as it was; whatever
    else it holds is new. *)
Definition extends (h h' : Store.heap) : Prop := exists ext, h' = h ++ ext.

(** An address, an array or a returned structure that did not exist in [h0]. *)
Definition fresh (h0 : Store.heap) (a : Store.addr) : Prop :=
  (length h0 <= a)%nat.

Definition fresh_array (h0 : Store.heap) (a : Store.ndarray) : Prop :=
  fresh h0 (Store.base a).

Definition fresh_cross_section (h0 : Store.heap) (cs : Store.cross_section) : Prop :=
  Forall (fun kv => fresh h0 (snd kv)) (Store.grid_data cs) /\
  fresh_array h0 (Store.obs_distance cs) /\
  fresh h0 (Store.x_grid cs) /\
  fresh h0 (Store.p_grid cs) /\
  fresh_array h0 (Store.elevation cs).

(** [m], started in any store that extends [h0], leaves a store that
    extends [h0], whether it returns or raises, and what it returns
    satisfies [Q]. *)
Definition preserves {A : Type} (h0 : Store.heap) (m : Store.M A)
    (Q : A -> Prop) : Prop :=
  forall h r h',
    extends h0 h -> m h = (r, h') ->
    extends h0 h' /\ forall a, r = OK a -> Q a.

(** The array [a] is in the store [h], with the elements [v]. *)
Definition holds (h : Store.heap) (a : Store.ndarray) (v : list R) : Prop :=
  Store.load a h = (OK v, h).

(** The running example in a store: the columns of the three soundings, in
    order, and the grid [1000, 550, 100] as the last array. *)
Definition demo_heap : Store.heap :=
  map Store.Vec
    (concat (map (fun sdf : string * DataFrame => map snd (snd sdf)) demo_data)
     ++ [demo_levels]).

(** The sounding whose five columns start at address [first]. *)
Definition demo_frame (first : nat) : Store.DataFrame :=
  [("pressure"%string, Store.whole first);
   ("temperature"%string, Store.whole (first + 1)%nat);
   ("latitude"%string, Store.whole (first + 2)%nat);
   ("longitude"%string, Store.whole (first + 3)%nat);
   ("elevation"%string, Store.whole (first + 4)%nat)].

Definition demo_store_data : dict Store.DataFrame :=
  [("AAA"%string, demo_frame 0); ("BBB"%string, demo_frame 5);
   ("CCC"%string, demo_frame 10)].

(** The 2-D array at [a] is in the store [h], with the elements [m]. *)
Definition holds2 (h : Store.heap) (a : Store.addr) (m : list (list R)) : Prop :=
  nth_error h a = Some (Store.Mat m).

(** A dictionary of arrays of the store stands for a dictionary of values:
    the same keys in the same order, each array holding its value. *)
Definition dict_holds {A V : Type} (holding : A -> V -> Prop)
    (d_st : dict A) (d : dict V) : Prop :=
  Forall2 (fun ka kv => fst ka = fst kv /\ holding (snd ka) (snd kv)) d_st d.

Definition data_holds (h : Store.heap) (data_st : dict Store.DataFrame)
    (data : dict DataFrame) : Prop :=
  dict_holds (dict_holds (holds h)) data_st data.

Definition cross_section_holds (h : Store.heap) (cs_st : Store.cross_section)
    (cs : cross_section) : Prop :=
  dict_holds (holds2 h) (Store.grid_data cs_st) (grid_data cs) /\
  holds h (Store.obs_distance cs_st) (obs_distance cs) /\
  holds2 h (Store.x_grid cs_st) (x_grid cs) /\
  holds2 h (Store.p_grid cs_st) (p_grid cs) /\
  holds h (Store.elevation cs_st) (elevation cs).

(** * Further vocabulary *)

(** Values that do not rise from one observed level to the next one up. *)
Fixpoint non_increasing (l : list R) : Prop :=
  match l with
  | a :: ((b :: _) as t) => a >= b /\ non_increasing t
  | _ => True
  end.





(** * The script around the builder *)

(** [d[k] = v] on a [dict]: a key that is there keeps its place. *)
Fixpoint setitem {V : Type} (d : dict V) (k : string) (v : V) : dict V :=
  match d with
  | [] => [(k, v)]
  | (k', v') :: d' =>
      if String.eqb k' k then (k', v) :: d' else (k', v') :: setitem d' k v
  end.

Section Script.

(** [WyomingUpperAir.request_data(date, station)] at the date of the script:
    a request to the sounding archive, which answers with a data frame or
    raises. *)
Variable request_data : string -> result DataFrame.

Variable griddata :
  list R -> list R -> list R -> ndarray2 -> ndarray2 -> result ndarray2.
Variable height_to_pressure_std : list R -> list R.
Variable uninit : nat -> string -> nat -> nat -> R.

(** The body of the loop over [stn_list]. *)
Definition fetch_station (df : dict DataFrame) (station : string)
  : result (dict DataFrame) :=
  fr <- request_data station ;;
  OK (setitem df station fr).

(** [df = {}] and the loop that fills it. *)
Definition fetch_soundings (stn_list : list string) : result (dict DataFrame) :=
  for_each fetch_station stn_list [].


End Script.

(** * Properties *)

(** ** Helper lemmas: comparisons and indexing *)

Lemma Rltb_true (x y : R) : Rltb x y = true <-> x < y.
Proof.
  unfold Rltb. destruct (Rlt_dec x y); split; intros; try easy; discriminate.
Qed.

Lemma Rltb_false (x y : R) : Rltb x y = false <-> ~ x < y.
Proof.
  unfold Rltb. destruct (Rlt_dec x y); split; intros; try easy; discriminate.
Qed.

Lemma getitem_first_hd {A : Type} (d : A) (l : list A) :
  l <> [] -> getitem_first l = OK (hd d l).
Proof. destruct l; [congruence | reflexivity]. Qed.

Lemma rev_hd_last {A : Type} (d : A) (l : list A) : hd d (rev l) = last l d.
Proof.
  induction l as [|a l IH] using rev_ind; [reflexivity|].
  rewrite rev_app_distr, last_last. reflexivity.
Qed.

Lemma getitem_last_last {A : Type} (d : A) (l : list A) :
  l <> [] -> getitem_last l = OK (last l d).
Proof.
  intros Hl. unfold getitem_last.
  rewrite (getitem_first_hd d).
  - now rewrite rev_hd_last.
  - intros H. apply Hl. rewrite <- (rev_involutive l), H. reflexivity.
Qed.

Lemma setitem_mask_map (f : R -> R) (g : R -> bool) (ls : list R) (v : R) :
  setitem_mask (map f ls) (map g ls) v
  = OK (map (fun l => if g l then v else f l) ls).
Proof.
  unfold setitem_mask. rewrite !length_map, Nat.eqb_refl. f_equal.
  induction ls as [|l ls IH]; simpl; [reflexivity | now rewrite IH].
Qed.

Lemma strictly_decreasing_tail (a : R) (l : list R) :
  strictly_decreasing (a :: l) -> strictly_decreasing l.
Proof. destruct l; simpl; tauto. Qed.

Lemma strictly_decreasing_last_le (a : R) (l : list R) :
  strictly_decreasing (a :: l) -> last (a :: l) 0 <= a.
Proof.
  revert a. induction l as [|b l IH]; intros a H.
  - simpl. lra.
  - destruct H as [Hab Hl]. specialize (IH b Hl).
    change (last (a :: b :: l) 0) with (last (b :: l) 0). lra.
Qed.

(** ** The result of [vertical_interpolate], level by level *)

Lemma vertical_interpolate_eq (ps vs ls : list R) :
  ps <> [] -> length vs = length ps ->
  vertical_interpolate ps vs ls = OK (map (level_value ps vs) ls).
Proof.
  intros Hps Hlen.
  assert (Hvs : vs <> []).
  { destruct vs; [|congruence]. destruct ps; [congruence | discriminate]. }
  unfold vertical_interpolate, np_interp.
  rewrite !length_rev, !length_map.
  destruct (Nat.eqb_spec (length ps) 0) as [H0|_].
  { destruct ps; [congruence | discriminate]. }
  rewrite Hlen, Nat.eqb_refl. simpl.
  rewrite (getitem_first_hd 0 ps Hps). simpl.
  rewrite (getitem_last_last 0 ps Hps). simpl.
  rewrite (getitem_first_hd 0 vs Hvs). simpl.
  rewrite <- map_rev, rev_involutive, map_map.
  rewrite setitem_mask_map. simpl.
  rewrite (getitem_last_last 0 vs Hvs). simpl.
  rewrite setitem_mask_map. simpl.
  reflexivity.
Qed.

(** ** Helper lemmas: sorted sample points and [np.interp] *)

Lemma strictly_increasing_head_lt (a : R) (l : list R) (k : nat) :
  strictly_increasing (a :: l) -> (k < length l)%nat -> a < nth k l 0.
Proof.
  revert a k. induction l as [|b l IH]; intros a k H Hk; simpl in Hk; [lia|].
  destruct H as [Hab Hl]. destruct k as [|k]; simpl; [exact Hab|].
  apply Rlt_trans with b; [exact Hab|]. apply IH; [exact Hl | lia].
Qed.

Lemma strictly_increasing_tail (a : R) (l : list R) :
  strictly_increasing (a :: l) -> strictly_increasing l.
Proof. destruct l; simpl; tauto. Qed.

Lemma search_count (xp : list R) (x : R) (k : nat) :
  strictly_increasing xp -> (k < length xp)%nat -> nth k xp 0 <= x ->
  (S k = length xp \/ x < nth (S k) xp 0) ->
  search xp x = S k.
Proof.
  revert k. induction xp as [|a t IH]; intros k Hs Hk Hle Hnext; simpl in Hk; [lia|].
  simpl. destruct k as [|k].
  - simpl in Hle. destruct (Rlt_dec x a) as [Hc|_]; [lra|]. f_equal.
    destruct t as [|b t']; [reflexivity|].
    destruct Hnext as [Hn|Hn]; [simpl in Hn; lia|].
    simpl in Hn. simpl. destruct (Rlt_dec x b); [reflexivity | contradiction].
  - assert (Ha : a < nth k t 0)
      by (apply strictly_increasing_head_lt; [exact Hs | lia]).
    simpl in Hle. destruct (Rlt_dec x a) as [Hc|_]; [lra|]. f_equal.
    apply IH.
    + eapply strictly_increasing_tail; eassumption.
    + lia.
    + exact Hle.
    + destruct Hnext as [Hn|Hn]; [left; simpl in Hn; lia | right; exact Hn].
Qed.

Lemma strictly_increasing_adjacent (xp : list R) (k : nat) :
  strictly_increasing xp -> (S k < length xp)%nat -> nth k xp 0 < nth (S k) xp 0.
Proof.
  revert k. induction xp as [|a t IH]; intros k Hs Hk; simpl in Hk; [lia|].
  destruct k as [|k].
  - destruct t as [|b t']; simpl in *; [lia | tauto].
  - change (nth k t 0 < nth (S k) t 0). apply IH; [|lia].
    eapply strictly_increasing_tail; eassumption.
Qed.

(** At a sample point [np.interp] returns the sample. *)
Lemma interp_one_at_sample (xp fp : list R) (k : nat) :
  strictly_increasing xp -> (k < length xp)%nat ->
  interp_one xp fp (nth k xp 0) = nth k fp 0.
Proof.
  intros Hs Hk. unfold interp_one.
  rewrite (search_count xp (nth k xp 0) k Hs Hk).
  - destruct (Nat.eqb (S k) (length xp)); [reflexivity|].
    destruct (Req_dec_T (nth k xp 0) (nth k xp 0)); [reflexivity | congruence].
  - lra.
  - destruct (Nat.eq_dec (S k) (length xp)) as [He|He]; [left; exact He | right].
    apply strictly_increasing_adjacent; [exact Hs | lia].
Qed.

(** Between two neighbouring sample points [np.interp] is the chord. *)
Lemma interp_one_between (xp fp : list R) (k : nat) (x : R) :
  strictly_increasing xp -> (S k < length xp)%nat ->
  nth k xp 0 <= x <= nth (S k) xp 0 ->
  interp_one xp fp x
  = nth k fp 0
    + (nth (S k) fp 0 - nth k fp 0)
      * ((x - nth k xp 0) / (nth (S k) xp 0 - nth k xp 0)).
Proof.
  intros Hs Hk [Hlo Hhi].
  pose proof (strictly_increasing_adjacent xp k Hs Hk) as Hadj.
  destruct (Rle_lt_or_eq_dec _ _ Hhi) as [Hlt|Heq].
  - unfold interp_one. rewrite (search_count xp x k Hs); [|lia|exact Hlo|right; exact Hlt].
    destruct (Nat.eqb_spec (S k) (length xp)) as [He|_]; [lia|].
    destruct (Req_dec_T (nth k xp 0) x) as [He|_].
    + rewrite <- He. field. lra.
    + field. lra.
  - rewrite Heq. rewrite interp_one_at_sample; [|exact Hs|exact Hk].
    field. lra.
Qed.

(** The chord stays between its end values. *)
Lemma chord_between (ya yb t : R) :
  0 <= t <= 1 -> Rmin ya yb <= ya + (yb - ya) * t <= Rmax ya yb.
Proof.
  intros [H0 H1]. unfold Rmin, Rmax. destruct (Rle_dec ya yb); nra.
Qed.

(** ** Helper lemmas: decreasing pressures and their logarithms *)

Lemma strictly_decreasing_adjacent (ps : list R) (k : nat) :
  strictly_decreasing ps -> (S k < length ps)%nat -> nth (S k) ps 0 < nth k ps 0.
Proof.
  revert k. induction ps as [|a t IH]; intros k Hs Hk; simpl in Hk; [lia|].
  destruct k as [|k].
  - destruct t as [|b t']; simpl in *; [lia | lra].
  - change (nth (S k) t 0 < nth k t 0). apply IH; [|lia].
    eapply strictly_decreasing_tail; eassumption.
Qed.

Lemma strictly_increasing_of_adjacent (l : list R) :
  (forall k, (S k < length l)%nat -> nth k l 0 < nth (S k) l 0) ->
  strictly_increasing l.
Proof.
  induction l as [|a t IH]; intros H; [exact I|].
  destruct t as [|b t']; [exact I|]. split.
  - apply (H O). simpl. lia.
  - apply IH. intros k Hk. apply (H (S k)). simpl in *. lia.
Qed.

Lemma nth_map_ln (ps : list R) (k : nat) :
  (k < length ps)%nat -> nth k (map ln ps) 0 = ln (nth k ps 0).
Proof.
  intros Hk. rewrite (nth_indep _ 0 (ln 0)) by (rewrite length_map; exact Hk).
  apply map_nth.
Qed.

Lemma Forall_nth_pos (ps : list R) (k : nat) :
  Forall (fun p => 0 < p) ps -> (k < length ps)%nat -> 0 < nth k ps 0.
Proof.
  intros H Hk. rewrite Forall_forall in H. apply H. apply nth_In. exact Hk.
Qed.

(** The reversed logarithms of a sounding are increasing sample points. *)
Lemma rev_ln_increasing (ps : list R) :
  strictly_decreasing ps -> Forall (fun p => 0 < p) ps ->
  strictly_increasing (rev (map ln ps)).
Proof.
  intros Hs Hpos. apply strictly_increasing_of_adjacent.
  intros k Hk. rewrite length_rev, length_map in Hk.
  rewrite !rev_nth by (rewrite length_map; lia).
  rewrite length_map, !nth_map_ln by lia.
  replace (length ps - S k)%nat with (S (length ps - S (S k))) by lia.
  apply ln_increasing.
  - apply Forall_nth_pos; [exact Hpos | lia].
  - apply strictly_decreasing_adjacent; [exact Hs | lia].
Qed.

Lemma ln_le_compat (x y : R) : 0 < x -> x <= y -> ln x <= ln y.
Proof.
  intros Hx [Hlt|Heq].
  - left. apply ln_increasing; assumption.
  - right. now rewrite Heq.
Qed.

Lemma strictly_decreasing_nth_le (ps : list R) (i j : nat) :
  strictly_decreasing ps -> (i <= j)%nat -> (j < length ps)%nat ->
  nth j ps 0 <= nth i ps 0.
Proof.
  intros Hs Hij Hj. induction Hij as [|j Hij IH]; [lra|].
  apply Rle_trans with (nth j ps 0); [|apply IH; lia].
  left. apply strictly_decreasing_adjacent; assumption.
Qed.

Lemma last_nth (l : list R) : last l 0 = nth (length l - 1) l 0.
Proof.
  induction l as [|a t IH]; [reflexivity|].
  destruct t as [|b t']; [reflexivity|].
  change (last (a :: b :: t') 0) with (last (b :: t') 0). rewrite IH.
  simpl. now rewrite Nat.sub_0_r.
Qed.

Lemma hd_nth (l : list R) : hd 0 l = nth 0 l 0.
Proof. destruct l; reflexivity. Qed.

(** Inside the observed range neither mask applies. *)
Lemma level_value_inside (ps vs : list R) (l : R) :
  last ps 0 <= l <= hd 0 ps ->
  level_value ps vs l = interp_one (rev (map ln ps)) (rev vs) (ln l).
Proof.
  intros [Hlo Hhi]. unfold level_value, Rgtb.
  destruct (Rltb l (last ps 0)) eqn:E1; [apply Rltb_true in E1; lra|].
  destruct (Rltb (hd 0 ps) l) eqn:E2; [apply Rltb_true in E2; lra|].
  reflexivity.
Qed.

Lemma level_in_range (ps : list R) (j : nat) (l : R) :
  strictly_decreasing ps -> (S j < length ps)%nat ->
  nth (S j) ps 0 <= l <= nth j ps 0 ->
  last ps 0 <= l <= hd 0 ps.
Proof.
  intros Hs Hj [Hlo Hhi]. rewrite last_nth, hd_nth. split.
  - apply Rle_trans with (nth (S j) ps 0); [|exact Hlo].
    apply strictly_decreasing_nth_le; [exact Hs | lia | lia].
  - apply Rle_trans with (nth j ps 0); [exact Hhi|].
    apply strictly_decreasing_nth_le; [exact Hs | lia | lia].
Qed.

(** Log-linear interpolation between two neighbouring observed levels. *)
Lemma level_value_between (ps vs : list R) (j : nat) (l : R) :
  strictly_decreasing ps -> Forall (fun p => 0 < p) ps ->
  length vs = length ps -> (S j < length ps)%nat ->
  nth (S j) ps 0 <= l <= nth j ps 0 ->
  level_value ps vs l
  = nth (S j) vs 0
    + (nth j vs 0 - nth (S j) vs 0)
      * ((ln l - ln (nth (S j) ps 0)) / (ln (nth j ps 0) - ln (nth (S j) ps 0))).
Proof.
  intros Hs Hpos Hlen Hj Hl.
  rewrite level_value_inside by (eapply level_in_range; eassumption).
  pose proof (Forall_nth_pos ps (S j) Hpos Hj) as Hpb.
  set (k := (length ps - S (S j))%nat).
  assert (Hxk : nth k (rev (map ln ps)) 0 = ln (nth (S j) ps 0)).
  { unfold k. rewrite rev_nth by (rewrite length_map; lia).
    rewrite length_map, nth_map_ln by lia. f_equal. f_equal. lia. }
  assert (Hxk1 : nth (S k) (rev (map ln ps)) 0 = ln (nth j ps 0)).
  { unfold k. rewrite rev_nth by (rewrite length_map; lia).
    rewrite length_map, nth_map_ln by lia. f_equal. f_equal. lia. }
  assert (Hyk : nth k (rev vs) 0 = nth (S j) vs 0).
  { unfold k. rewrite rev_nth by lia. f_equal. lia. }
  assert (Hyk1 : nth (S k) (rev vs) 0 = nth j vs 0).
  { unfold k. rewrite rev_nth by lia. f_equal. lia. }
  rewrite (interp_one_between _ _ k).
  - rewrite Hxk, Hxk1, Hyk, Hyk1. reflexivity.
  - apply rev_ln_increasing; assumption.
  - rewrite length_rev, length_map. unfold k. lia.
  - rewrite Hxk, Hxk1. split; apply ln_le_compat; lra.
Qed.

(** At an observed level the observed value comes back. *)
Lemma level_value_at_level (ps vs : list R) (j : nat) :
  strictly_decreasing ps -> Forall (fun p => 0 < p) ps ->
  length vs = length ps -> (j < length ps)%nat ->
  level_value ps vs (nth j ps 0) = nth j vs 0.
Proof.
  intros Hs Hpos Hlen Hj.
  rewrite level_value_inside.
  - set (k := (length ps - S j)%nat).
    assert (Hxk : nth k (rev (map ln ps)) 0 = ln (nth j ps 0)).
    { unfold k. rewrite rev_nth by (rewrite length_map; lia).
      rewrite length_map, nth_map_ln by lia. f_equal. f_equal. lia. }
    rewrite <- Hxk. rewrite interp_one_at_sample.
    + unfold k. rewrite rev_nth by lia. f_equal. lia.
    + apply rev_ln_increasing; assumption.
    + rewrite length_rev, length_map. unfold k. lia.
  - rewrite last_nth, hd_nth. split;
      apply strictly_decreasing_nth_le; try assumption; lia.
Qed.

Lemma nth_error_nth_R (l : list R) (i : nat) (x : R) :
  nth_error l i = Some x -> nth i l 0 = x /\ (i < length l)%nat.
Proof.
  intros H. split; [now apply nth_error_nth | apply nth_error_Some; congruence].
Qed.

(** Inside the observed range every level lies between two neighbouring
    observed levels. *)
Lemma bracket_exists (ps : list R) (l : R) :
  strictly_decreasing ps -> (2 <= length ps)%nat ->
  last ps 0 <= l <= hd 0 ps ->
  exists j, (S j < length ps)%nat /\ nth (S j) ps 0 <= l <= nth j ps 0.
Proof.
  induction ps as [|a t IH]; intros Hs Hlen Hl; [simpl in Hlen; lia|].
  destruct t as [|b t']; [simpl in Hlen; lia|].
  destruct (Rle_dec b l) as [Hb|Hb].
  - exists O. split; [simpl; lia|]. simpl in *. lra.
  - destruct t' as [|c t''].
    + simpl in Hl. lra.
    + destruct IH as [j [Hj Hjl]].
      * eapply strictly_decreasing_tail; eassumption.
      * simpl. lia.
      * change (last (a :: b :: c :: t'') 0) with (last (b :: c :: t'') 0) in Hl.
        simpl hd. lra.
      * exists (S j). split; [simpl in *; lia | exact Hjl].
Qed.

(** * The vertical interpolator *)

(** C1.  For a strictly decreasing sounding with as many values as
    pressures, every target level above the first observed pressure gets the
    first observed value and every target level below the last observed
    pressure gets the last observed value: the call returns, and outside the
    observed range it clamps instead of extrapolating. *)
Theorem vertical_interpolate_clamps (ps vs ls : list R) :
  strictly_decreasing ps -> ps <> [] -> length vs = length ps ->
  exists out,
    vertical_interpolate ps vs ls = OK out /\
    length out = length ls /\
    forall i l, nth_error ls i = Some l ->
      (l > hd 0 ps -> nth_error out i = Some (hd 0 vs)) /\
      (l < last ps 0 -> nth_error out i = Some (last vs 0)).
Proof.
  intros Hs Hne Hlen. exists (map (level_value ps vs) ls).
  split; [now apply vertical_interpolate_eq|].
  split; [apply length_map|].
  intros i l Hi. rewrite nth_error_map, Hi. simpl.
  assert (Hle : last ps 0 <= hd 0 ps).
  { destruct ps as [|a t]; [congruence|]. now apply strictly_decreasing_last_le. }
  unfold level_value, Rgtb. split; intros Hl.
  - destruct (Rltb l (last ps 0)) eqn:E1; [apply Rltb_true in E1; lra|].
    destruct (Rltb (hd 0 ps) l) eqn:E2; [reflexivity|].
    apply Rltb_false in E2. lra.
  - destruct (Rltb l (last ps 0)) eqn:E1; [reflexivity|].
    apply Rltb_false in E1. lra.
Qed.

Lemma vertical_interpolate_clamps_witness :
  exists out,
    vertical_interpolate [1000; 500] [20; -10] [1100; 750; 100] = OK out /\
    length out = 3%nat /\
    forall i l, nth_error [1100; 750; 100] i = Some l ->
      (l > 1000 -> nth_error out i = Some 20) /\
      (l < 500 -> nth_error out i = Some (-10)).
Proof.
  apply (vertical_interpolate_clamps [1000; 500] [20; -10] [1100; 750; 100]).
  - simpl. split; [lra | exact I].
  - discriminate.
  - reflexivity.
Defined.

(** C2.  For a strictly decreasing sounding of positive pressures and a
    target grid inside the observed range, the call returns and every output
    is the linear interpolant in log-pressure between the two neighbouring
    observed levels that enclose the target level, lies between their two
    values, and at an observed pressure level is that level's observed
    value; with two observed levels or more, such neighbours exist for every
    target level. *)
Theorem vertical_interpolate_log_linear (ps vs ls : list R) :
  strictly_decreasing ps -> ps <> [] -> Forall (fun p => 0 < p) ps ->
  length vs = length ps ->
  Forall (fun l => last ps 0 <= l <= hd 0 ps) ls ->
  exists out,
    vertical_interpolate ps vs ls = OK out /\
    length out = length ls /\
    forall i l, nth_error ls i = Some l ->
      exists y, nth_error out i = Some y /\
        (forall j, nth_error ps j = Some l -> nth_error vs j = Some y) /\
        (forall j pa pb va vb,
            nth_error ps j = Some pa -> nth_error ps (S j) = Some pb ->
            nth_error vs j = Some va -> nth_error vs (S j) = Some vb ->
            pb <= l <= pa ->
            y = vb + (va - vb) * ((ln l - ln pb) / (ln pa - ln pb)) /\
            Rmin vb va <= y <= Rmax vb va) /\
        ((2 <= length ps)%nat ->
         exists j pa pb,
           nth_error ps j = Some pa /\ nth_error ps (S j) = Some pb /\
           pb <= l <= pa).
Proof.
  intros Hs Hne Hpos Hlen Hin. exists (map (level_value ps vs) ls).
  split; [now apply vertical_interpolate_eq|].
  split; [apply length_map|].
  intros i l Hi. exists (level_value ps vs l).
  split; [rewrite nth_error_map, Hi; reflexivity|].
  split; [|split].
  3:{ intros H2. rewrite Forall_forall in Hin.
      destruct (bracket_exists ps l Hs H2 (Hin l (nth_error_In _ _ Hi)))
        as [j [Hj Hjl]].
      exists j, (nth j ps 0), (nth (S j) ps 0).
      split; [apply nth_error_nth'; lia|].
      split; [apply nth_error_nth'; lia | exact Hjl]. }
  - intros j Hj. apply nth_error_nth_R in Hj. destruct Hj as [Hj Hjlen].
    rewrite <- Hj. rewrite level_value_at_level by assumption.
    apply nth_error_nth'. lia.
  - intros j pa pb va vb Hpa Hpb Hva Hvb Hl.
    apply nth_error_nth_R in Hpa, Hpb, Hva, Hvb.
    destruct Hpa as [Hpa _], Hpb as [Hpb Hjlen], Hva as [Hva _], Hvb as [Hvb _].
    subst pa pb va vb.
    rewrite (level_value_between ps vs j l) by assumption.
    split; [reflexivity|].
    apply chord_between.
    pose proof (Forall_nth_pos ps (S j) Hpos Hjlen) as Hpb.
    pose proof (strictly_decreasing_adjacent ps j Hs Hjlen) as Hadj.
    assert (Hd : ln (nth (S j) ps 0) < ln (nth j ps 0)) by (apply ln_increasing; lra).
    assert (H1 : ln (nth (S j) ps 0) <= ln l) by (apply ln_le_compat; lra).
    assert (H2 : ln l <= ln (nth j ps 0)) by (apply ln_le_compat; lra).
    split.
    + apply Rmult_le_reg_r with (ln (nth j ps 0) - ln (nth (S j) ps 0)); [lra|].
      unfold Rdiv. rewrite Rmult_assoc, Rinv_l by lra. lra.
    + apply Rmult_le_reg_r with (ln (nth j ps 0) - ln (nth (S j) ps 0)); [lra|].
      unfold Rdiv. rewrite Rmult_assoc, Rinv_l by lra. lra.
Qed.

Lemma vertical_interpolate_log_linear_witness :
  exists out,
    vertical_interpolate [1000; 850; 700; 500] [20; 15; 5; -10] [1000; 900; 600]
    = OK out /\
    length out = 3%nat /\
    forall i l, nth_error [1000; 900; 600] i = Some l ->
      exists y, nth_error out i = Some y /\
        (forall j, nth_error [1000; 850; 700; 500] j = Some l ->
                   nth_error [20; 15; 5; -10] j = Some y) /\
        (forall j pa pb va vb,
            nth_error [1000; 850; 700; 500] j = Some pa ->
            nth_error [1000; 850; 700; 500] (S j) = Some pb ->
            nth_error [20; 15; 5; -10] j = Some va ->
            nth_error [20; 15; 5; -10] (S j) = Some vb ->
            pb <= l <= pa ->
            y = vb + (va - vb) * ((ln l - ln pb) / (ln pa - ln pb)) /\
            Rmin vb va <= y <= Rmax vb va) /\
        ((2 <= 4)%nat ->
         exists j pa pb,
           nth_error [1000; 850; 700; 500] j = Some pa /\
           nth_error [1000; 850; 700; 500] (S j) = Some pb /\
           pb <= l <= pa).
Proof.
  apply (vertical_interpolate_log_linear
           [1000; 850; 700; 500] [20; 15; 5; -10] [1000; 900; 600]).
  - simpl. repeat split; lra.
  - discriminate.
  - repeat constructor; lra.
  - reflexivity.
  - repeat constructor; simpl; lra.
Defined.

(** ** The worked example of the specification *)

Lemma ln_combination_lt (a b c : R) (m n k : nat) :
  0 < a -> 0 < b -> 0 < c -> a ^ m * b ^ n < c ^ k ->
  INR m * ln a + INR n * ln b < INR k * ln c.
Proof.
  intros Ha Hb Hc H.
  rewrite <- !ln_pow by assumption.
  rewrite <- ln_mult by (apply pow_lt; assumption).
  apply ln_increasing; [|exact H].
  apply Rmult_lt_0_compat; apply pow_lt; assumption.
Qed.

Lemma ln_combination_gt (a b c : R) (m n k : nat) :
  0 < a -> 0 < b -> 0 < c -> c ^ k < a ^ m * b ^ n ->
  INR k * ln c < INR m * ln a + INR n * ln b.
Proof.
  intros Ha Hb Hc H.
  rewrite <- !ln_pow by assumption.
  rewrite <- ln_mult by (apply pow_lt; assumption).
  apply ln_increasing; [|exact H].
  apply pow_lt; assumption.
Qed.

Lemma example_fraction_bounds : 35 / 100 < example_fraction < 36 / 100.
Proof.
  assert (Hd : 0 < ln 1000 - ln 850).
  { assert (ln 850 < ln 1000) by (apply ln_increasing; lra). lra. }
  assert (Hlo : INR 7 * ln 1000 + INR 13 * ln 850 < INR 20 * ln 900).
  { apply ln_combination_lt; lra. }
  assert (Hhi : INR 25 * ln 900 < INR 9 * ln 1000 + INR 16 * ln 850).
  { apply ln_combination_gt; lra. }
  rewrite !INR_IZR_INZ in Hlo, Hhi. simpl in Hlo, Hhi.
  unfold example_fraction. split.
  - apply Rmult_lt_reg_r with (ln 1000 - ln 850); [exact Hd|].
    unfold Rdiv at 2. rewrite Rmult_assoc, Rinv_l by lra. lra.
  - apply Rmult_lt_reg_r with (ln 1000 - ln 850); [exact Hd|].
    unfold Rdiv at 1. rewrite Rmult_assoc, Rinv_l by lra. lra.
Qed.

Lemma example_run :
  vertical_interpolate example_pressures example_temperatures example_grid
  = OK [20; 15 + 5 * example_fraction; -10].
Proof.
  unfold example_pressures, example_temperatures, example_grid.
  rewrite vertical_interpolate_eq by (try discriminate; reflexivity).
  assert (Hs : strictly_decreasing [1000; 850; 700; 500])
    by (simpl; repeat split; lra).
  assert (Hpos : Forall (fun p => 0 < p) [1000; 850; 700; 500])
    by (repeat constructor; lra).
  assert (H1 : level_value [1000; 850; 700; 500] [20; 15; 5; -10] 1000 = 20).
  { exact (level_value_at_level [1000; 850; 700; 500] [20; 15; 5; -10] 0
             Hs Hpos eq_refl ltac:(simpl; lia)). }
  assert (H2 : level_value [1000; 850; 700; 500] [20; 15; 5; -10] 900
               = 15 + 5 * example_fraction).
  { rewrite (level_value_between _ _ 0%nat); try assumption.
    - simpl. unfold example_fraction. ring.
    - reflexivity.
    - simpl. lia.
    - simpl. lra. }
  assert (H3 : level_value [1000; 850; 700; 500] [20; 15; 5; -10] 100 = -10).
  { unfold level_value. simpl last.
    destruct (Rltb 100 500) eqn:E; [reflexivity|].
    apply Rltb_false in E. lra. }
  simpl map. rewrite H1, H2, H3. reflexivity.
Qed.

(** C5, as the code has it.  On the observed pressures [1000, 850, 700, 500]
    with temperatures [20, 15, 5, -10] and the target grid [1000, 900, 100]
    the outputs are [20, v, -10]: 900 hPa lies between the observed levels
    1000 and 850 hPa, so [v] is the log-linear interpolant between 20 and 15,
    about 16.8; the last output is the clamp to the top observed value. *)
Theorem example_outputs :
  exists v,
    vertical_interpolate example_pressures example_temperatures example_grid
    = OK [20; v; -10] /\
    v = 15 + (20 - 15) * ((ln 900 - ln 850) / (ln 1000 - ln 850)) /\
    1675 / 100 < v < 168 / 10.
Proof.
  exists (15 + 5 * example_fraction). split; [exact example_run|].
  pose proof example_fraction_bounds as Hb. split.
  - unfold example_fraction. ring.
  - lra.
Qed.

(** C5, as stated, fails: the middle output is not a value between 5 and 15,
    the two temperatures the claim interpolates between, so it is not about
    12.7. *)
Lemma example_middle_not_between_5_and_15 :
  ~ (exists v,
       vertical_interpolate example_pressures example_temperatures example_grid
       = OK [20; v; -10] /\
       5 <= v <= 15).
Proof.
  intros [v [Hrun Hv]]. rewrite example_run in Hrun.
  injection Hrun as Hrun. subst v.
  pose proof example_fraction_bounds as Hb. lra.
Qed.

(** ** Profiles with fewer than two levels *)

Lemma interp_one_single (x0 y0 x : R) : interp_one [x0] [y0] x = y0.
Proof.
  unfold interp_one. simpl. destruct (Rlt_dec x x0); reflexivity.
Qed.

Lemma level_value_single (p v l : R) : level_value [p] [v] l = v.
Proof.
  unfold level_value. simpl.
  destruct (Rltb l p); [reflexivity|].
  destruct (Rgtb l p); [reflexivity|].
  apply interp_one_single.
Qed.

(** C7, as the code has it.  The interpolator does not validate the number
    of observed levels.  With no observed level it raises, the ValueError of
    [np.interp] for an empty array of sample points; with exactly one
    observed level it returns, with the single observed value at every
    target level. *)
Theorem vertical_interpolate_short_profiles :
  (forall vs ls, vertical_interpolate [] vs ls = Raise ValueError) /\
  (forall p v ls, vertical_interpolate [p] [v] ls = OK (map (fun _ => v) ls)).
Proof.
  split.
  - intros vs ls. reflexivity.
  - intros p v ls.
    rewrite vertical_interpolate_eq by (try discriminate; reflexivity).
    f_equal. apply map_ext. intros l. apply level_value_single.
Qed.

(** C7, as stated, fails: a profile of one observed level is interpolated
    without any error. *)
Lemma vertical_interpolate_one_level_returns :
  vertical_interpolate [1000] [20] [1000; 900; 100] = OK [20; 20; 20].
Proof.
  rewrite vertical_interpolate_eq by (try discriminate; reflexivity).
  simpl map. rewrite !level_value_single. reflexivity.
Qed.

(** * Great-circle distance *)

Lemma great_circle_distance_same (lon lat : R) :
  great_circle_distance lon lat lon lat = 0.
Proof.
  unfold great_circle_distance.
  replace (radians lon - radians lon) with 0 by ring.
  rewrite cos_0, Rmult_1_r.
  replace (sin (radians lat) * sin (radians lat)
           + cos (radians lat) * cos (radians lat))
    with (Rsqr (sin (radians lat)) + Rsqr (cos (radians lat)))
    by (unfold Rsqr; ring).
  rewrite sin2_cos2, acos_1. ring.
Qed.

Lemma great_circle_distance_sym (lonA latA lonB latB : R) :
  great_circle_distance lonA latA lonB latB
  = great_circle_distance lonB latB lonA latA.
Proof.
  unfold great_circle_distance.
  replace (radians lonA - radians lonB)
    with (- (radians lonB - radians lonA)) by ring.
  rewrite cos_neg. f_equal. f_equal. ring.
Qed.

Lemma great_circle_distance_nonneg (lonA latA lonB latB : R) :
  0 <= great_circle_distance lonA latA lonB latB.
Proof.
  unfold great_circle_distance, sphere_radius.
  apply Rmult_le_pos; [lra|]. apply acos_bound.
Qed.

(** C8.  The great-circle distance between two stations at the same
    latitude and longitude is 0, and the distance from A to B is the
    distance from B to A. *)
Theorem great_circle_distance_zero_and_symmetric :
  (forall lon lat, great_circle_distance lon lat lon lat = 0) /\
  (forall lonA latA lonB latB,
      great_circle_distance lonA latA lonB latB
      = great_circle_distance lonB latB lonA latA).
Proof.
  split.
  - exact great_circle_distance_same.
  - exact great_circle_distance_sym.
Qed.

(** * The cross-section builder *)

(** ** Helper lemmas: the error monad *)

Lemma bind_OK {A B : Type} (m : result A) (k : A -> result B) (b : B) :
  bind m k = OK b -> exists a, m = OK a /\ k a = OK b.
Proof. destruct m as [a|e]; simpl; intros H; [eauto | discriminate]. Qed.

Ltac bind_inv H :=
  let a := fresh "a" in
  let E := fresh "E" in
  apply bind_OK in H; destruct H as [a [E H]].

Lemma vertical_interpolate_inv (ps vs ls out : list R) :
  vertical_interpolate ps vs ls = OK out ->
  ps <> [] /\ length vs = length ps /\ out = map (level_value ps vs) ls.
Proof.
  intros H.
  assert (Hshape : ps <> [] /\ length vs = length ps).
  { unfold vertical_interpolate, np_interp in H.
    rewrite !length_rev, !length_map in H.
    destruct (Nat.eqb_spec (length ps) 0) as [H0|H0]; [discriminate|].
    destruct (Nat.eqb_spec (length vs) (length ps)) as [H1|H1]; [|discriminate].
    split; [|exact H1]. intros ->. apply H0. reflexivity. }
  destruct Hshape as [Hne Hlen]. repeat split; try assumption.
  rewrite vertical_interpolate_eq in H by assumption. congruence.
Qed.

Lemma vertical_interpolate_length (ps vs ls out : list R) :
  vertical_interpolate ps vs ls = OK out -> length out = length ls.
Proof.
  intros H. apply vertical_interpolate_inv in H.
  destruct H as [_ [_ ->]]. apply length_map.
Qed.

(** ** Helper lemmas: the station loop *)

Lemma fill_station_entry (data : dict DataFrame) (levels : list R) (key : string)
    (tmp : ndarray2) (c : coords) (station : string) (loc : nat) :
  fill_station data levels key (tmp, c) (station, loc)
  = '(row, c') <- station_entry data levels key c station ;;
    tmp' <- setitem_row tmp loc row ;;
    OK (tmp', c').
Proof.
  unfold fill_station, station_entry, station_coords, station_column.
  destruct (String.eqb key "pressure").
  - destruct (getitem data station) as [df|e]; simpl; [|reflexivity].
    destruct (getattr df "latitude") as [c1|e]; simpl; [|reflexivity].
    destruct (series_first c1) as [lat|e]; simpl; [|reflexivity].
    destruct (getattr df "longitude") as [c2|e]; simpl; [|reflexivity].
    destruct (series_first c2) as [lon|e]; simpl; [|reflexivity].
    destruct (getattr df "elevation") as [c3|e]; simpl; [|reflexivity].
    destruct (series_first c3) as [el|e]; simpl; reflexivity.
  - destruct (getitem data station) as [df|e]; simpl; [|reflexivity].
    destruct (getitem df "pressure") as [p|e]; simpl; [|reflexivity].
    destruct (getitem df key) as [v|e]; simpl; [|reflexivity].
    destruct (vertical_interpolate p v levels) as [col|e]; simpl; reflexivity.
Qed.

Lemma station_entry_length (data : dict DataFrame) (levels : list R)
    (key : string) (c c' : coords) (station : string) (row : list R) :
  station_entry data levels key c station = OK (row, c') ->
  length row = length levels.
Proof.
  unfold station_entry, station_column. intros H.
  destruct (String.eqb key "pressure").
  - bind_inv H. congruence.
  - bind_inv H. injection H as <- _.
    bind_inv E. bind_inv E. bind_inv E. bind_inv E.
    eapply vertical_interpolate_length; eassumption.
Qed.

Lemma setitem_row_at (done todo : ndarray2) (old row : list R) :
  length row = length old ->
  setitem_row (done ++ old :: todo) (length done) row = OK (done ++ row :: todo).
Proof.
  intros Hlen.
  assert (Hf : firstn (length done) (done ++ old :: todo) = done).
  { rewrite firstn_app, Nat.sub_diag, firstn_all. simpl. apply app_nil_r. }
  assert (Hs : skipn (S (length done)) (done ++ old :: todo) = todo).
  { replace (done ++ old :: todo) with ((done ++ [old]) ++ todo)
      by (rewrite <- app_assoc; reflexivity).
    replace (S (length done)) with (length (done ++ [old]))
      by (rewrite length_app; simpl; lia).
    rewrite skipn_app, Nat.sub_diag, skipn_all. reflexivity. }
  unfold setitem_row.
  rewrite nth_error_app2, Nat.sub_diag by lia. cbn [nth_error].
  unfold broadcast_row. rewrite Hlen, Nat.eqb_refl. cbn [bind].
  rewrite Hf, Hs. reflexivity.
Qed.

Lemma for_each_cons {A S : Type} (body : S -> A -> result S) (x : A)
    (xs : list A) (s : S) :
  for_each body (x :: xs) s = s' <- body s x ;; for_each body xs s'.
Proof. reflexivity. Qed.

Lemma station_loop (data : dict DataFrame) (levels : list R) (key : string)
    (stns : list string) :
  forall (done todo : ndarray2) (c : coords),
    (length stns <= length todo)%nat ->
    Forall (fun r => length r = length levels) todo ->
    for_each (fill_station data levels key)
      (combine stns (seq (length done) (length stns))) (done ++ todo, c)
    = '(rows, c') <- station_rows data levels key stns c ;;
      OK (done ++ rows ++ skipn (length stns) todo, c').
Proof.
  induction stns as [|station rest IH]; intros done todo c Hlen Hrows.
  - reflexivity.
  - destruct todo as [|old todo]; [simpl in Hlen; lia|].
    cbn [length seq combine station_rows skipn].
    rewrite for_each_cons, fill_station_entry.
    destruct (station_entry data levels key c station) as [[row c1]|e] eqn:E;
      cbn [bind]; [|reflexivity].
    apply station_entry_length in E.
    inversion Hrows as [|? ? Hold Htodo]; subst.
    rewrite setitem_row_at by congruence. cbn [bind].
    replace (done ++ row :: todo) with ((done ++ [row]) ++ todo)
      by (rewrite <- app_assoc; reflexivity).
    replace (S (length done)) with (length (done ++ [row]))
      by (rewrite length_app; simpl; lia).
    rewrite IH by (simpl in Hlen; try lia; assumption).
    destruct (station_rows data levels key rest c1) as [[rows c2]|e]; cbn [bind];
      [|reflexivity].
    rewrite <- !app_assoc. reflexivity.
Qed.

Lemma np_empty_length (u : nat -> nat -> R) (n m : nat) :
  length (np_empty u n m) = n.
Proof. unfold np_empty. now rewrite length_map, length_seq. Qed.

Lemma np_empty_rows (u : nat -> nat -> R) (n m : nat) :
  Forall (fun r => length r = m) (np_empty u n m).
Proof.
  unfold np_empty. apply Forall_forall. intros r Hr.
  apply in_map_iff in Hr. destruct Hr as [i [<- _]].
  now rewrite length_map, length_seq.
Qed.

(** A pass over the stations overwrites every row of the fresh array: what
    [np.empty] handed out is gone. *)
Lemma fill_key_rows (u : nat -> string -> nat -> nat -> R) (stns : list string)
    (data : dict DataFrame) (levels : list R) (tmp_grid : dict ndarray2)
    (c : coords) (key : string) :
  fill_key u stns data levels (tmp_grid, c) key
  = '(rows, c') <- station_rows data levels key stns c ;;
    OK (tmp_grid ++ [(key, rows)], c').
Proof.
  unfold fill_key.
  pose proof (station_loop data levels key stns []
                (np_empty (u 0%nat key) (length stns) (length levels)) c) as H.
  cbn [app length] in H. rewrite H.
  - destruct (station_rows data levels key stns c) as [[rows c']|e]; simpl;
      [|reflexivity].
    rewrite skipn_all2 by (rewrite np_empty_length; lia).
    rewrite app_nil_r. reflexivity.
  - rewrite np_empty_length. lia.
  - apply np_empty_rows.
Qed.

Lemma for_each_ext {A S : Type} (f g : S -> A -> result S) (xs : list A) :
  (forall s x, f s x = g s x) -> forall s, for_each f xs s = for_each g xs s.
Proof.
  intros Hfg. induction xs as [|x xs IH]; intros s; [reflexivity|].
  simpl. rewrite Hfg. destruct (g s x); simpl; [apply IH | reflexivity].
Qed.

(** Step 1 does not depend on what [np.empty] handed out. *)
Lemma interpolate_stations_uninit (u u' : nat -> string -> nat -> nat -> R)
    (stns : list string) (data : dict DataFrame) (keys : list string)
    (levels : list R) :
  interpolate_stations u stns data keys levels
  = interpolate_stations u' stns data keys levels.
Proof.
  unfold interpolate_stations. apply for_each_ext.
  intros [tg c] key. now rewrite !fill_key_rows.
Qed.

Lemma station_rows_other (data : dict DataFrame) (levels : list R) (key : string)
    (stns : list string) :
  String.eqb key "pressure" = false ->
  forall c rows c',
    station_rows data levels key stns c = OK (rows, c') ->
    c' = c /\
    Forall2 (fun s row => station_column data levels key s = OK row) stns rows.
Proof.
  intros Hk. induction stns as [|s rest IH]; intros c rows c' H.
  - injection H as <- <-. split; [reflexivity | constructor].
  - cbn [station_rows] in H. unfold station_entry in H. rewrite Hk in H.
    bind_inv H. destruct a as [row c1]. bind_inv H. destruct a as [rows' c2].
    injection H as <- <-.
    bind_inv E. injection E as <- <-.
    apply IH in E0. destruct E0 as [-> HF].
    split; [reflexivity | constructor; assumption].
Qed.

Lemma station_rows_pressure (data : dict DataFrame) (levels : list R)
    (stns : list string) :
  forall c rows c',
    station_rows data levels "pressure" stns c = OK (rows, c') ->
    rows = map (fun _ => levels) stns /\
    exists qs, map_result (station_coords data) stns = OK qs /\
               c' = fold_left push_coords qs c.
Proof.
  induction stns as [|s rest IH]; intros c rows c' H.
  - injection H as <- <-. split; [reflexivity|]. exists []. split; reflexivity.
  - cbn [station_rows] in H. unfold station_entry in H.
    change (String.eqb "pressure" "pressure") with true in H. cbn iota in H.
    bind_inv H. destruct a as [row c1]. bind_inv H. destruct a as [rows' c2].
    injection H as <- <-.
    bind_inv E. injection E as <- <-.
    apply IH in E0. destruct E0 as [-> [qs [Hqs ->]]].
    split; [reflexivity|].
    exists (a :: qs). split; [|reflexivity].
    cbn [map_result]. rewrite E1. cbn [bind]. rewrite Hqs. reflexivity.
Qed.

Lemma key_loop_entries (u : nat -> string -> nat -> nat -> R)
    (stns : list string) (data : dict DataFrame) (levels : list R)
    (keys : list string) :
  forall tg0 c0 tg c,
    for_each (fill_key u stns data levels) keys (tg0, c0) = OK (tg, c) ->
    map fst tg = map fst tg0 ++ keys /\
    forall key M, In (key, M) tg ->
      In (key, M) tg0 \/
      exists c1 c2, station_rows data levels key stns c1 = OK (M, c2).
Proof.
  induction keys as [|k keys IH]; intros tg0 c0 tg c H.
  - injection H as <- <-. rewrite app_nil_r. split; [reflexivity | tauto].
  - rewrite for_each_cons, fill_key_rows in H.
    bind_inv H. destruct a as [tg1 c1].
    bind_inv E. destruct a as [rows c1']. injection E as <- <-.
    apply IH in H. destruct H as [Hkeys Hin]. split.
    + rewrite Hkeys, map_app, <- app_assoc. reflexivity.
    + intros key M HM. destruct (Hin key M HM) as [H0|H1]; [|right; exact H1].
      apply in_app_or in H0. destruct H0 as [H0|[H0|[]]]; [left; exact H0|].
      injection H0 as <- <-. right. eauto.
Qed.

(** What step 1 leaves in [tmp_grid]: under 'pressure', the standard grid in
    every station's row; under any other key, the station's interpolated
    column. *)
Lemma interpolate_stations_entries (u : nat -> string -> nat -> nat -> R)
    (stns : list string) (data : dict DataFrame) (keys : list string)
    (levels : list R) (tmp_grid : dict ndarray2) (c : coords) :
  interpolate_stations u stns data keys levels = OK (tmp_grid, c) ->
  forall key M, In (key, M) tmp_grid ->
    (key = "pressure"%string -> M = map (fun _ => levels) stns) /\
    (key <> "pressure"%string ->
     Forall2 (fun s row => station_column data levels key s = OK row) stns M).
Proof.
  intros H key M HM. unfold interpolate_stations in H.
  apply key_loop_entries in H. destruct H as [_ Hin].
  destruct (Hin key M HM) as [[]|[c1 [c2 Hrows]]]. split.
  - intros ->. apply station_rows_pressure in Hrows. tauto.
  - intros Hne. apply station_rows_other in Hrows; [tauto|].
    apply String.eqb_neq. exact Hne.
Qed.

(** ** Helper lemmas: when step 1 returns *)

Lemma station_rows_total (data : dict DataFrame) (levels : list R) (key : string)
    (stns : list string) :
  (forall s, In s stns -> forall c, exists r, station_entry data levels key c s = OK r) ->
  forall c, exists r, station_rows data levels key stns c = OK r.
Proof.
  induction stns as [|s rest IH]; intros Hall c.
  - eexists. reflexivity.
  - destruct (Hall s (or_introl eq_refl) c) as [[row c1] Hs].
    destruct (IH (fun s' Hs' => Hall s' (or_intror Hs')) c1) as [[rows c2] Hr].
    exists (row :: rows, c2). cbn [station_rows]. rewrite Hs. cbn [bind].
    rewrite Hr. reflexivity.
Qed.

Lemma key_loop_total (u : nat -> string -> nat -> nat -> R)
    (stns : list string) (data : dict DataFrame) (levels : list R)
    (keys : list string) :
  (forall key, In key keys ->
     forall c, exists r, station_rows data levels key stns c = OK r) ->
  forall st, exists r, for_each (fill_key u stns data levels) keys st = OK r.
Proof.
  induction keys as [|k keys IH]; intros Hall [tg c].
  - eexists. reflexivity.
  - rewrite for_each_cons, fill_key_rows.
    destruct (Hall k (or_introl eq_refl) c) as [[rows c1] Hr]. rewrite Hr.
    cbn [bind]. apply IH. intros key Hkey. apply Hall. right. exact Hkey.
Qed.

(** ** Helper lemmas: the keys and the gathered coordinates *)

Lemma existsb_eqb_In (k : string) (l : list string) :
  existsb (String.eqb k) l = true <-> In k l.
Proof.
  rewrite existsb_exists. split.
  - intros [x [Hx He]]. apply String.eqb_eq in He. now subst.
  - intros H. exists k. split; [exact H | apply String.eqb_refl].
Qed.

Lemma dict_fromkeys_NoDup (keys : list string) : NoDup (dict_fromkeys keys).
Proof.
  unfold dict_fromkeys.
  assert (H : forall acc, NoDup acc ->
            NoDup (fold_left
                     (fun acc k => if existsb (String.eqb k) acc then acc
                                   else acc ++ [k]) keys acc)).
  { induction keys as [|k keys IH]; intros acc Hacc; [exact Hacc|].
    simpl. apply IH. destruct (existsb (String.eqb k) acc) eqn:E; [exact Hacc|].
    apply NoDup_app; [exact Hacc | repeat constructor; intros [] |].
    intros x Hx [<-|[]]. apply existsb_eqb_In in Hx. congruence. }
  apply H. constructor.
Qed.

Lemma fold_push_coords (qs : list (R * R * R)) :
  forall c,
    lats (fold_left push_coords qs c) = lats c ++ map (fun q => fst (fst q)) qs /\
    lons (fold_left push_coords qs c) = lons c ++ map (fun q => snd (fst q)) qs /\
    elev (fold_left push_coords qs c) = elev c ++ map snd qs.
Proof.
  induction qs as [|[[lat lon] el] qs IH]; intros c.
  - simpl. now rewrite !app_nil_r.
  - cbn [fold_left]. destruct (IH (push_coords c (lat, lon, el))) as [H1 [H2 H3]].
    rewrite H1, H2, H3. simpl. rewrite <- !app_assoc. auto.
Qed.

Lemma key_loop_coords (u : nat -> string -> nat -> nat -> R)
    (stns : list string) (data : dict DataFrame) (levels : list R)
    (keys : list string) :
  NoDup keys ->
  forall tg0 c0 tg c,
    for_each (fill_key u stns data levels) keys (tg0, c0) = OK (tg, c) ->
    (In "pressure"%string keys ->
     exists qs, map_result (station_coords data) stns = OK qs /\
                c = fold_left push_coords qs c0) /\
    (~ In "pressure"%string keys -> c = c0).
Proof.
  intros Hnd. induction Hnd as [|k keys Hk Hnd IH]; intros tg0 c0 tg c H.
  - injection H as <- <-. split; [intros [] | reflexivity].
  - rewrite for_each_cons, fill_key_rows in H.
    bind_inv H. destruct a as [tg1 c1].
    bind_inv E. destruct a as [rows c1']. injection E as <- <-.
    apply IH in H. destruct H as [Hin Hout].
    destruct (String.eqb k "pressure") eqn:Ek.
    + apply String.eqb_eq in Ek. subst k.
      apply station_rows_pressure in E0. destruct E0 as [_ [qs [Hqs ->]]].
      split; [|intros Hn; exfalso; apply Hn; left; reflexivity].
      intros _. exists qs. split; [exact Hqs | apply Hout, Hk].
    + pose proof Ek as Ek'. apply String.eqb_neq in Ek'.
      apply (station_rows_other _ _ _ _ Ek) in E0. destruct E0 as [-> _].
      split.
      * intros [Heq|Hp]; [congruence | apply Hin, Hp].
      * intros Hn. apply Hout. intros Hp. apply Hn. right. exact Hp.
Qed.

Lemma map_result_Forall2 {A B : Type} (f : A -> result B) (xs : list A) :
  forall ys, map_result f xs = OK ys -> Forall2 (fun x y => f x = OK y) xs ys.
Proof.
  induction xs as [|x xs IH]; intros ys H.
  - injection H as <-. constructor.
  - cbn [map_result] in H. bind_inv H. bind_inv H. injection H as <-.
    constructor; [assumption | apply IH; assumption].
Qed.

Lemma map_result_length {A B : Type} (f : A -> result B) (xs : list A) (ys : list B) :
  map_result f xs = OK ys -> length ys = length xs.
Proof.
  intros H. apply map_result_Forall2 in H. symmetry.
  eapply Forall2_length; eassumption.
Qed.

(** ** Helper lemmas: distances *)

Lemma geod_inv_dist_from (lon0 lat0 : R) (qs : list (R * R * R)) :
  geod_inv_dist (repeat lon0 (length qs)) (repeat lat0 (length qs))
    (map (fun q => snd (fst q)) qs) (map (fun q => fst (fst q)) qs)
  = OK (distances_from lon0 lat0 qs).
Proof.
  unfold geod_inv_dist.
  rewrite !repeat_length, !length_map, Nat.eqb_refl. cbn [andb]. f_equal.
  unfold distances_from.
  induction qs as [|q qs IH]; [reflexivity|].
  cbn [length repeat map zip4]. now rewrite IH.
Qed.

Lemma distances_from_nonneg (lon0 lat0 : R) (qs : list (R * R * R)) :
  Forall (fun d => 0 <= d) (distances_from lon0 lat0 qs).
Proof.
  unfold distances_from. apply Forall_forall. intros d Hd.
  apply in_map_iff in Hd. destruct Hd as [q [<- _]].
  apply great_circle_distance_nonneg.
Qed.

(** ** Helper lemmas: whole-array assignment and the gridding loop *)

Lemma broadcast_row_length (n : nat) (v row : list R) :
  broadcast_row n v = OK row -> length row = n.
Proof.
  unfold broadcast_row. destruct (Nat.eqb_spec (length v) n) as [He|_].
  - intros H. injection H as <-. exact He.
  - destruct v as [|c [|? ?]]; try discriminate.
    intros H. injection H as <-. apply repeat_length.
Qed.

Lemma map_result_lengths (a : ndarray2) (f : list R -> result (list R)) :
  (forall old row, f old = OK row -> length row = length old) ->
  forall g, map_result f a = OK g -> map (@length R) g = map (@length R) a.
Proof.
  intros Hf. induction a as [|old a IH]; intros g H.
  - injection H as <-. reflexivity.
  - cbn [map_result] in H. bind_inv H. bind_inv H. injection H as <-.
    cbn [map]. f_equal; [eapply Hf; eassumption | apply IH; assumption].
Qed.

(** After [a[:] = src] the array has the shape of [a]. *)
Lemma setitem_all_lengths (a src g : ndarray2) :
  setitem_all a src = OK g -> map (@length R) g = map (@length R) a.
Proof.
  unfold setitem_all.
  destruct (Nat.eqb_spec (length src) (length a)) as [Hl|_].
  - revert src g Hl. induction a as [|old a IH]; intros src g Hl H.
    + injection H as <-. reflexivity.
    + destruct src as [|new src]; [discriminate|].
      cbn [combine map_result fst snd] in H. bind_inv H. bind_inv H.
      injection H as <-. cbn [map]. f_equal.
      * eapply broadcast_row_length; eassumption.
      * eapply IH; [|eassumption]. simpl in Hl. lia.
  - destruct src as [|row [|? ?]]; try discriminate.
    apply map_result_lengths. intros old r. apply broadcast_row_length.
Qed.

Lemma has_shape_lengths (n m : nat) (a : ndarray2) :
  has_shape n m a <-> map (@length R) a = repeat m n.
Proof.
  unfold has_shape. split.
  - intros [<- Hrows]. induction Hrows as [|row a Hrow _ IH]; [reflexivity|].
    simpl. now rewrite Hrow, IH.
  - revert n. induction a as [|row a IH]; intros n H.
    + destruct n; [split; [reflexivity | constructor] | discriminate].
    + destruct n as [|n]; [discriminate|]. injection H as Hrow Ha.
      destruct (IH n Ha) as [Hl Hf]. split; [simpl; now rewrite Hl|].
      constructor; assumption.
Qed.

Lemma np_empty_shape (u : nat -> nat -> R) (n m : nat) :
  has_shape n m (np_empty u n m).
Proof. split; [apply np_empty_length | apply np_empty_rows]. Qed.

(** [a[:] = src] with [src] of the shape of [a] stores [src]. *)
Lemma setitem_all_same_shape (a src : ndarray2) :
  map (@length R) src = map (@length R) a -> setitem_all a src = OK src.
Proof.
  intros H. unfold setitem_all.
  assert (Hl : length src = length a).
  { apply (f_equal (@length nat)) in H. now rewrite !length_map in H. }
  rewrite Hl, Nat.eqb_refl. clear Hl.
  revert src H. induction a as [|old a IH]; intros src H.
  - destruct src; [reflexivity | discriminate].
  - destruct src as [|new src]; [discriminate|]. injection H as Hn Hs.
    cbn [combine map_result fst snd]. unfold broadcast_row at 1.
    rewrite Hn, Nat.eqb_refl. cbn [bind]. rewrite (IH src Hs). reflexivity.
Qed.

(** [a[:] = src] reads the shape of [a] and nothing else of it. *)
Lemma setitem_all_shape_only (a a' src : ndarray2) :
  map (@length R) a = map (@length R) a' -> setitem_all a src = setitem_all a' src.
Proof.
  intros H. unfold setitem_all.
  assert (Hl : length a = length a').
  { apply (f_equal (@length nat)) in H. now rewrite !length_map in H. }
  rewrite Hl. destruct (Nat.eqb (length src) (length a')).
  - clear Hl. revert a' src H. induction a as [|old a IH]; intros a' src H.
    + destruct a'; [reflexivity | discriminate].
    + destruct a' as [|old' a']; [discriminate|]. injection H as Ho Ha.
      destruct src as [|new src]; [reflexivity|].
      cbn [combine map_result fst snd]. rewrite Ho, (IH a' src Ha). reflexivity.
  - destruct src as [|row [|? ?]]; try reflexivity.
    clear Hl. revert a' H. induction a as [|old a IH]; intros a' H.
    + destruct a'; [reflexivity | discriminate].
    + destruct a' as [|old' a']; [discriminate|]. injection H as Ho Ha.
      cbn [map_result]. rewrite Ho, (IH a' Ha). reflexivity.
Qed.

Lemma np_empty_lengths (u : nat -> nat -> R) (n m : nat) :
  map (@length R) (np_empty u n m) = repeat m n.
Proof. apply has_shape_lengths, np_empty_shape. Qed.

Section GridLoop.

Variable griddata :
  list R -> list R -> list R -> ndarray2 -> ndarray2 -> result ndarray2.
Variables (tmp_grid : dict ndarray2) (nx plevs : nat).
Variables (ddist pdist xx pp : ndarray2).

Lemma grid_loop_shapes (u : nat -> string -> nat -> nat -> R) (keys : list string) :
  forall g0 grid,
    for_each (grid_key griddata u tmp_grid nx plevs ddist pdist xx pp) keys g0
    = OK grid ->
    forall key g, In (key, g) grid -> In (key, g) g0 \/ has_shape nx plevs g.
Proof.
  induction keys as [|k keys IH]; intros g0 grid H key g Hin.
  - injection H as <-. left. exact Hin.
  - rewrite for_each_cons in H. bind_inv H.
    destruct (IH _ _ H key g Hin) as [H0|H1]; [|right; exact H1].
    unfold grid_key in E. bind_inv E. bind_inv E. bind_inv E.
    injection E as <-.
    apply in_app_or in H0. destruct H0 as [H0|[H0|[]]]; [left; exact H0|].
    injection H0 as <- <-. right.
    apply has_shape_lengths. apply setitem_all_lengths in E2.
    rewrite E2. apply np_empty_lengths.
Qed.

Lemma grid_loop_uninit (u u' : nat -> string -> nat -> nat -> R)
    (keys : list string) (g0 : dict ndarray2) :
  for_each (grid_key griddata u tmp_grid nx plevs ddist pdist xx pp) keys g0
  = for_each (grid_key griddata u' tmp_grid nx plevs ddist pdist xx pp) keys g0.
Proof.
  apply for_each_ext. intros grid key. unfold grid_key.
  destruct (getitem tmp_grid key) as [tmp|e]; cbn [bind]; [|reflexivity].
  destruct (griddata _ _ _ xx pp) as [src|e]; cbn [bind]; [|reflexivity].
  rewrite (setitem_all_shape_only _ (np_empty (u' 1%nat key) nx plevs)).
  - reflexivity.
  - now rewrite !np_empty_lengths.
Qed.

Lemma grid_loop_total (u : nat -> string -> nat -> nat -> R) (keys : list string) :
  (forall key, In key keys -> exists t, getitem tmp_grid key = OK t) ->
  (forall px py v, exists g,
      griddata px py v xx pp = OK g /\ map (@length R) g = map (@length R) xx) ->
  has_shape nx plevs xx ->
  forall g0, exists grid,
    for_each (grid_key griddata u tmp_grid nx plevs ddist pdist xx pp) keys g0
    = OK grid.
Proof.
  intros Hkeys Hgd Hxx. induction keys as [|k keys IH]; intros g0.
  - eexists. reflexivity.
  - rewrite for_each_cons. unfold grid_key at 1.
    destruct (Hkeys k (or_introl eq_refl)) as [t Ht]. rewrite Ht. cbn [bind].
    destruct (Hgd (flatten ddist) (flatten pdist) (flatten t)) as [g [Hg Hs]].
    rewrite Hg. cbn [bind].
    rewrite setitem_all_same_shape.
    + cbn [bind]. apply IH. intros key Hk. apply Hkeys. right. exact Hk.
    + rewrite Hs, np_empty_lengths. apply has_shape_lengths. exact Hxx.
Qed.

End GridLoop.

Lemma np_linspace_length (a b : R) (num : nat) : length (np_linspace a b num) = num.
Proof. unfold np_linspace. now rewrite length_map, length_seq. Qed.

Lemma np_meshgrid_shapes (a b : list R) :
  has_shape (length b) (length a) (fst (np_meshgrid a b)) /\
  has_shape (length b) (length a) (snd (np_meshgrid a b)).
Proof.
  unfold np_meshgrid, has_shape. cbn [fst snd]. rewrite !length_map.
  repeat split; apply Forall_forall; intros r Hr;
    apply in_map_iff in Hr; destruct Hr as [x [<- _]];
    [reflexivity | apply length_map].
Qed.

(** ** What a returned cross-section contains *)

Section BuilderFacts.

Variable griddata :
  list R -> list R -> list R -> ndarray2 -> ndarray2 -> result ndarray2.
Variable height_to_pressure_std : list R -> list R.
Variable uninit : nat -> string -> nat -> nat -> R.

Lemma gathered_coords (stns : list string) (data : dict DataFrame)
    (keys : list string) (levels : list R) (tmp_grid : dict ndarray2)
    (c : coords) (lon0 : R) :
  NoDup keys ->
  interpolate_stations uninit stns data keys levels = OK (tmp_grid, c) ->
  getitem_first (lons c) = OK lon0 ->
  exists qs,
    map_result (station_coords data) stns = OK qs /\
    lats c = map (fun q => fst (fst q)) qs /\
    lons c = map (fun q => snd (fst q)) qs /\
    elev c = map snd qs.
Proof.
  intros Hnd H Hlon. unfold interpolate_stations in H.
  apply (key_loop_coords _ _ _ _ _ Hnd) in H. destruct H as [Hin Hout].
  destruct (in_dec string_dec "pressure"%string keys) as [Hp|Hp].
  - destruct (Hin Hp) as [qs [Hqs ->]]. exists qs. split; [exact Hqs|].
    apply (fold_push_coords qs).
  - rewrite (Hout Hp) in Hlon. discriminate.
Qed.

Lemma radisonde_cross_section_inv (stns : list string) (data : dict DataFrame)
    (start end_ step : Z) (cs : cross_section) :
  radisonde_cross_section griddata height_to_pressure_std uninit
    stns data start end_ step = OK cs ->
  exists levels qs lat0 lon0 el0 rest,
    np_arange start (end_ - 1) (- step) = OK levels /\
    map_result (station_coords data) stns = OK qs /\
    qs = (lat0, lon0, el0) :: rest /\
    obs_distance cs = distances_from lon0 lat0 qs /\
    elevation cs = height_to_pressure_std (map snd qs) /\
    (forall key g, In (key, g) (grid_data cs) ->
                   has_shape 100 (length levels) g) /\
    has_shape 100 (length levels) (x_grid cs) /\
    has_shape 100 (length levels) (p_grid cs).
Proof.
  intros H. unfold radisonde_cross_section in H.
  bind_inv H. rename a into levels, E into Hlevels.
  bind_inv H. rename a into s0, E into Hs0.
  bind_inv H. rename a into df0, E into Hdf0.
  bind_inv H. destruct a as [tmp_grid c]. rename E into Hstep1.
  bind_inv H. rename a into lon0, E into Hlon0.
  bind_inv H. rename a into lat0, E into Hlat0.
  bind_inv H. rename a into dist, E into Hdist.
  bind_inv H. rename a into d_first, E into Hfirst.
  bind_inv H. rename a into d_last, E into Hlast.
  unfold np_meshgrid in H. cbv beta iota zeta in H.
  bind_inv H. rename a into grid, E into Hgrid.
  injection H as <-. cbn [grid_data obs_distance x_grid p_grid elevation].
  destruct (gathered_coords _ _ _ _ _ _ _ (dict_fromkeys_NoDup _) Hstep1 Hlon0)
    as [qs [Hqs [Hlats [Hlons Helev]]]].
  rewrite Hlons in Hlon0. rewrite Hlats in Hlat0.
  destruct qs as [|[[lat lon] el] rest]; [discriminate|].
  cbn [map getitem_first fst snd] in Hlon0, Hlat0.
  injection Hlon0 as <-. injection Hlat0 as <-.
  exists levels, ((lat, lon, el) :: rest), lat, lon, el, rest.
  split; [exact Hlevels|]. split; [exact Hqs|]. split; [reflexivity|].
  split.
  { rewrite Hlons, Hlats in Hdist.
    rewrite <- (map_result_length _ _ _ Hqs) in Hdist.
    rewrite geod_inv_dist_from in Hdist. congruence. }
  split; [now rewrite Helev|].
  rewrite length_map in *. rewrite np_linspace_length in Hgrid.
  split.
  { intros key g Hin.
    destruct (grid_loop_shapes _ _ _ _ _ _ _ _ _ _ _ _ Hgrid key g Hin)
      as [[]|Hg].
    exact Hg. }
  pose proof (np_meshgrid_shapes (map IZR levels)
                (np_linspace d_first d_last 100)) as [Hpp Hxx].
  unfold np_meshgrid in Hpp, Hxx. cbn [fst snd] in Hpp, Hxx.
  rewrite np_linspace_length, length_map in Hpp, Hxx.
  split; assumption.
Qed.

End BuilderFacts.

(** ** When the builder returns *)

Lemma column_ok_first (df : DataFrame) (name : string) :
  column_ok df name = true ->
  exists col x, getattr df name = OK col /\ series_first col = OK x.
Proof.
  unfold column_ok, getattr. destruct (getitem df name) as [[|x col]|e];
    try discriminate.
  intros _. exists (x :: col), x. split; reflexivity.
Qed.

Lemma station_coords_ok (data : dict DataFrame) (keys : list string)
    (s : string) (df : DataFrame) :
  getitem data s = OK df -> frame_ok keys df = true ->
  exists q, station_coords data s = OK q.
Proof.
  intros Hdf Hok. unfold frame_ok in Hok.
  apply andb_prop in Hok. destruct Hok as [Hok _].
  apply andb_prop in Hok. destruct Hok as [Hok Hel].
  apply andb_prop in Hok. destruct Hok as [Hlat Hlon].
  apply column_ok_first in Hlat, Hlon, Hel.
  destruct Hlat as [c1 [lat [Hc1 Hlat]]].
  destruct Hlon as [c2 [lon [Hc2 Hlon]]].
  destruct Hel as [c3 [el [Hc3 Hel]]].
  exists (lat, lon, el). unfold station_coords.
  rewrite Hdf. cbn [bind]. rewrite Hc1. cbn [bind]. rewrite Hlat. cbn [bind].
  rewrite Hc2. cbn [bind]. rewrite Hlon. cbn [bind].
  rewrite Hc3. cbn [bind]. rewrite Hel. reflexivity.
Qed.

Lemma station_column_ok (data : dict DataFrame) (keys : list string)
    (levels : list R) (key s : string) (df : DataFrame) :
  getitem data s = OK df -> frame_ok keys df = true -> In key keys ->
  exists col, station_column data levels key s = OK col.
Proof.
  intros Hdf Hok Hkey. unfold frame_ok in Hok.
  apply andb_prop in Hok. destruct Hok as [_ Hok].
  destruct (getitem df "pressure") as [p|e] eqn:Hp; [|discriminate].
  apply andb_prop in Hok. destruct Hok as [Hne Hcols].
  rewrite forallb_forall in Hcols. specialize (Hcols key Hkey).
  destruct (getitem df key) as [v|e] eqn:Hv; [|discriminate].
  apply Nat.eqb_eq in Hcols. apply negb_true_iff, Nat.eqb_neq in Hne.
  exists (map (level_value p v) levels). unfold station_column.
  rewrite Hdf. cbn [bind]. rewrite Hp. cbn [bind]. rewrite Hv. cbn [bind].
  apply vertical_interpolate_eq; [|exact Hcols].
  intros ->. apply Hne. reflexivity.
Qed.

Lemma station_entry_ok (data : dict DataFrame) (keys : list string)
    (levels : list R) (key s : string) (df : DataFrame) :
  getitem data s = OK df -> frame_ok keys df = true -> In key keys ->
  forall c, exists r, station_entry data levels key c s = OK r.
Proof.
  intros Hdf Hok Hkey c. unfold station_entry.
  destruct (String.eqb key "pressure").
  - destruct (station_coords_ok data keys s df Hdf Hok) as [q Hq].
    rewrite Hq. eexists. reflexivity.
  - destruct (station_column_ok data keys levels key s df Hdf Hok Hkey)
      as [col Hcol].
    rewrite Hcol. eexists. reflexivity.
Qed.

Lemma getitem_of_key {V : Type} (d : dict V) (k : string) :
  In k (map fst d) -> exists v, getitem d k = OK v.
Proof.
  induction d as [|[k' v'] d IH]; intros H; [destruct H|].
  cbn [getitem]. destruct (String.eqb k' k) eqn:E; [eauto|].
  apply IH. destruct H as [H|H]; [|exact H].
  simpl in H. subst. rewrite String.eqb_refl in E. discriminate.
Qed.

Lemma inputs_ok_inv (stns : list string) (data : dict DataFrame) :
  inputs_ok stns data = true ->
  exists s0 rest df0,
    stns = s0 :: rest /\ getitem data s0 = OK df0 /\
    In "pressure"%string (dict_fromkeys (keys_upto8 df0)) /\
    forall s, In s stns ->
      exists df, getitem data s = OK df /\
                 frame_ok (dict_fromkeys (keys_upto8 df0)) df = true.
Proof.
  unfold inputs_ok. destruct stns as [|s0 rest]; [discriminate|].
  destruct (getitem data s0) as [df0|e] eqn:Hdf0; [|discriminate].
  intros H. apply andb_prop in H. destruct H as [Hp Hall].
  exists s0, rest, df0.
  split; [reflexivity|]. split; [exact Hdf0|]. split.
  - apply existsb_eqb_In. exact Hp.
  - intros s Hs. rewrite forallb_forall in Hall. specialize (Hall s Hs).
    destruct (getitem data s) as [df|e]; [eauto | discriminate].
Qed.

Section BuilderReturns.

Variable griddata :
  list R -> list R -> list R -> ndarray2 -> ndarray2 -> result ndarray2.
Variable height_to_pressure_std : list R -> list R.
Variable uninit : nat -> string -> nat -> nat -> R.

(** [griddata] returns an array of the shape of the points asked for. *)
Hypothesis griddata_returns :
  forall px py v xx pp, exists g,
    griddata px py v xx pp = OK g /\ map (@length R) g = map (@length R) xx.

Lemma interpolate_stations_returns (stns : list string) (data : dict DataFrame)
    (keys : list string) (levels : list R) :
  (forall s, In s stns ->
     exists df, getitem data s = OK df /\ frame_ok keys df = true) ->
  exists r, interpolate_stations uninit stns data keys levels = OK r.
Proof.
  intros Hall. unfold interpolate_stations. apply key_loop_total.
  intros key Hkey. apply station_rows_total. intros s Hs.
  destruct (Hall s Hs) as [df [Hdf Hok]].
  eapply station_entry_ok; eassumption.
Qed.

Lemma radisonde_cross_section_returns (stns : list string)
    (data : dict DataFrame) (start end_ step : Z) :
  inputs_ok stns data = true -> step <> 0%Z ->
  exists cs,
    radisonde_cross_section griddata height_to_pressure_std uninit
      stns data start end_ step = OK cs.
Proof.
  intros Hok Hstep.
  destruct (inputs_ok_inv _ _ Hok) as [s0 [rest [df0 [-> [Hdf0 [Hp Hall]]]]]].
  unfold radisonde_cross_section, np_arange.
  destruct (Z.eqb_spec (- step) 0) as [H0|_]; [lia|]. cbn [bind].
  cbn [getitem_first bind]. rewrite Hdf0. cbn [bind].
  set (levels := map IZR _).
  set (keys := dict_fromkeys (keys_upto8 df0)) in *.
  destruct (interpolate_stations_returns (s0 :: rest) data keys levels Hall)
    as [[tmp_grid c] Hstep1].
  rewrite Hstep1. cbn [bind].
  pose proof Hstep1 as Hc. unfold interpolate_stations in Hc.
  apply (key_loop_coords _ _ _ _ _ (dict_fromkeys_NoDup _)) in Hc.
  destruct Hc as [Hc _]. destruct (Hc Hp) as [qs [Hqs ->]]. clear Hc.
  destruct (fold_push_coords qs {| lats := []; lons := []; elev := [] |})
    as [Hlats [Hlons Helev]].
  cbn [lats lons elev app] in Hlats, Hlons, Helev.
  rewrite Hlats, Hlons, Helev.
  pose proof (map_result_length _ _ _ Hqs) as Hlen.
  destruct qs as [|[[lat lon] el] qs]; [discriminate|].
  cbn [map getitem_first fst snd bind].
  rewrite <- Hlen.
  pose proof (geod_inv_dist_from lon lat ((lat, lon, el) :: qs)) as Hd.
  cbn [map fst snd] in Hd. rewrite Hd. cbn [bind].
  unfold distances_from at 1. cbn [map getitem_first bind].
  rewrite (getitem_last_last 0) by (unfold distances_from; discriminate).
  cbn [bind]. unfold np_meshgrid. cbv beta iota zeta.
  pose proof Hstep1 as Hk. unfold interpolate_stations in Hk.
  apply key_loop_entries in Hk. destruct Hk as [Hk _]. cbn [map app] in Hk.
  set (x := np_linspace _ _ 100).
  set (xx := map (fun bi => map (fun _ => bi) levels) x).
  assert (Hxx : has_shape (length x) (length levels) xx).
  { pose proof (np_meshgrid_shapes levels x) as [_ Hxx]. exact Hxx. }
  match goal with
  | |- exists cs, bind (for_each ?body keys []) _ = _ =>
      assert (Hg : exists grid, for_each body keys [] = OK grid)
  end.
  { apply grid_loop_total.
    - intros key Hkey. apply getitem_of_key. rewrite Hk. exact Hkey.
    - intros px py v. apply griddata_returns.
    - exact Hxx. }
  destruct Hg as [grid Hg]. rewrite Hg. cbn [bind]. eexists. reflexivity.
Qed.

End BuilderReturns.

(** ** The running example *)

Lemma demo_inputs_ok : inputs_ok demo_stns demo_data = true.
Proof. reflexivity. Qed.

Lemma demo_frames_ok (s : string) :
  In s demo_stns ->
  exists df, getitem demo_data s = OK df /\ frame_ok demo_keys df = true.
Proof.
  intros [<-|[<-|[<-|[]]]]; eexists; split; reflexivity.
Qed.

Lemma demo_griddata_returns (px py v : list R) (xx pp : ndarray2) :
  exists g, demo_griddata px py v xx pp = OK g
            /\ map (@length R) g = map (@length R) xx.
Proof.
  eexists. split; [reflexivity|].
  rewrite map_map. apply map_ext. intros row. apply length_map.
Qed.

Lemma demo_returns :
  exists cs,
    radisonde_cross_section demo_griddata demo_height_to_pressure demo_uninit
      demo_stns demo_data 1000 100 450 = OK cs.
Proof.
  apply radisonde_cross_section_returns.
  - exact demo_griddata_returns.
  - exact demo_inputs_ok.
  - discriminate.
Qed.

Lemma demo_levels_arange : np_arange 1000 (100 - 1) (- 450) = OK [1000; 550; 100]%Z.
Proof. reflexivity. Qed.

Lemma getitem_In {V : Type} (d : dict V) (k : string) (v : V) :
  getitem d k = OK v -> In (k, v) d.
Proof.
  induction d as [|[k' v'] d IH]; [discriminate|].
  cbn [getitem]. destruct (String.eqb_spec k' k) as [->|_].
  - intros H. injection H as ->. left. reflexivity.
  - intros H. right. apply IH. exact H.
Qed.

Lemma station_column_inv (data : dict DataFrame) (levels : list R)
    (key station : string) (row : list R) :
  station_column data levels key station = OK row ->
  exists df p v,
    getitem data station = OK df /\ getitem df "pressure" = OK p /\
    getitem df key = OK v /\ vertical_interpolate p v levels = OK row.
Proof.
  unfold station_column. intros H.
  bind_inv H. bind_inv H. bind_inv H. bind_inv H.
  rewrite E in E1. injection E1 as <-. eauto 8.
Qed.

Lemma Forall2_at {A B : Type} (P : A -> B -> Prop) (xs : list A) (ys : list B) :
  Forall2 P xs ys ->
  forall i x, nth_error xs i = Some x ->
    exists y, nth_error ys i = Some y /\ P x y.
Proof.
  induction 1 as [|x0 y0 xs ys Hxy _ IH]; intros i x Hi.
  - destruct i; discriminate.
  - destruct i as [|i]; [|apply IH; exact Hi].
    injection Hi as <-. exists y0. split; [reflexivity | exact Hxy].
Qed.

(** * Step 1: one column per station and variable *)

(** C3, as the code has it.  When step 1 of the builder returns, the row of
    every station under the key 'pressure' is the standard vertical grid
    itself, written without a call of the vertical interpolator; under every
    other key it is the result of the vertical interpolator on the station's
    pressure column and the station's column of that key. *)
Theorem pressure_column_is_the_grid (u : nat -> string -> nat -> nat -> R)
    (stns : list string) (data : dict DataFrame) (keys : list string)
    (levels : list R) (tmp_grid : dict ndarray2) (c : coords) :
  interpolate_stations u stns data keys levels = OK (tmp_grid, c) ->
  forall key M loc station,
    In (key, M) tmp_grid -> nth_error stns loc = Some station ->
    exists row,
      nth_error M loc = Some row /\
      (key = "pressure"%string -> row = levels) /\
      (key <> "pressure"%string ->
       exists df p v,
         getitem data station = OK df /\ getitem df "pressure" = OK p /\
         getitem df key = OK v /\ vertical_interpolate p v levels = OK row).
Proof.
  intros H key M loc station HM Hloc.
  destruct (interpolate_stations_entries _ _ _ _ _ _ _ H key M HM) as [Hp Ho].
  destruct (String.eqb_spec key "pressure") as [->|Hne].
  - exists levels. rewrite (Hp eq_refl). split.
    + rewrite nth_error_map, Hloc. reflexivity.
    + split; [reflexivity | congruence].
  - specialize (Ho Hne).
    destruct (Forall2_at _ _ _ Ho loc station Hloc) as [row [Hrow Hcol]].
    exists row. split; [exact Hrow|]. split; [congruence|].
    intros _. apply station_column_inv. exact Hcol.
Qed.

Lemma pressure_column_is_the_grid_witness :
  exists tmp_grid c,
    interpolate_stations demo_uninit demo_stns demo_data demo_keys demo_levels
    = OK (tmp_grid, c) /\
    forall key M loc station,
      In (key, M) tmp_grid -> nth_error demo_stns loc = Some station ->
      exists row,
        nth_error M loc = Some row /\
        (key = "pressure"%string -> row = demo_levels) /\
        (key <> "pressure"%string ->
         exists df p v,
           getitem demo_data station = OK df /\ getitem df "pressure" = OK p /\
           getitem df key = OK v /\
           vertical_interpolate p v demo_levels = OK row).
Proof.
  destruct (interpolate_stations_returns demo_uninit demo_stns demo_data
              demo_keys demo_levels demo_frames_ok) as [[tmp_grid c] H].
  exists tmp_grid, c. split; [exact H|].
  exact (pressure_column_is_the_grid demo_uninit demo_stns demo_data demo_keys
           demo_levels tmp_grid c H).
Defined.

(** C3, as stated, fails.  For the first station of the running example,
    observed at 1000 and 500 hPa, the row under 'pressure' is the grid
    [1000, 550, 100], while the vertical interpolator applied to the
    station's pressures against themselves gives another column: its entry
    at 100 hPa is the clamp 500. *)
Lemma demo_pressure_column_not_interpolated :
  exists tmp_grid c M row col,
    interpolate_stations demo_uninit demo_stns demo_data demo_keys demo_levels
    = OK (tmp_grid, c) /\
    getitem tmp_grid "pressure" = OK M /\
    nth_error M 0 = Some row /\
    vertical_interpolate [1000; 500] [1000; 500] demo_levels = OK col /\
    nth_error row 2 = Some 100 /\
    nth_error col 2 = Some 500.
Proof.
  destruct (interpolate_stations_returns demo_uninit demo_stns demo_data
              demo_keys demo_levels demo_frames_ok) as [[tmp_grid c] H].
  pose proof H as Hk. unfold interpolate_stations in Hk.
  apply key_loop_entries in Hk. destruct Hk as [Hk _]. cbn [map app] in Hk.
  destruct (getitem_of_key tmp_grid "pressure") as [M HM].
  { rewrite Hk. left. reflexivity. }
  destruct (interpolate_stations_entries _ _ _ _ _ _ _ H "pressure"%string M
              (getitem_In _ _ _ HM)) as [HMeq _].
  specialize (HMeq eq_refl).
  exists tmp_grid, c, M, demo_levels,
    (map (level_value [1000; 500] [1000; 500]) demo_levels).
  split; [exact H|]. split; [exact HM|].
  split; [rewrite HMeq; reflexivity|].
  split; [apply vertical_interpolate_eq; [discriminate | reflexivity]|].
  split; [reflexivity|].
  cbn [demo_levels map nth_error]. f_equal.
  unfold level_value. cbn [last].
  destruct (Rltb 100 500) eqn:E; [reflexivity|].
  apply Rltb_false in E. lra.
Qed.

(** * Step 2: the distance axis *)

Lemma equator_distance (lon : R) :
  0 <= lon <= 180 ->
  great_circle_distance 0 0 lon 0 = sphere_radius * (lon * PI / 180).
Proof.
  intros Hlon. unfold great_circle_distance, radians.
  replace (0 * PI / 180) with 0 by lra.
  rewrite sin_0, cos_0, Rminus_0_r.
  replace (0 * 0 + 1 * 1 * cos (lon * PI / 180)) with (cos (lon * PI / 180))
    by ring.
  rewrite acos_cos; [reflexivity|].
  pose proof PI_RGT_0. split; nra.
Qed.

(** C4, as the code has it.  When the builder returns, the distance array
    holds, station by station in the order supplied, the great-circle
    distance from the first station: it is as long as the station list, its
    first entry is 0 and every entry is at least 0.  Nothing orders the
    entries after the first. *)
Theorem obs_distance_from_first_station
    (griddata : list R -> list R -> list R -> ndarray2 -> ndarray2 -> result ndarray2)
    (height_to_pressure_std : list R -> list R)
    (uninit : nat -> string -> nat -> nat -> R)
    (stns : list string) (data : dict DataFrame) (start end_ step : Z)
    (cs : cross_section) :
  radisonde_cross_section griddata height_to_pressure_std uninit
    stns data start end_ step = OK cs ->
  (exists qs lat0 lon0 el0 rest,
      map_result (station_coords data) stns = OK qs /\
      qs = (lat0, lon0, el0) :: rest /\
      obs_distance cs = distances_from lon0 lat0 qs) /\
  length (obs_distance cs) = length stns /\
  nth_error (obs_distance cs) 0 = Some 0 /\
  Forall (fun d => 0 <= d) (obs_distance cs).
Proof.
  intros H. apply radisonde_cross_section_inv in H.
  destruct H as [levels [qs [lat0 [lon0 [el0 [rest
                   [_ [Hqs [Heq [Hdist _]]]]]]]]]].
  split; [exists qs, lat0, lon0, el0, rest; auto|].
  rewrite Hdist. split.
  - unfold distances_from. rewrite length_map.
    eapply map_result_length; eassumption.
  - split; [|apply distances_from_nonneg].
    rewrite Heq. unfold distances_from. cbn [map nth_error fst snd].
    now rewrite great_circle_distance_same.
Qed.

Lemma obs_distance_from_first_station_witness :
  exists cs,
    radisonde_cross_section demo_griddata demo_height_to_pressure demo_uninit
      demo_stns demo_data 1000 100 450 = OK cs /\
    (exists qs lat0 lon0 el0 rest,
        map_result (station_coords demo_data) demo_stns = OK qs /\
        qs = (lat0, lon0, el0) :: rest /\
        obs_distance cs = distances_from lon0 lat0 qs) /\
    length (obs_distance cs) = length demo_stns /\
    nth_error (obs_distance cs) 0 = Some 0 /\
    Forall (fun d => 0 <= d) (obs_distance cs).
Proof.
  destruct demo_returns as [cs H]. exists cs. split; [exact H|].
  exact (obs_distance_from_first_station demo_griddata demo_height_to_pressure
           demo_uninit demo_stns demo_data 1000 100 450 cs H).
Defined.

(** C4, as stated, fails.  In the running example the stations are supplied
    in the order of longitudes 0, 10 and 5 degrees along the equator; the
    builder returns, and the distance of the second station from the first
    exceeds that of the third: the distance array is not non-decreasing. *)
Lemma demo_distances_not_monotone :
  exists cs,
    radisonde_cross_section demo_griddata demo_height_to_pressure demo_uninit
      demo_stns demo_data 1000 100 450 = OK cs /\
    ~ non_decreasing (obs_distance cs).
Proof.
  destruct demo_returns as [cs H]. exists cs. split; [exact H|].
  apply radisonde_cross_section_inv in H.
  destruct H as [levels [qs [lat0 [lon0 [el0 [rest
                   [_ [Hqs [Heq [Hdist _]]]]]]]]]].
  assert (Hq : map_result (station_coords demo_data) demo_stns
               = OK [(0, 0, 0); (0, 10, 0); (0, 5, 0)]) by reflexivity.
  rewrite Hq in Hqs. injection Hqs as <-. injection Heq as <- <- <- <-.
  rewrite Hdist. unfold distances_from. cbn [map fst snd non_decreasing].
  rewrite !equator_distance by lra.
  intros [_ [Hle _]]. unfold sphere_radius in Hle.
  pose proof PI_RGT_0. nra.
Qed.

(** * Steps 3 and 4: the shape of the interpolated grids *)

Lemma grid_loop_keys
    (griddata : list R -> list R -> list R -> ndarray2 -> ndarray2 -> result ndarray2)
    (u : nat -> string -> nat -> nat -> R) (tmp_grid : dict ndarray2)
    (nx plevs : nat) (ddist pdist xx pp : ndarray2) (keys : list string) :
  forall g0 grid,
    for_each (grid_key griddata u tmp_grid nx plevs ddist pdist xx pp) keys g0
    = OK grid ->
    map fst grid = map fst g0 ++ keys.
Proof.
  induction keys as [|k keys IH]; intros g0 grid H.
  - injection H as <-. now rewrite app_nil_r.
  - rewrite for_each_cons in H. bind_inv H. apply IH in H. rewrite H.
    unfold grid_key in E. bind_inv E. bind_inv E. bind_inv E. injection E as <-.
    rewrite map_app, <- app_assoc. reflexivity.
Qed.

(** The builder returns one grid for each of the first eight column labels of
    the first station's sounding. *)
Lemma grid_data_keys
    (griddata : list R -> list R -> list R -> ndarray2 -> ndarray2 -> result ndarray2)
    (height_to_pressure_std : list R -> list R)
    (uninit : nat -> string -> nat -> nat -> R)
    (stns : list string) (data : dict DataFrame) (start end_ step : Z)
    (cs : cross_section) :
  radisonde_cross_section griddata height_to_pressure_std uninit
    stns data start end_ step = OK cs ->
  exists s0 df0,
    getitem_first stns = OK s0 /\ getitem data s0 = OK df0 /\
    map fst (grid_data cs) = dict_fromkeys (keys_upto8 df0) /\
    In "pressure"%string (dict_fromkeys (keys_upto8 df0)).
Proof.
  intros H. unfold radisonde_cross_section in H.
  bind_inv H. bind_inv H. rename a0 into s0, E0 into Hs0.
  bind_inv H. rename a0 into df0, E0 into Hdf0.
  bind_inv H. destruct a0 as [tmp_grid c]. rename E0 into Hstep1.
  bind_inv H. rename E0 into Hlon0.
  bind_inv H. bind_inv H. bind_inv H. bind_inv H.
  unfold np_meshgrid in H. cbv beta iota zeta in H.
  bind_inv H. injection H as <-. cbn [grid_data].
  exists s0, df0. split; [exact Hs0|]. split; [exact Hdf0|].
  split; [apply grid_loop_keys in E4; exact E4|].
  unfold interpolate_stations in Hstep1.
  apply (key_loop_coords _ _ _ _ _ (dict_fromkeys_NoDup _)) in Hstep1.
  destruct Hstep1 as [_ Hout].
  destruct (in_dec string_dec "pressure"%string (dict_fromkeys (keys_upto8 df0)))
    as [Hp|Hp]; [exact Hp|].
  rewrite (Hout Hp) in Hlon0. discriminate.
Qed.

(** C6.  Whatever the number of stations and the grid configuration, every
    2-D grid that the builder returns has exactly 100 rows, the horizontal
    sample points, of as many elements as there are vertical grid levels,
    the length of [np.arange(start, end - 1, -step)]; and there is such a
    grid for 'pressure'. *)
Theorem grid_shape
    (griddata : list R -> list R -> list R -> ndarray2 -> ndarray2 -> result ndarray2)
    (height_to_pressure_std : list R -> list R)
    (uninit : nat -> string -> nat -> nat -> R)
    (stns : list string) (data : dict DataFrame) (start end_ step : Z)
    (cs : cross_section) (levels : list Z) :
  radisonde_cross_section griddata height_to_pressure_std uninit
    stns data start end_ step = OK cs ->
  np_arange start (end_ - 1) (- step) = OK levels ->
  (forall key g, In (key, g) (grid_data cs) ->
     length g = 100%nat /\ Forall (fun row => length row = length levels) g) /\
  (exists g, getitem (grid_data cs) "pressure" = OK g).
Proof.
  intros H Hlevels. split.
  - apply radisonde_cross_section_inv in H.
    destruct H as [levels' [qs [lat0 [lon0 [el0 [rest
                     [Hl [_ [_ [_ [_ [Hshape _]]]]]]]]]]]].
    rewrite Hlevels in Hl. injection Hl as <-. exact Hshape.
  - apply grid_data_keys in H. destruct H as [s0 [df0 [_ [_ [Hk Hp]]]]].
    apply getitem_of_key. rewrite Hk. exact Hp.
Qed.

Lemma grid_shape_witness :
  exists cs,
    radisonde_cross_section demo_griddata demo_height_to_pressure demo_uninit
      demo_stns demo_data 1000 100 450 = OK cs /\
    (forall key g, In (key, g) (grid_data cs) ->
       length g = 100%nat /\ Forall (fun row => length row = 3%nat) g) /\
    (exists g, getitem (grid_data cs) "pressure" = OK g).
Proof.
  destruct demo_returns as [cs H]. exists cs. split; [exact H|].
  exact (grid_shape demo_griddata demo_height_to_pressure demo_uninit
           demo_stns demo_data 1000 100 450 cs [1000; 550; 100]%Z
           H demo_levels_arange).
Defined.

(** * Determinism *)

Lemma bind_ext {A B : Type} (m : result A) (k k' : A -> result B) :
  (forall a, k a = k' a) -> bind m k = bind m k'.
Proof. intros H. destruct m; simpl; [apply H | reflexivity]. Qed.

(** C9.  The result of the builder, a returned structure or a raised
    exception, is a function of its inputs (station list, station data,
    start, end, step) alone: it is the same whatever the memory that the
    [np.empty] calls hand out at an invocation, every cell of which is
    overwritten before it is read.  The model has no other state. *)
Theorem radisonde_cross_section_deterministic
    (griddata : list R -> list R -> list R -> ndarray2 -> ndarray2 -> result ndarray2)
    (height_to_pressure_std : list R -> list R)
    (uninit uninit' : nat -> string -> nat -> nat -> R)
    (stns : list string) (data : dict DataFrame) (start end_ step : Z) :
  radisonde_cross_section griddata height_to_pressure_std uninit
    stns data start end_ step
  = radisonde_cross_section griddata height_to_pressure_std uninit'
      stns data start end_ step.
Proof.
  unfold radisonde_cross_section.
  apply bind_ext; intros levels.
  apply bind_ext; intros s0.
  apply bind_ext; intros df0.
  rewrite (interpolate_stations_uninit uninit uninit').
  apply bind_ext; intros [tmp_grid c].
  apply bind_ext; intros lon0.
  apply bind_ext; intros lat0.
  apply bind_ext; intros dist.
  apply bind_ext; intros d_first.
  apply bind_ext; intros d_last.
  unfold np_meshgrid. cbv beta iota zeta.
  rewrite (grid_loop_uninit _ _ _ _ _ _ _ _ uninit uninit').
  reflexivity.
Qed.

(** * Frame: what the two routines write *)

Local Open Scope store_scope.

(** ** Helper lemmas: rules for [preserves] *)

Lemma extends_refl (h : Store.heap) : extends h h.
Proof. exists []. now rewrite app_nil_r. Qed.

Lemma extends_length (h0 h : Store.heap) :
  extends h0 h -> (length h0 <= length h)%nat.
Proof. intros [ext ->]. rewrite length_app. lia. Qed.

Lemma extends_alloc (h0 h : Store.heap) (o : Store.object) :
  extends h0 h -> extends h0 (h ++ [o]).
Proof. intros [ext ->]. exists (ext ++ [o]). now rewrite app_assoc. Qed.

Lemma extends_put (h0 h : Store.heap) (a : Store.addr) (o : Store.object) :
  extends h0 h -> fresh h0 a -> extends h0 (Store.put h a o).
Proof.
  intros [ext ->] Ha. unfold fresh in Ha. unfold Store.put.
  exists (firstn (a - length h0) ext ++ o :: skipn (S a - length h0) ext).
  rewrite firstn_app, skipn_app.
  rewrite firstn_all2 by lia. rewrite skipn_all2 by lia.
  rewrite <- app_assoc. reflexivity.
Qed.

Lemma preserves_ret {A : Type} (h0 : Store.heap) (a : A) (Q : A -> Prop) :
  Q a -> preserves h0 (Store.ret a) Q.
Proof.
  intros Ha h r h' Hext H. injection H as <- <-.
  split; [exact Hext|]. intros a' E. injection E as <-. exact Ha.
Qed.

Lemma preserves_lift {A : Type} (h0 : Store.heap) (r : result A) :
  preserves h0 (Store.lift r) (fun _ => True).
Proof.
  intros h r' h' Hext H. injection H as <- <-. split; [exact Hext | trivial].
Qed.

Lemma preserves_bind {A B : Type} (h0 : Store.heap) (m : Store.M A)
    (k : A -> Store.M B) (Q : A -> Prop) (Q' : B -> Prop) :
  preserves h0 m Q ->
  (forall a, Q a -> preserves h0 (k a) Q') ->
  preserves h0 (Store.bind m k) Q'.
Proof.
  intros Hm Hk h r h' Hext H. unfold Store.bind in H.
  destruct (m h) as [[a|e] h1] eqn:E.
  - destruct (Hm h (OK a) h1 Hext E) as [Hext1 Ha].
    exact (Hk a (Ha a eq_refl) h1 r h' Hext1 H).
  - injection H as <- <-.
    destruct (Hm h (Raise e) h1 Hext E) as [Hext1 _].
    split; [exact Hext1 | discriminate].
Qed.


Lemma preserves_load (h0 : Store.heap) (a : Store.ndarray) :
  preserves h0 (Store.load a) (fun _ => True).
Proof.
  intros h r h' Hext H. unfold Store.load in H.
  destruct (nth_error h (Store.base a)) as [[buf|m]|]; injection H as <- <-;
    (split; [exact Hext | trivial]).
Qed.

Lemma preserves_load2 (h0 : Store.heap) (a : Store.addr) :
  preserves h0 (Store.load2 a) (fun _ => True).
Proof.
  intros h r h' Hext H. unfold Store.load2 in H.
  destruct (nth_error h a) as [[buf|m]|]; injection H as <- <-;
    (split; [exact Hext | trivial]).
Qed.

Lemma preserves_new_array (h0 : Store.heap) (v : list R) :
  preserves h0 (Store.new_array v) (fresh_array h0).
Proof.
  intros h r h' Hext H. injection H as <- <-. split.
  - apply extends_alloc, Hext.
  - intros a E. injection E as <-. unfold fresh_array, fresh. simpl.
    apply extends_length, Hext.
Qed.

Lemma preserves_new_array2 (h0 : Store.heap) (m : list (list R)) :
  preserves h0 (Store.new_array2 m) (fresh h0).
Proof.
  intros h r h' Hext H. injection H as <- <-. split.
  - apply extends_alloc, Hext.
  - intros a E. injection E as <-. apply extends_length, Hext.
Qed.

Lemma preserves_store (h0 : Store.heap) (a : Store.ndarray) (v : list R) :
  fresh_array h0 a -> preserves h0 (Store.store a v) (fun _ => True).
Proof.
  intros Ha h r h' Hext H. unfold Store.store in H.
  destruct (nth_error h (Store.base a)) as [[buf|m]|]; injection H as <- <-;
    (split; [|trivial]); try exact Hext.
  apply extends_put; assumption.
Qed.

Lemma preserves_store2 (h0 : Store.heap) (a : Store.addr) (m : list (list R)) :
  fresh h0 a -> preserves h0 (Store.store2 a m) (fun _ => True).
Proof.
  intros Ha h r h' Hext H. unfold Store.store2 in H.
  destruct (nth_error h a) as [[buf|m']|]; injection H as <- <-;
    (split; [|trivial]); try exact Hext.
  apply extends_put; assumption.
Qed.

Lemma preserves_for_each {A S : Type} (h0 : Store.heap)
    (body : S -> A -> Store.M S) (I : S -> Prop) (xs : list A) :
  (forall s x, I s -> preserves h0 (body s x) I) ->
  forall s, I s -> preserves h0 (Store.for_each body xs s) I.
Proof.
  intros Hbody. induction xs as [|x xs IH]; intros s Hs.
  - apply preserves_ret. exact Hs.
  - cbn [Store.for_each]. eapply preserves_bind; [apply Hbody, Hs|].
    intros s' Hs'. apply IH, Hs'.
Qed.

(** One step of a proof that a computation preserves the store: the rule
    of the first operation, then the rest of the computation. *)
Ltac frame_step :=
  lazymatch goal with
  | |- preserves _ (Store.bind (Store.load _) _) _ =>
      eapply preserves_bind; [apply preserves_load | intros ? _]
  | |- preserves _ (Store.bind (Store.load2 _) _) _ =>
      eapply preserves_bind; [apply preserves_load2 | intros ? _]
  | |- preserves _ (Store.bind (Store.lift _) _) _ =>
      eapply preserves_bind; [apply preserves_lift | intros ? _]
  | |- preserves _ (Store.bind (Store.new_array _) _) _ =>
      eapply preserves_bind; [apply preserves_new_array | intros ? ?]
  | |- preserves _ (Store.bind (Store.new_array2 _) _) _ =>
      eapply preserves_bind; [apply preserves_new_array2 | intros ? ?]
  | |- preserves _ (Store.bind (Store.store _ _) _) _ =>
      eapply preserves_bind; [apply preserves_store; assumption | intros ? _]
  | |- preserves _ (Store.bind (Store.store2 _ _) _) _ =>
      eapply preserves_bind; [apply preserves_store2; assumption | intros ? _]
  end.

Lemma preserves_setitem_mask (h0 : Store.heap) (a : Store.ndarray)
    (mask : list bool) (v : R) :
  fresh_array h0 a -> preserves h0 (Store.setitem_mask a mask v) (fun _ => True).
Proof.
  intros Ha. unfold Store.setitem_mask. do 2 frame_step.
  apply preserves_store, Ha.
Qed.

Lemma preserves_setitem_row (h0 : Store.heap) (a : Store.addr) (loc : nat)
    (v : list R) :
  fresh h0 a -> preserves h0 (Store.setitem_row a loc v) (fun _ => True).
Proof.
  intros Ha. unfold Store.setitem_row. do 2 frame_step.
  apply preserves_store2, Ha.
Qed.

Lemma preserves_setitem_all (h0 : Store.heap) (a : Store.addr)
    (src : list (list R)) :
  fresh h0 a -> preserves h0 (Store.setitem_all a src) (fun _ => True).
Proof.
  intros Ha. unfold Store.setitem_all. do 2 frame_step.
  apply preserves_store2, Ha.
Qed.

(** The same for an allocation, naming the new array and its freshness. *)
Tactic Notation "frame_alloc" ident(r) ident(Hr) :=
  lazymatch goal with
  | |- preserves _ (Store.bind (Store.new_array _) _) _ =>
      eapply preserves_bind; [apply preserves_new_array | intros r Hr]
  | |- preserves _ (Store.bind (Store.new_array2 _) _) _ =>
      eapply preserves_bind; [apply preserves_new_array2 | intros r Hr]
  end.

(** ** The vertical interpolator writes only to the array it returns *)

Lemma vertical_interpolate_preserves (h0 : Store.heap)
    (vcoord_data interp_var interp_levels : Store.ndarray) :
  preserves h0 (Store.vertical_interpolate vcoord_data interp_var interp_levels)
    (fresh_array h0).
Proof.
  unfold Store.vertical_interpolate.
  frame_step. frame_alloc lnp Hlnp.
  frame_step. frame_alloc lnp_intervals Hlnp_intervals.
  do 4 frame_step. frame_alloc r Hr.
  assert (Hdata : fresh_array h0 (Store.flip r)) by exact Hr.
  do 8 frame_step.
  eapply preserves_bind; [apply preserves_setitem_mask, Hdata | intros ? _].
  do 2 frame_step.
  eapply preserves_bind; [apply preserves_setitem_mask, Hdata | intros ? _].
  apply preserves_ret, Hdata.
Qed.

(** ** The builder writes only to arrays it allocates *)

Section BuilderFrame.

Variable griddata :
  list R -> list R -> list R -> list (list R) -> list (list R)
  -> result (list (list R)).
Variable height_to_pressure_std : list R -> list R.
Variable uninit : nat -> string -> nat -> nat -> R.
Variable h0 : Store.heap.

Lemma station_attribute_preserves (data : dict Store.DataFrame)
    (station name : string) :
  preserves h0 (Store.station_attribute data station name) (fun _ => True).
Proof.
  unfold Store.station_attribute. do 3 frame_step. apply preserves_lift.
Qed.

Lemma fill_station_preserves (data : dict Store.DataFrame)
    (vertical_levels : Store.ndarray) (key : string)
    (st : Store.addr * coords) (sl : string * nat) :
  fresh h0 (fst st) ->
  preserves h0 (Store.fill_station data vertical_levels key st sl)
    (fun st' => fresh h0 (fst st')).
Proof.
  destruct st as [tmp c], sl as [station loc]. cbn [fst]. intros Htmp.
  unfold Store.fill_station. destruct (String.eqb key "pressure").
  - do 3 (eapply preserves_bind;
          [apply station_attribute_preserves | intros ? _]).
    frame_step.
    eapply preserves_bind; [apply preserves_setitem_row, Htmp | intros ? _].
    apply preserves_ret. exact Htmp.
  - do 4 frame_step.
    eapply preserves_bind; [apply vertical_interpolate_preserves | intros col _].
    frame_step.
    eapply preserves_bind; [apply preserves_setitem_row, Htmp | intros ? _].
    apply preserves_ret. exact Htmp.
Qed.

Lemma fill_key_preserves (stns : list string) (data : dict Store.DataFrame)
    (vertical_levels : Store.ndarray) (plevs : nat)
    (st : dict Store.addr * coords) (key : string) :
  preserves h0 (Store.fill_key uninit stns data vertical_levels plevs st key)
    (fun _ => True).
Proof.
  destruct st as [tmp_grid c]. unfold Store.fill_key.
  frame_alloc tmp Htmp.
  eapply preserves_bind.
  - apply (preserves_for_each h0 _ (fun st' => fresh h0 (fst st'))).
    + intros s x Hs. apply fill_station_preserves, Hs.
    + exact Htmp.
  - intros st' _. apply preserves_ret. exact I.
Qed.

Lemma grid_key_preserves (tmp_grid : dict Store.addr) (nx plevs : nat)
    (ddist pdist xx pp : Store.addr) (grid : dict Store.addr) (key : string) :
  Forall (fun kv => fresh h0 (snd kv)) grid ->
  preserves h0
    (Store.grid_key griddata uninit tmp_grid nx plevs ddist pdist xx pp grid key)
    (Forall (fun kv => fresh h0 (snd kv))).
Proof.
  intros Hgrid. unfold Store.grid_key.
  frame_alloc g Hg.
  frame_step. frame_alloc px Hpx.
  frame_step. frame_alloc py Hpy.
  do 2 frame_step. frame_alloc values Hvalues.
  do 6 frame_step. frame_alloc src Hsrc. frame_step.
  eapply preserves_bind; [apply preserves_setitem_all, Hg | intros ? _].
  apply preserves_ret. apply Forall_app. split; [exact Hgrid|].
  constructor; [exact Hg | constructor].
Qed.

Lemma radisonde_cross_section_preserves (stns : list string)
    (data : dict Store.DataFrame) (start end_ step : Z) :
  preserves h0
    (Store.radisonde_cross_section griddata height_to_pressure_std uninit
       stns data start end_ step)
    (fresh_cross_section h0).
Proof.
  unfold Store.radisonde_cross_section.
  frame_step. frame_alloc vertical_levels Hlevels. do 2 frame_step.
  eapply preserves_bind.
  { apply (preserves_for_each h0 _ (fun _ => True)); [|exact I].
    intros s x _. apply fill_key_preserves. }
  intros st _. do 3 frame_step.
  frame_alloc dist Hdist. frame_alloc ground_elevation Hground.
  do 4 frame_step. frame_alloc x Hx. do 2 frame_step.
  frame_alloc pp Hpp. frame_alloc xx Hxx. do 2 frame_step.
  frame_alloc pdist Hpdist. frame_alloc ddist Hddist.
  eapply preserves_bind.
  { apply (preserves_for_each h0 _ (Forall (fun kv => fresh h0 (snd kv))));
      [|constructor].
    intros s k Hs. apply grid_key_preserves, Hs. }
  intros grid Hgrid. apply preserves_ret.
  unfold fresh_cross_section. cbn. auto.
Qed.

End BuilderFrame.

(** ** The two embeddings of the vertical interpolator agree *)

Lemma holds_inv (h : Store.heap) (a : Store.ndarray) (v : list R) :
  holds h a v ->
  exists buf, nth_error h (Store.base a) = Some (Store.Vec buf)
              /\ v = Store.view a buf.
Proof.
  unfold holds, Store.load.
  destruct (nth_error h (Store.base a)) as [[buf|m]|]; try discriminate.
  intros H. injection H as <-. eauto.
Qed.

Lemma holds_intro (h : Store.heap) (a : Store.ndarray) (buf : list R) :
  nth_error h (Store.base a) = Some (Store.Vec buf) ->
  holds h a (Store.view a buf).
Proof. intros H. unfold holds, Store.load. now rewrite H. Qed.

Lemma holds_bound (h : Store.heap) (a : Store.ndarray) (v : list R) :
  holds h a v -> (Store.base a < length h)%nat.
Proof.
  intros H. apply holds_inv in H. destruct H as [buf [H _]].
  apply nth_error_Some. congruence.
Qed.

Lemma holds_app (h ext : Store.heap) (a : Store.ndarray) (v : list R) :
  holds h a v -> holds (h ++ ext) a v.
Proof.
  intros H. pose proof (holds_bound _ _ _ H) as Hb.
  apply holds_inv in H. destruct H as [buf [H ->]].
  apply holds_intro. rewrite nth_error_app1 by exact Hb. exact H.
Qed.

Lemma holds_new (h : Store.heap) (v : list R) :
  holds (h ++ [Store.Vec v]) (Store.whole (length h)) v.
Proof.
  apply (holds_intro _ (Store.whole (length h)) v).
  cbn [Store.whole Store.base]. rewrite nth_error_app2, Nat.sub_diag by lia.
  reflexivity.
Qed.

Lemma holds_flip (h : Store.heap) (a : Store.ndarray) (v : list R) :
  holds h a v -> holds h (Store.flip a) (rev v).
Proof.
  intros H. apply holds_inv in H. destruct H as [buf [H ->]].
  replace (rev (Store.view a buf)) with (Store.view (Store.flip a) buf).
  - apply holds_intro. exact H.
  - unfold Store.view, Store.flip. cbn [Store.reversed].
    destruct (Store.reversed a); cbn [negb];
      [now rewrite rev_involutive | reflexivity].
Qed.

Lemma nth_error_put_same (h : Store.heap) (n : nat) (o : Store.object) :
  (n < length h)%nat -> nth_error (Store.put h n o) n = Some o.
Proof.
  intros Hn. unfold Store.put.
  rewrite nth_error_app2 by (rewrite length_firstn; lia).
  rewrite length_firstn, Nat.min_l by lia. now rewrite Nat.sub_diag.
Qed.

Lemma nth_error_put_other (h : Store.heap) (n i : nat) (o : Store.object) :
  (n < length h)%nat -> i <> n ->
  nth_error (Store.put h n o) i = nth_error h i.
Proof.
  intros Hn Hi. unfold Store.put.
  destruct (Nat.lt_ge_cases i n) as [Hlt|Hge].
  - rewrite nth_error_app1 by (rewrite length_firstn; lia).
    rewrite nth_error_firstn.
    destruct (Nat.ltb_spec i n); [reflexivity | lia].
  - rewrite nth_error_app2 by (rewrite length_firstn; lia).
    rewrite length_firstn, Nat.min_l by lia.
    destruct (i - n)%nat as [|k] eqn:E; [lia|]. cbn [nth_error].
    rewrite nth_error_skipn. f_equal. lia.
Qed.

Lemma view_view (a : Store.ndarray) (v : list R) :
  Store.view a (Store.view a v) = v.
Proof.
  unfold Store.view. destruct (Store.reversed a);
    [apply rev_involutive | reflexivity].
Qed.

Lemma holds_put_same (h : Store.heap) (a : Store.ndarray) (old new : list R) :
  holds h a old ->
  holds (Store.put h (Store.base a) (Store.Vec (Store.view a new))) a new.
Proof.
  intros H. pose proof (holds_bound _ _ _ H) as Hb.
  rewrite <- (view_view a new) at 2. apply holds_intro.
  apply nth_error_put_same, Hb.
Qed.

Lemma holds_put_other (h : Store.heap) (a b : Store.ndarray) (v : list R)
    (o : Store.object) :
  holds h b v -> (Store.base a < length h)%nat -> Store.base b <> Store.base a ->
  holds (Store.put h (Store.base a) o) b v.
Proof.
  intros H Ha Hne. apply holds_inv in H. destruct H as [buf [H ->]].
  apply holds_intro. rewrite nth_error_put_other by assumption. exact H.
Qed.

Lemma run_load {B : Type} (h : Store.heap) (a : Store.ndarray) (v : list R)
    (k : list R -> Store.M B) :
  holds h a v -> Store.bind (Store.load a) k h = k v h.
Proof. intros H. unfold Store.bind. now rewrite H. Qed.

Lemma run_new_array {B : Type} (h : Store.heap) (v : list R)
    (k : Store.ndarray -> Store.M B) :
  Store.bind (Store.new_array v) k h
  = k (Store.whole (length h)) (h ++ [Store.Vec v]).
Proof. reflexivity. Qed.

Lemma run_lift_OK {A B : Type} (h : Store.heap) (x : A) (k : A -> Store.M B) :
  Store.bind (Store.lift (OK x)) k h = k x h.
Proof. reflexivity. Qed.

Lemma run_lift_Raise {A B : Type} (h : Store.heap) (e : exn)
    (k : A -> Store.M B) :
  Store.bind (Store.lift (Raise e)) k h = (Raise e, h).
Proof. reflexivity. Qed.

Lemma run_setitem_mask_OK {B : Type} (h : Store.heap) (a : Store.ndarray)
    (cur new : list R) (mask : list bool) (v : R) (k : unit -> Store.M B) :
  holds h a cur -> setitem_mask cur mask v = OK new ->
  Store.bind (Store.setitem_mask a mask v) k h
  = k tt (Store.put h (Store.base a) (Store.Vec (Store.view a new))).
Proof.
  intros H Hnew. unfold Store.setitem_mask.
  unfold Store.bind at 1 2. rewrite H.
  unfold Store.bind at 1. unfold Store.lift. rewrite Hnew.
  unfold Store.store. apply holds_inv in H. destruct H as [buf [H _]].
  now rewrite H.
Qed.

Lemma run_setitem_mask_Raise {B : Type} (h : Store.heap) (a : Store.ndarray)
    (cur : list R) (mask : list bool) (v : R) (e : exn) (k : unit -> Store.M B) :
  holds h a cur -> setitem_mask cur mask v = Raise e ->
  Store.bind (Store.setitem_mask a mask v) k h = (Raise e, h).
Proof.
  intros H Hnew. unfold Store.setitem_mask.
  unfold Store.bind at 1 2. rewrite H.
  unfold Store.bind at 1. unfold Store.lift. rewrite Hnew. reflexivity.
Qed.

(** Run on a store that holds the three input arrays, the store version
    raises what [vertical_interpolate] raises, or returns an array that
    holds what [vertical_interpolate] returns. *)
Lemma vertical_interpolate_refines (h : Store.heap)
    (a b c : Store.ndarray) (ps vs ls : list R) :
  holds h a ps -> holds h b vs -> holds h c ls ->
  match vertical_interpolate ps vs ls with
  | OK out =>
      exists r h', Store.vertical_interpolate a b c h = (OK r, h') /\ holds h' r out
  | Raise e =>
      exists h', Store.vertical_interpolate a b c h = (Raise e, h')
  end.
Proof.
  intros Ha Hb Hc.
  unfold vertical_interpolate, Store.vertical_interpolate.
  rewrite (run_load h a ps) by exact Ha. rewrite run_new_array.
  set (h1 := h ++ [Store.Vec (map ln ps)]).
  assert (Hlnp : holds h1 (Store.whole (length h)) (map ln ps)) by apply holds_new.
  rewrite (run_load h1 c ls) by (apply holds_app, Hc). rewrite run_new_array.
  set (h2 := h1 ++ [Store.Vec (map ln ls)]).
  assert (Hlnpi : holds h2 (Store.whole (length h1)) (map ln ls))
    by apply holds_new.
  assert (Ha2 : holds h2 a ps) by (do 2 apply holds_app; exact Ha).
  assert (Hb2 : holds h2 b vs) by (do 2 apply holds_app; exact Hb).
  assert (Hc2 : holds h2 c ls) by (do 2 apply holds_app; exact Hc).
  rewrite (run_load h2 _ (rev (map ln ls))) by (apply holds_flip, Hlnpi).
  rewrite (run_load h2 _ (rev (map ln ps)))
    by (apply holds_flip, holds_app, Hlnp).
  rewrite (run_load h2 _ (rev vs)) by (apply holds_flip, Hb2).
  destruct (np_interp (rev (map ln ls)) (rev (map ln ps)) (rev vs))
    as [r0|e] eqn:E0; cbn [bind];
    [rewrite run_lift_OK | rewrite run_lift_Raise; eauto].
  rewrite run_new_array.
  set (h3 := h2 ++ [Store.Vec r0]).
  set (data := Store.flip (Store.whole (length h2))).
  assert (Hd3 : holds h3 data (rev r0)) by (apply holds_flip, holds_new).
  assert (Ha3 : holds h3 a ps) by (apply holds_app, Ha2).
  assert (Hb3 : holds h3 b vs) by (apply holds_app, Hb2).
  assert (Hc3 : holds h3 c ls) by (apply holds_app, Hc2).
  rewrite (run_load h3 c ls), (run_load h3 a ps) by assumption.
  destruct (getitem_first ps) as [p_first|e] eqn:E1; cbn [bind];
    [rewrite run_lift_OK | rewrite run_lift_Raise; eauto].
  rewrite (run_load h3 c ls), (run_load h3 a ps) by assumption.
  destruct (getitem_last ps) as [p_last|e] eqn:E2; cbn [bind];
    [rewrite run_lift_OK | rewrite run_lift_Raise; eauto].
  rewrite (run_load h3 b vs) by assumption.
  destruct (getitem_first vs) as [v_first|e] eqn:E3; cbn [bind];
    [rewrite run_lift_OK | rewrite run_lift_Raise; eauto].
  assert (Hbase : forall x v, holds h2 x v -> Store.base x <> Store.base data).
  { intros x v Hx. apply holds_bound in Hx. cbn. lia. }
  assert (Hdb : (Store.base data < length h3)%nat).
  { unfold h3. rewrite length_app. cbn. lia. }
  destruct (setitem_mask (rev r0) (map (fun l => Rgtb l p_first) ls) v_first)
    as [d1|e] eqn:E4; cbn [bind];
    [rewrite (run_setitem_mask_OK h3 data (rev r0) d1) by assumption
    | rewrite (run_setitem_mask_Raise h3 data (rev r0) _ _ e) by assumption; eauto].
  set (h4 := Store.put h3 (Store.base data) (Store.Vec (Store.view data d1))).
  assert (Hd4 : holds h4 data d1) by (eapply holds_put_same; exact Hd3).
  assert (Hb4 : holds h4 b vs)
    by (apply holds_put_other; [exact Hb3 | exact Hdb | eapply Hbase, Hb2]).
  rewrite (run_load h4 b vs) by assumption.
  destruct (getitem_last vs) as [v_last|e] eqn:E5; cbn [bind];
    [rewrite run_lift_OK | rewrite run_lift_Raise; eauto].
  destruct (setitem_mask d1 (map (fun l => Rltb l p_last) ls) v_last)
    as [d2|e] eqn:E6; cbn [bind];
    [rewrite (run_setitem_mask_OK h4 data d1 d2) by assumption
    | rewrite (run_setitem_mask_Raise h4 data d1 _ _ e) by assumption; eauto].
  eexists. eexists. split; [reflexivity|].
  eapply holds_put_same. exact Hd4.
Qed.

(** ** Neither routine writes to an array it was given *)

Lemma extends_holds (h h' : Store.heap) (a : Store.ndarray) (v : list R) :
  extends h h' -> holds h a v -> holds h' a v.
Proof. intros [ext ->]. apply holds_app. Qed.

(** C10.  Whatever the store and the arrays passed in, after a call of the
    vertical interpolator or of the cross-section builder, returned or
    raised, the store holds every array that existed before the call, where
    it was and with the elements it had: the observed pressures, the
    variable, the target levels and every column of every sounding are
    unchanged.  Every array in a returned result was allocated by the call. *)
Theorem inputs_unchanged_outputs_fresh :
  (forall (h : Store.heap) (vcoord_data interp_var interp_levels : Store.ndarray)
          (r : result Store.ndarray) (h' : Store.heap),
      Store.vertical_interpolate vcoord_data interp_var interp_levels h = (r, h') ->
      extends h h' /\ forall out, r = OK out -> fresh_array h out) /\
  (forall (griddata : list R -> list R -> list R -> list (list R)
                      -> list (list R) -> result (list (list R)))
          (height_to_pressure_std : list R -> list R)
          (uninit : nat -> string -> nat -> nat -> R)
          (stns : list string) (data : dict Store.DataFrame)
          (start end_ step : Z) (h : Store.heap)
          (r : result Store.cross_section) (h' : Store.heap),
      Store.radisonde_cross_section griddata height_to_pressure_std uninit
        stns data start end_ step h = (r, h') ->
      extends h h' /\ forall cs, r = OK cs -> fresh_cross_section h cs).
Proof.
  split.
  - intros h a b c r h' H.
    exact (vertical_interpolate_preserves h a b c h r h' (extends_refl h) H).
  - intros gd h2p u stns data start end_ step h r h' H.
    exact (radisonde_cross_section_preserves gd h2p u h stns data start end_ step
             h r h' (extends_refl h) H).
Qed.

Lemma demo_store_run :
  exists cs,
    fst (Store.radisonde_cross_section demo_griddata demo_height_to_pressure
           demo_uninit demo_stns demo_store_data 1000 100 450 demo_heap)
    = OK cs.
Proof. eexists. lazy. reflexivity. Qed.

Lemma inputs_unchanged_outputs_fresh_witness :
  (exists out h',
      Store.vertical_interpolate (Store.whole 0%nat) (Store.whole 1%nat) (Store.whole 15%nat)
        demo_heap = (OK out, h') /\
      extends demo_heap h' /\ fresh_array demo_heap out) /\
  (exists cs h',
      Store.radisonde_cross_section demo_griddata demo_height_to_pressure
        demo_uninit demo_stns demo_store_data 1000 100 450 demo_heap
      = (OK cs, h') /\
      extends demo_heap h' /\ fresh_cross_section demo_heap cs).
Proof.
  destruct inputs_unchanged_outputs_fresh as [Hvi Hcs]. split.
  - pose proof (vertical_interpolate_refines demo_heap
                  (Store.whole 0%nat) (Store.whole 1%nat) (Store.whole 15%nat)
                  [1000; 500] [20; -10] demo_levels
                  eq_refl eq_refl eq_refl) as Hrun.
    rewrite vertical_interpolate_eq in Hrun by (try discriminate; reflexivity).
    destruct Hrun as [out [h' [Hrun _]]].
    exists out, h'. split; [exact Hrun|].
    destruct (Hvi _ _ _ _ _ _ Hrun) as [Hext Hfresh].
    split; [exact Hext | apply Hfresh; reflexivity].
  - destruct demo_store_run as [cs Hrun].
    destruct (Store.radisonde_cross_section demo_griddata demo_height_to_pressure
                demo_uninit demo_stns demo_store_data 1000 100 450 demo_heap)
      as [r h'] eqn:E.
    cbn [fst] in Hrun. subst r.
    exists cs, h'. split; [reflexivity|].
    destruct (Hcs _ _ _ _ _ _ _ _ _ _ _ E) as [Hext Hfresh].
    split; [exact Hext | apply Hfresh; reflexivity].
Defined.

(** ** The two embeddings of the builder agree *)

Lemma extends_trans (h1 h2 h3 : Store.heap) :
  extends h1 h2 -> extends h2 h3 -> extends h1 h3.
Proof. intros [e1 ->] [e2 ->]. exists (e1 ++ e2). now rewrite app_assoc. Qed.

Lemma extends_holds2 (h h' : Store.heap) (a : Store.addr) (m : list (list R)) :
  extends h h' -> holds2 h a m -> holds2 h' a m.
Proof.
  intros [ext ->] H. unfold holds2 in *.
  rewrite nth_error_app1; [exact H|]. apply nth_error_Some. congruence.
Qed.

Lemma dict_holds_impl {A V : Type} (P Q : A -> V -> Prop) (d_st : dict A)
    (d : dict V) :
  (forall a v, P a v -> Q a v) -> dict_holds P d_st d -> dict_holds Q d_st d.
Proof.
  intros HPQ H. unfold dict_holds in *.
  induction H as [|ka kv d_st d [Hk Hv] _ IH]; constructor; auto.
Qed.

Lemma extends_data_holds (h h' : Store.heap) (data_st : dict Store.DataFrame)
    (data : dict DataFrame) :
  extends h h' -> data_holds h data_st data -> data_holds h' data_st data.
Proof.
  intros Hext. unfold data_holds. apply dict_holds_impl. intros df_st df.
  apply dict_holds_impl. intros a v. apply extends_holds, Hext.
Qed.

Lemma extends_grids_hold (h h' : Store.heap) (g_st : dict Store.addr)
    (g : dict ndarray2) :
  extends h h' -> dict_holds (holds2 h) g_st g -> dict_holds (holds2 h') g_st g.
Proof.
  intros Hext. apply dict_holds_impl. intros a m. apply extends_holds2, Hext.
Qed.

(** Looking a key up in a dictionary of arrays and in the dictionary it
    stands for. *)
Lemma getitem_holds {A V : Type} (P : A -> V -> Prop) (d_st : dict A)
    (d : dict V) (k : string) :
  dict_holds P d_st d ->
  match getitem d k with
  | OK v => exists a, getitem d_st k = OK a /\ P a v
  | Raise e => getitem d_st k = Raise e
  end.
Proof.
  intros H. unfold dict_holds in H.
  induction H as [|[k1 a] [k2 v] d_st d [Hk Hv] _ IH]; [reflexivity|].
  cbn [fst snd] in Hk, Hv. subst k2. cbn [getitem].
  destruct (String.eqb k1 k); [eauto | exact IH].
Qed.

Lemma dict_holds_keys {A V : Type} (P : A -> V -> Prop) (d_st : dict A)
    (d : dict V) :
  dict_holds P d_st d -> map fst d_st = map fst d.
Proof.
  intros H. unfold dict_holds in H.
  induction H as [|ka kv d_st d [Hk _] _ IH]; [reflexivity|].
  cbn [map]. now rewrite Hk, IH.
Qed.

Lemma dict_holds_app {A V : Type} (P : A -> V -> Prop) (d_st : dict A)
    (d : dict V) (k : string) (a : A) (v : V) :
  dict_holds P d_st d -> P a v -> dict_holds P (d_st ++ [(k, a)]) (d ++ [(k, v)]).
Proof.
  intros H Hav. unfold dict_holds. apply Forall2_app; [exact H|].
  constructor; [split; [reflexivity | exact Hav] | constructor].
Qed.

Lemma run_bind_OK {A B : Type} (m : Store.M A) (k : A -> Store.M B)
    (h h1 : Store.heap) (a : A) :
  m h = (OK a, h1) -> Store.bind m k h = k a h1.
Proof. intros H. unfold Store.bind. now rewrite H. Qed.

Lemma run_bind_Raise {A B : Type} (m : Store.M A) (k : A -> Store.M B)
    (h h1 : Store.heap) (e : exn) :
  m h = (Raise e, h1) -> Store.bind m k h = (Raise e, h1).
Proof. intros H. unfold Store.bind. now rewrite H. Qed.

Lemma run_load2 {B : Type} (h : Store.heap) (a : Store.addr)
    (m : list (list R)) (k : list (list R) -> Store.M B) :
  holds2 h a m -> Store.bind (Store.load2 a) k h = k m h.
Proof.
  intros H. apply run_bind_OK. unfold Store.load2. now rewrite H.
Qed.

Lemma run_new_array2 {B : Type} (h : Store.heap) (m : list (list R))
    (k : Store.addr -> Store.M B) :
  Store.bind (Store.new_array2 m) k h = k (length h) (h ++ [Store.Mat m]).
Proof. reflexivity. Qed.

Lemma holds2_new (h : Store.heap) (m : list (list R)) :
  holds2 (h ++ [Store.Mat m]) (length h) m.
Proof.
  unfold holds2. rewrite nth_error_app2, Nat.sub_diag by lia. reflexivity.
Qed.

Lemma holds2_bound (h : Store.heap) (a : Store.addr) (m : list (list R)) :
  holds2 h a m -> (a < length h)%nat.
Proof. intros H. apply nth_error_Some. unfold holds2 in H. congruence. Qed.

Lemma holds2_put (h : Store.heap) (a : Store.addr) (m : list (list R)) :
  (a < length h)%nat -> holds2 (Store.put h a (Store.Mat m)) a m.
Proof. intros H. apply nth_error_put_same, H. Qed.

(** [a[loc, :] = v] and [a[:] = src] on an array of the store. *)
Lemma run_setitem_row (h : Store.heap) (a : Store.addr) (cur : list (list R))
    (loc : nat) (v : list R) :
  holds2 h a cur ->
  match setitem_row cur loc v with
  | OK new =>
      Store.setitem_row a loc v h = (OK tt, Store.put h a (Store.Mat new))
  | Raise e => Store.setitem_row a loc v h = (Raise e, h)
  end.
Proof.
  intros H. unfold Store.setitem_row. rewrite (run_load2 h a cur) by exact H.
  destruct (setitem_row cur loc v) as [new|e].
  - rewrite run_lift_OK. unfold Store.store2. unfold holds2 in H. now rewrite H.
  - apply run_lift_Raise.
Qed.

Lemma run_setitem_all (h : Store.heap) (a : Store.addr) (cur src : list (list R)) :
  holds2 h a cur ->
  match setitem_all cur src with
  | OK new =>
      Store.setitem_all a src h = (OK tt, Store.put h a (Store.Mat new))
  | Raise e => Store.setitem_all a src h = (Raise e, h)
  end.
Proof.
  intros H. unfold Store.setitem_all. rewrite (run_load2 h a cur) by exact H.
  destruct (setitem_all cur src) as [new|e].
  - rewrite run_lift_OK. unfold Store.store2. unfold holds2 in H. now rewrite H.
  - apply run_lift_Raise.
Qed.

Lemma run_bind {A B : Type} (m : Store.M A) (k : A -> Store.M B)
    (h h1 : Store.heap) (r : result A) :
  m h = (r, h1) ->
  Store.bind m k h
  = match r with
    | OK a => k a h1
    | Raise e => (Raise e, h1)
    end.
Proof. intros H. unfold Store.bind. rewrite H. now destruct r. Qed.

Lemma station_attribute_reads (h : Store.heap)
    (data_st : dict Store.DataFrame) (data : dict DataFrame)
    (station name : string) :
  data_holds h data_st data ->
  Store.station_attribute data_st station name h
  = (df <- getitem data station ;;
     col <- getattr df name ;;
     series_first col, h).
Proof.
  intros Hdata. unfold Store.station_attribute.
  pose proof (getitem_holds _ _ _ station Hdata) as Hdf.
  destruct (getitem data station) as [df|e]; cbn [bind].
  - destruct Hdf as [df_st [Hdf_st Hdf]]. rewrite Hdf_st, run_lift_OK.
    pose proof (getitem_holds _ _ _ name Hdf) as Hcol. unfold getattr.
    destruct (getitem df name) as [col|e]; cbn [bind].
    + destruct Hcol as [a [Ha Hcol]]. rewrite Ha, run_lift_OK.
      rewrite (run_load h a col) by exact Hcol. reflexivity.
    + rewrite Hcol. reflexivity.
  - rewrite Hdf. reflexivity.
Qed.

Lemma run_station_attribute {B : Type} (h : Store.heap)
    (data_st : dict Store.DataFrame) (data : dict DataFrame)
    (station name : string) (k : R -> Store.M B) :
  data_holds h data_st data ->
  Store.bind (Store.station_attribute data_st station name) k h
  = match (df <- getitem data station ;;
           col <- getattr df name ;;
           series_first col) with
    | OK x => k x h
    | Raise e => (Raise e, h)
    end.
Proof.
  intros Hdata. apply run_bind. apply station_attribute_reads, Hdata.
Qed.

Lemma run_fill_station (h : Store.heap) (data_st : dict Store.DataFrame)
    (data : dict DataFrame) (vl : Store.ndarray) (levels : list R)
    (key : string) (tmp : Store.addr) (M : list (list R)) (c : coords)
    (station : string) (loc : nat) :
  data_holds h data_st data -> holds h vl levels -> holds2 h tmp M ->
  exists h',
    match fill_station data levels key (M, c) (station, loc) with
    | OK (M', c') =>
        Store.fill_station data_st vl key (tmp, c) (station, loc) h
        = (OK (tmp, c'), h') /\ holds2 h' tmp M'
    | Raise e =>
        Store.fill_station data_st vl key (tmp, c) (station, loc) h
        = (Raise e, h')
    end.
Proof.
  intros Hdata Hvl Htmp. unfold fill_station, Store.fill_station.
  destruct (String.eqb key "pressure").
  - rewrite (run_station_attribute h data_st data) by exact Hdata.
    destruct (getitem data station) as [df|e] eqn:Hst; cbn [bind]; [|eauto].
    destruct (getattr df "latitude") as [c1|e]; cbn [bind]; [|eauto].
    destruct (series_first c1) as [lat|e]; cbn [bind]; [|eauto].
    rewrite (run_station_attribute h data_st data) by exact Hdata.
    rewrite Hst. cbn [bind].
    destruct (getattr df "longitude") as [c2|e]; cbn [bind]; [|eauto].
    destruct (series_first c2) as [lon|e]; cbn [bind]; [|eauto].
    rewrite (run_station_attribute h data_st data) by exact Hdata.
    rewrite Hst. cbn [bind].
    destruct (getattr df "elevation") as [c3|e]; cbn [bind]; [|eauto].
    destruct (series_first c3) as [el|e]; cbn [bind]; [|eauto].
    rewrite (run_load h vl levels) by exact Hvl.
    pose proof (run_setitem_row h tmp M loc levels Htmp) as Hrow.
    destruct (setitem_row M loc levels) as [M'|e]; cbn [bind].
    + rewrite (run_bind_OK _ _ _ _ _ Hrow). eexists. split; [reflexivity|].
      apply holds2_put. eapply holds2_bound, Htmp.
    + rewrite (run_bind_Raise _ _ _ _ _ Hrow). eauto.
  - pose proof (getitem_holds _ _ _ station Hdata) as Hdf.
    destruct (getitem data station) as [df|e]; cbn [bind];
      [|rewrite Hdf, run_lift_Raise; eauto].
    destruct Hdf as [df_st [Hdf_st Hdf]]. rewrite Hdf_st, run_lift_OK.
    pose proof (getitem_holds _ _ _ "pressure"%string Hdf) as Hp.
    destruct (getitem df "pressure") as [p|e]; cbn [bind];
      [|rewrite Hp, run_lift_Raise; eauto].
    destruct Hp as [p_st [Hp_st Hp]]. rewrite Hp_st, !run_lift_OK.
    pose proof (getitem_holds _ _ _ key Hdf) as Hv.
    destruct (getitem df key) as [v|e]; cbn [bind];
      [|rewrite Hv, run_lift_Raise; eauto].
    destruct Hv as [v_st [Hv_st Hv]]. rewrite Hv_st, run_lift_OK.
    pose proof (vertical_interpolate_refines h p_st v_st vl p v levels
                  Hp Hv Hvl) as Hvi.
    destruct (vertical_interpolate p v levels) as [out|e]; cbn [bind].
    + destruct Hvi as [col [h1 [Hrun Hcol]]].
      rewrite (run_bind_OK _ _ _ _ _ Hrun).
      rewrite (run_load h1 col out) by exact Hcol.
      assert (Htmp1 : holds2 h1 tmp M).
      { eapply extends_holds2; [|exact Htmp].
        exact (proj1 (vertical_interpolate_preserves h p_st v_st vl h _ h1
                        (extends_refl h) Hrun)). }
      pose proof (run_setitem_row h1 tmp M loc out Htmp1) as Hrow.
      destruct (setitem_row M loc out) as [M'|e]; cbn [bind].
      * rewrite (run_bind_OK _ _ _ _ _ Hrow). eexists. split; [reflexivity|].
        apply holds2_put. eapply holds2_bound, Htmp1.
      * rewrite (run_bind_Raise _ _ _ _ _ Hrow). eauto.
    + destruct Hvi as [h1 Hrun]. rewrite (run_bind_Raise _ _ _ _ _ Hrun). eauto.
Qed.

Lemma run_station_loop (hb : Store.heap) (data_st : dict Store.DataFrame)
    (data : dict DataFrame) (vl : Store.ndarray) (levels : list R)
    (key : string) (tmp : Store.addr) :
  fresh hb tmp -> data_holds hb data_st data -> holds hb vl levels ->
  forall (sl : list (string * nat)) (h : Store.heap) (M : list (list R))
         (c : coords),
    extends hb h -> holds2 h tmp M ->
    exists h',
      extends hb h' /\
      match for_each (fill_station data levels key) sl (M, c) with
      | OK (M', c') =>
          Store.for_each (Store.fill_station data_st vl key) sl (tmp, c) h
          = (OK (tmp, c'), h') /\ holds2 h' tmp M'
      | Raise e =>
          Store.for_each (Store.fill_station data_st vl key) sl (tmp, c) h
          = (Raise e, h')
      end.
Proof.
  intros Hfresh Hdata Hvl. induction sl as [|[station loc] sl IH];
    intros h M c Hext Htmp.
  - exists h. split; [exact Hext|]. split; [reflexivity | exact Htmp].
  - rewrite for_each_cons. cbn [Store.for_each].
    destruct (run_fill_station h data_st data vl levels key tmp M c station loc
                (extends_data_holds _ _ _ _ Hext Hdata)
                (extends_holds _ _ _ _ Hext Hvl) Htmp) as [h1 Hstep].
    destruct (fill_station data levels key (M, c) (station, loc))
      as [[M1 c1]|e]; cbn [bind].
    + destruct Hstep as [Hrun Htmp1].
      assert (Hext1 : extends hb h1).
      { exact (proj1 (fill_station_preserves hb data_st vl key (tmp, c)
                        (station, loc) Hfresh h _ h1 Hext Hrun)). }
      rewrite (run_bind_OK _ _ _ _ _ Hrun). apply IH; assumption.
    + exists h1. split.
      * exact (proj1 (fill_station_preserves hb data_st vl key (tmp, c)
                        (station, loc) Hfresh h _ h1 Hext Hstep)).
      * apply run_bind_Raise, Hstep.
Qed.

Lemma run_fill_key (u : nat -> string -> nat -> nat -> R) (h : Store.heap)
    (data_st : dict Store.DataFrame) (data : dict DataFrame)
    (vl : Store.ndarray) (levels : list R) (stns : list string)
    (tg_st : dict Store.addr) (tg : dict ndarray2) (c : coords) (key : string) :
  data_holds h data_st data -> holds h vl levels ->
  dict_holds (holds2 h) tg_st tg ->
  exists h',
    extends h h' /\
    match fill_key u stns data levels (tg, c) key with
    | OK (tg', c') =>
        exists tg_st',
          Store.fill_key u stns data_st vl (length levels) (tg_st, c) key h
          = (OK (tg_st', c'), h') /\
          dict_holds (holds2 h') tg_st' tg'
    | Raise e =>
        Store.fill_key u stns data_st vl (length levels) (tg_st, c) key h
        = (Raise e, h')
    end.
Proof.
  intros Hdata Hvl Htg. unfold fill_key, Store.fill_key.
  rewrite run_new_array2.
  set (M0 := np_empty (u 0%nat key) (length stns) (length levels)).
  destruct (run_station_loop h data_st data vl levels key (length h)
              (Nat.le_refl _) Hdata Hvl
              (combine stns (seq 0 (length stns))) (h ++ [Store.Mat M0]) M0 c
              (extends_alloc _ _ _ (extends_refl h)) (holds2_new h M0))
    as [h' [Hext Hloop]].
  exists h'. split; [exact Hext|].
  destruct (for_each (fill_station data levels key)
              (combine stns (seq 0 (length stns))) (M0, c))
    as [[M' c']|e]; cbn [bind].
  - destruct Hloop as [Hrun Htmp]. rewrite (run_bind_OK _ _ _ _ _ Hrun).
    eexists. split; [reflexivity|]. cbn [fst snd].
    apply dict_holds_app; [|exact Htmp].
    eapply extends_grids_hold; eassumption.
  - apply run_bind_Raise, Hloop.
Qed.

Lemma run_key_loop (u : nat -> string -> nat -> nat -> R)
    (data_st : dict Store.DataFrame) (data : dict DataFrame)
    (vl : Store.ndarray) (levels : list R) (stns keys : list string) :
  forall (h : Store.heap) (tg_st : dict Store.addr) (tg : dict ndarray2)
         (c : coords),
    data_holds h data_st data -> holds h vl levels ->
    dict_holds (holds2 h) tg_st tg ->
    exists h',
      extends h h' /\
      match for_each (fill_key u stns data levels) keys (tg, c) with
      | OK (tg', c') =>
          exists tg_st',
            Store.for_each (Store.fill_key u stns data_st vl (length levels))
              keys (tg_st, c) h
            = (OK (tg_st', c'), h') /\
            dict_holds (holds2 h') tg_st' tg'
      | Raise e =>
          Store.for_each (Store.fill_key u stns data_st vl (length levels))
            keys (tg_st, c) h
          = (Raise e, h')
      end.
Proof.
  induction keys as [|key keys IH]; intros h tg_st tg c Hdata Hvl Htg.
  - exists h. split; [apply extends_refl|]. exists tg_st.
    split; [reflexivity | exact Htg].
  - rewrite for_each_cons. cbn [Store.for_each].
    destruct (run_fill_key u h data_st data vl levels stns tg_st tg c key
                Hdata Hvl Htg) as [h1 [Hext1 Hstep]].
    destruct (fill_key u stns data levels (tg, c) key) as [[tg1 c1]|e];
      cbn [bind].
    + destruct Hstep as [tg_st1 [Hrun Htg1]].
      rewrite (run_bind_OK _ _ _ _ _ Hrun).
      destruct (IH h1 tg_st1 tg1 c1
                  (extends_data_holds _ _ _ _ Hext1 Hdata)
                  (extends_holds _ _ _ _ Hext1 Hvl) Htg1)
        as [h' [Hext' Hrest]].
      exists h'. split; [eapply extends_trans; eassumption | exact Hrest].
    + exists h1. split; [exact Hext1 | apply run_bind_Raise, Hstep].
Qed.

Section GridRefines.

Variable griddata :
  list R -> list R -> list R -> list (list R) -> list (list R)
  -> result (list (list R)).
Variable uninit : nat -> string -> nat -> nat -> R.
Variables (tg_st : dict Store.addr) (tg : dict ndarray2) (nx plevs : nat).
Variables (dd_a pd_a xx_a pp_a : Store.addr) (ddist pdist xx pp : list (list R)).

Lemma run_grid_key (h : Store.heap) (g_st : dict Store.addr)
    (g : dict ndarray2) (key : string) :
  dict_holds (holds2 h) tg_st tg ->
  holds2 h dd_a ddist -> holds2 h pd_a pdist ->
  holds2 h xx_a xx -> holds2 h pp_a pp ->
  dict_holds (holds2 h) g_st g ->
  exists h',
    extends h h' /\
    match grid_key griddata uninit tg nx plevs ddist pdist xx pp g key with
    | OK g' =>
        exists g_st',
          Store.grid_key griddata uninit tg_st nx plevs dd_a pd_a xx_a pp_a
            g_st key h = (OK g_st', h') /\
          dict_holds (holds2 h') g_st' g'
    | Raise e =>
        Store.grid_key griddata uninit tg_st nx plevs dd_a pd_a xx_a pp_a
          g_st key h = (Raise e, h')
    end.
Proof.
  intros Htg Hdd Hpd Hxx Hpp Hg. unfold grid_key, Store.grid_key.
  rewrite run_new_array2.
  set (E := np_empty (uninit 1%nat key) nx plevs).
  set (h1 := h ++ [Store.Mat E]).
  assert (Hext1 : extends h h1) by apply extends_alloc, extends_refl.
  rewrite (run_load2 h1 dd_a ddist) by (eapply extends_holds2; eassumption).
  rewrite run_new_array. set (h2 := h1 ++ [Store.Vec (flatten ddist)]).
  assert (Hext2 : extends h h2) by apply extends_alloc, Hext1.
  rewrite (run_load2 h2 pd_a pdist) by (eapply extends_holds2; eassumption).
  rewrite run_new_array. set (h3 := h2 ++ [Store.Vec (flatten pdist)]).
  assert (Hext3 : extends h h3) by apply extends_alloc, Hext2.
  pose proof (getitem_holds _ _ _ key Htg) as Htmp.
  destruct (getitem tg key) as [tmp|e]; cbn [bind].
  2:{ rewrite Htmp, run_lift_Raise. exists h3. split; [exact Hext3 | reflexivity]. }
  destruct Htmp as [tmp_a [Htmp_a Htmp]]. rewrite Htmp_a, run_lift_OK.
  rewrite (run_load2 h3 tmp_a tmp) by (eapply extends_holds2; eassumption).
  rewrite run_new_array. set (h4 := h3 ++ [Store.Vec (flatten tmp)]).
  assert (Hext4 : extends h h4) by apply extends_alloc, Hext3.
  rewrite (run_load h4 _ (flatten ddist))
    by (unfold h4, h3; do 2 apply holds_app; apply holds_new).
  rewrite (run_load h4 _ (flatten pdist))
    by (unfold h4; apply holds_app; apply holds_new).
  rewrite (run_load h4 _ (flatten tmp)) by apply holds_new.
  rewrite (run_load2 h4 xx_a xx) by (eapply extends_holds2; eassumption).
  rewrite (run_load2 h4 pp_a pp) by (eapply extends_holds2; eassumption).
  destruct (griddata (flatten ddist) (flatten pdist) (flatten tmp) xx pp)
    as [src|e]; cbn [bind].
  2:{ rewrite run_lift_Raise. exists h4. split; [exact Hext4 | reflexivity]. }
  rewrite run_lift_OK, run_new_array2.
  set (h5 := h4 ++ [Store.Mat src]).
  assert (Hext5 : extends h h5) by apply extends_alloc, Hext4.
  rewrite (run_load2 h5 (length h4) src) by apply holds2_new.
  assert (HE : holds2 h5 (length h) E).
  { eapply extends_holds2; [|apply holds2_new].
    unfold h5, h4, h3, h2. do 4 apply extends_alloc. apply extends_refl. }
  pose proof (run_setitem_all h5 (length h) E src HE) as Hset.
  destruct (setitem_all E src) as [new|e]; cbn [bind].
  - rewrite (run_bind_OK _ _ _ _ _ Hset).
    exists (Store.put h5 (length h) (Store.Mat new)). split.
    + apply extends_put; [exact Hext5 | apply Nat.le_refl].
    + eexists. split; [reflexivity|]. apply dict_holds_app.
      * eapply extends_grids_hold; [|exact Hg].
        apply extends_put; [exact Hext5 | apply Nat.le_refl].
      * apply holds2_put. eapply holds2_bound, HE.
  - exists h5. split; [exact Hext5 | apply run_bind_Raise, Hset].
Qed.

Lemma run_grid_loop (keys : list string) :
  forall (h : Store.heap) (g_st : dict Store.addr) (g : dict ndarray2),
    dict_holds (holds2 h) tg_st tg ->
    holds2 h dd_a ddist -> holds2 h pd_a pdist ->
    holds2 h xx_a xx -> holds2 h pp_a pp ->
    dict_holds (holds2 h) g_st g ->
    exists h',
      extends h h' /\
      match for_each (grid_key griddata uninit tg nx plevs ddist pdist xx pp)
              keys g with
      | OK g' =>
          exists g_st',
            Store.for_each
              (Store.grid_key griddata uninit tg_st nx plevs dd_a pd_a xx_a pp_a)
              keys g_st h = (OK g_st', h') /\
            dict_holds (holds2 h') g_st' g'
      | Raise e =>
          Store.for_each
            (Store.grid_key griddata uninit tg_st nx plevs dd_a pd_a xx_a pp_a)
            keys g_st h = (Raise e, h')
      end.
Proof.
  induction keys as [|key keys IH]; intros h g_st g Htg Hdd Hpd Hxx Hpp Hg.
  - exists h. split; [apply extends_refl|]. exists g_st.
    split; [reflexivity | exact Hg].
  - rewrite for_each_cons. cbn [Store.for_each].
    destruct (run_grid_key h g_st g key Htg Hdd Hpd Hxx Hpp Hg)
      as [h1 [Hext1 Hstep]].
    destruct (grid_key griddata uninit tg nx plevs ddist pdist xx pp g key)
      as [g1|e]; cbn [bind].
    + destruct Hstep as [g_st1 [Hrun Hg1]].
      rewrite (run_bind_OK _ _ _ _ _ Hrun).
      destruct (IH h1 g_st1 g1
                  (extends_grids_hold _ _ _ _ Hext1 Htg)
                  (extends_holds2 _ _ _ _ Hext1 Hdd)
                  (extends_holds2 _ _ _ _ Hext1 Hpd)
                  (extends_holds2 _ _ _ _ Hext1 Hxx)
                  (extends_holds2 _ _ _ _ Hext1 Hpp) Hg1)
        as [h' [Hext' Hrest]].
      exists h'. split; [eapply extends_trans; eassumption | exact Hrest].
    + exists h1. split; [exact Hext1 | apply run_bind_Raise, Hstep].
Qed.

End GridRefines.

(** Run on a store that holds the columns of the soundings, the store
    version of the builder leaves everything that was in the store in
    place, raises what [radisonde_cross_section] raises, or returns a
    structure whose arrays hold what [radisonde_cross_section] returns. *)
Theorem radisonde_cross_section_refines
    (griddata : list R -> list R -> list R -> list (list R) -> list (list R)
                -> result (list (list R)))
    (height_to_pressure_std : list R -> list R)
    (uninit : nat -> string -> nat -> nat -> R)
    (stns : list string) (data_st : dict Store.DataFrame)
    (data : dict DataFrame) (start end_ step : Z) (h : Store.heap) :
  data_holds h data_st data ->
  exists h',
    extends h h' /\
    match radisonde_cross_section griddata height_to_pressure_std uninit
            stns data start end_ step with
    | OK cs =>
        exists cs_st,
          Store.radisonde_cross_section griddata height_to_pressure_std uninit
            stns data_st start end_ step h = (OK cs_st, h') /\
          cross_section_holds h' cs_st cs
    | Raise e =>
        Store.radisonde_cross_section griddata height_to_pressure_std uninit
          stns data_st start end_ step h = (Raise e, h')
    end.
Proof.
  intros Hdata.
  unfold radisonde_cross_section, Store.radisonde_cross_section,
    interpolate_stations.
  destruct (np_arange start (end_ - 1) (- step)) as [levels|e]; cbn [bind].
  2:{ rewrite run_lift_Raise. exists h. split; [apply extends_refl | reflexivity]. }
  rewrite run_lift_OK, run_new_array.
  set (vl := Store.whole (length h)).
  set (h1 := h ++ [Store.Vec (map IZR levels)]).
  assert (Hext1 : extends h h1) by apply extends_alloc, extends_refl.
  assert (Hvl : holds h1 vl (map IZR levels)) by apply holds_new.
  destruct (getitem_first stns) as [s0|e]; cbn [bind].
  2:{ rewrite run_lift_Raise. exists h1. split; [exact Hext1 | reflexivity]. }
  rewrite run_lift_OK.
  pose proof (getitem_holds _ _ _ s0 Hdata) as Hdf0.
  destruct (getitem data s0) as [df0|e]; cbn [bind].
  2:{ rewrite Hdf0, run_lift_Raise. exists h1.
      split; [exact Hext1 | reflexivity]. }
  destruct Hdf0 as [df0_st [Hdf0_st Hdf0]]. rewrite Hdf0_st, run_lift_OK.
  replace (keys_upto8 df0_st) with (keys_upto8 df0)
    by (unfold keys_upto8; now rewrite (dict_holds_keys _ _ _ Hdf0)).
  set (keys := dict_fromkeys (keys_upto8 df0)).
  rewrite <- (length_map IZR levels).
  set (levels_R := map IZR levels) in *.
  destruct (run_key_loop uninit data_st data vl levels_R stns keys h1 [] []
              {| lats := []; lons := []; elev := [] |}
              (extends_data_holds _ _ _ _ Hext1 Hdata) Hvl
              (Forall2_nil _)) as [h2 [Hext2 Hloop]].
  destruct (for_each (fill_key uninit stns data levels_R) keys
              ([], {| lats := []; lons := []; elev := [] |}))
    as [[tg c]|e]; cbn [bind].
  2:{ rewrite (run_bind_Raise _ _ _ _ _ Hloop). exists h2.
      split; [eapply extends_trans; eassumption | reflexivity]. }
  destruct Hloop as [tg_st [Hrun Htg]].
  rewrite (run_bind_OK _ _ _ _ _ Hrun). cbn [fst snd].
  assert (Hext02 : extends h h2) by (eapply extends_trans; eassumption).
  destruct (getitem_first (lons c)) as [lon0|e]; cbn [bind].
  2:{ rewrite run_lift_Raise. exists h2. split; [exact Hext02 | reflexivity]. }
  rewrite run_lift_OK.
  destruct (getitem_first (lats c)) as [lat0|e]; cbn [bind].
  2:{ rewrite run_lift_Raise. exists h2. split; [exact Hext02 | reflexivity]. }
  rewrite run_lift_OK.
  destruct (geod_inv_dist (repeat lon0 (length stns)) (repeat lat0 (length stns))
              (lons c) (lats c)) as [dist|e]; cbn [bind].
  2:{ rewrite run_lift_Raise. exists h2. split; [exact Hext02 | reflexivity]. }
  rewrite run_lift_OK, !run_new_array.
  set (dist_a := Store.whole (length h2)).
  set (h3 := h2 ++ [Store.Vec dist]).
  set (ground_a := Store.whole (length h3)).
  set (h4 := h3 ++ [Store.Vec (height_to_pressure_std (elev c))]).
  assert (Hdist4 : holds h4 dist_a dist) by (apply holds_app, holds_new).
  assert (Hground4 : holds h4 ground_a (height_to_pressure_std (elev c)))
    by apply holds_new.
  assert (Hext24 : extends h2 h4)
    by (do 2 apply extends_alloc; apply extends_refl).
  rewrite (run_load h4 dist_a dist) by exact Hdist4.
  destruct (getitem_first dist) as [d_first|e]; cbn [bind].
  2:{ rewrite run_lift_Raise. exists h4.
      split; [eapply extends_trans; eassumption | reflexivity]. }
  rewrite run_lift_OK. rewrite (run_load h4 dist_a dist) by exact Hdist4.
  destruct (getitem_last dist) as [d_last|e]; cbn [bind].
  2:{ rewrite run_lift_Raise. exists h4.
      split; [eapply extends_trans; eassumption | reflexivity]. }
  rewrite run_lift_OK, run_new_array.
  set (x := np_linspace d_first d_last 100).
  set (h5 := h4 ++ [Store.Vec x]).
  assert (Hext15 : extends h1 h5).
  { eapply extends_trans; [exact Hext2|].
    eapply extends_trans; [exact Hext24|].
    apply extends_alloc, extends_refl. }
  rewrite (run_load h5 _ x) by apply holds_new.
  rewrite (run_load h5 vl levels_R)
    by (eapply extends_holds; [exact Hext15 | exact Hvl]).
  rewrite !run_new_array2.
  set (pp := fst (np_meshgrid levels_R x)).
  set (xx := snd (np_meshgrid levels_R x)).
  set (h6 := h5 ++ [Store.Mat pp]).
  set (h7 := h6 ++ [Store.Mat xx]).
  assert (Hext57 : extends h5 h7)
    by (do 2 apply extends_alloc; apply extends_refl).
  rewrite (run_load h7 vl levels_R)
    by (eapply extends_holds; [|exact Hvl];
        eapply extends_trans; [exact Hext15 | exact Hext57]).
  rewrite (run_load h7 dist_a dist)
    by (eapply extends_holds; [|exact Hdist4];
        eapply extends_trans; [|exact Hext57];
        apply extends_alloc, extends_refl).
  rewrite !run_new_array2.
  set (pdist := fst (np_meshgrid levels_R dist)).
  set (ddist := snd (np_meshgrid levels_R dist)).
  set (h8 := h7 ++ [Store.Mat pdist]).
  set (h9 := h8 ++ [Store.Mat ddist]).
  assert (Hext79 : extends h7 h9)
    by (do 2 apply extends_alloc; apply extends_refl).
  assert (Hext49 : extends h4 h9).
  { eapply extends_trans; [|exact Hext79].
    eapply extends_trans; [|exact Hext57]. apply extends_alloc, extends_refl. }
  assert (Hext29 : extends h2 h9) by (eapply extends_trans; eassumption).
  assert (Hpp : holds2 h9 (length h5) pp).
  { eapply extends_holds2; [exact Hext79|].
    eapply extends_holds2; [apply extends_alloc, extends_refl|].
    apply holds2_new. }
  assert (Hxx : holds2 h9 (length h6) xx).
  { eapply extends_holds2; [exact Hext79 | apply holds2_new]. }
  assert (Hpd : holds2 h9 (length h7) pdist).
  { eapply extends_holds2; [apply extends_alloc, extends_refl|].
    apply holds2_new. }
  assert (Hdd : holds2 h9 (length h8) ddist) by apply holds2_new.
  destruct (run_grid_loop griddata uninit tg_st tg (length x) (length levels_R)
              (length h8) (length h7) (length h6) (length h5)
              ddist pdist xx pp keys h9 [] []
              (extends_grids_hold _ _ _ _ Hext29 Htg) Hdd Hpd Hxx Hpp
              (Forall2_nil _)) as [h10 [Hext910 Hgrid]].
  assert (Hext010 : extends h h10).
  { eapply extends_trans; [exact Hext02|].
    eapply extends_trans; [exact Hext29 | exact Hext910]. }
  exists h10. split; [exact Hext010|].
  unfold np_meshgrid in *. cbv beta iota zeta. cbn [fst snd] in *.
  fold pp xx pdist ddist.
  destruct (for_each
              (grid_key griddata uninit tg (length x) (length levels_R)
                 ddist pdist xx pp) keys []) as [grid|e]; cbn [bind].
  2:{ apply run_bind_Raise, Hgrid. }
  destruct Hgrid as [grid_st [Hrun_grid Hgrid]].
  rewrite (run_bind_OK _ _ _ _ _ Hrun_grid).
  eexists. split; [reflexivity|].
  unfold cross_section_holds.
  cbn [Store.grid_data Store.obs_distance Store.x_grid Store.p_grid
       Store.elevation grid_data obs_distance x_grid p_grid elevation].
  split; [exact Hgrid|].
  assert (Hext410 : extends h4 h10) by (eapply extends_trans; eassumption).
  split; [exact (extends_holds _ _ _ _ Hext410 Hdist4)|].
  split; [exact (extends_holds2 _ _ _ _ Hext910 Hxx)|].
  split; [exact (extends_holds2 _ _ _ _ Hext910 Hpp)|].
  exact (extends_holds _ _ _ _ Hext410 Hground4).
Qed.

(** * Small runs *)

(** The default grid, [np.arange(1000, 99, -10)], has 91 levels, from 1000
    down to 100 (the docstring of the builder says 90). *)
Example default_grid :
  exists levels,
    np_arange 1000 (100 - 1) (- 10) = OK levels /\
    length levels = 91%nat /\ hd 0%Z levels = 1000%Z /\ last levels 0%Z = 100%Z.
Proof. eexists. split; [reflexivity|]. repeat split. Qed.

(** A step of 0 raises; a grid that would climb is empty. *)
Example degenerate_grids :
  np_arange 1000 (100 - 1) (- 0) = Raise LibraryError /\
  np_arange 100 (1000 - 1) (- 10) = OK [].
Proof. split; reflexivity. Qed.

Example dict_fromkeys_once :
  dict_fromkeys ["a"; "b"; "a"; "c"; "b"]%string = ["a"; "b"; "c"]%string.
Proof. reflexivity. Qed.

(** Half way between two sample points [np.interp] is half way between the
    samples; left of the first and right of the last it is flat. *)
Example np_interp_run :
  np_interp [1; -1; 5] [0; 2] [10; 20] = OK [15; 10; 20].
Proof.
  unfold np_interp. cbn [length Nat.eqb negb map]. f_equal.
  assert (Hs : strictly_increasing [0; 2]) by (simpl; split; [lra | exact I]).
  assert (H1 : interp_one [0; 2] [10; 20] 1 = 15).
  { rewrite (interp_one_between [0; 2] [10; 20] 0%nat 1 Hs);
      [simpl; field | simpl; lia | simpl; lra]. }
  assert (H2 : interp_one [0; 2] [10; 20] (-1) = 10).
  { unfold interp_one. simpl. destruct (Rlt_dec (-1) 0); [reflexivity | lra]. }
  assert (H3 : interp_one [0; 2] [10; 20] 5 = 20).
  { unfold interp_one. simpl.
    destruct (Rlt_dec 5 0); [lra|]. destruct (Rlt_dec 5 2); [lra | reflexivity]. }
  now rewrite H1, H2, H3.
Qed.

(** The store of the running example holds the soundings of the running
    example. *)
Example demo_heap_holds_demo_data : data_holds demo_heap demo_store_data demo_data.
Proof.
  unfold data_holds, dict_holds, demo_store_data, demo_data, demo_frame, sounding.
  repeat (constructor; [split; [reflexivity|]|]); try constructor;
    repeat (constructor; [split; reflexivity|]); constructor.
Qed.

(** * More on the vertical interpolator *)

(** ** Helper lemmas: what [search] finds *)

Lemma search_le_length (xp : list R) (x : R) : (search xp x <= length xp)%nat.
Proof.
  induction xp as [|x0 xp IH]; simpl; [lia|].
  destruct (Rlt_dec x x0); lia.
Qed.

Lemma search_lower (xp : list R) (x : R) :
  forall j, search xp x = S j -> nth j xp 0 <= x.
Proof.
  induction xp as [|x0 xp IH]; intros j H; [discriminate|].
  simpl in H. destruct (Rlt_dec x x0) as [|Hge]; [discriminate|].
  injection H as H. destruct j as [|j]; simpl; [lra | apply IH, H].
Qed.

Lemma search_upper (xp : list R) (x : R) :
  forall j, search xp x = j -> (j < length xp)%nat -> x < nth j xp 0.
Proof.
  induction xp as [|x0 xp IH]; intros j H Hj; [simpl in Hj; lia|].
  simpl in H. destruct (Rlt_dec x x0) as [Hlt|Hge].
  - subst j. exact Hlt.
  - destruct j as [|j]; [discriminate|]. injection H as H.
    simpl in Hj. simpl. apply IH; [exact H | lia].
Qed.

Lemma search_monotone (xp : list R) (x x' : R) :
  x <= x' -> (search xp x <= search xp x')%nat.
Proof.
  intros Hx. induction xp as [|x0 xp IH]; simpl; [lia|].
  destruct (Rlt_dec x x0), (Rlt_dec x' x0); try lia. lra.
Qed.

Lemma Forall_nth_range (lo hi : R) (l : list R) (k : nat) :
  Forall (fun v => lo <= v <= hi) l -> (k < length l)%nat ->
  lo <= nth k l 0 <= hi.
Proof.
  intros H Hk. rewrite Forall_forall in H. apply H, nth_In, Hk.
Qed.

(** On any sample points, [np.interp] stays within the range of the samples. *)
Lemma interp_one_range (lo hi : R) (xp fp : list R) (x : R) :
  xp <> [] -> length fp = length xp ->
  Forall (fun v => lo <= v <= hi) fp ->
  lo <= interp_one xp fp x <= hi.
Proof.
  intros Hne Hlen Hfp. unfold interp_one.
  assert (Hn : (0 < length xp)%nat) by (destruct xp; [congruence | simpl; lia]).
  pose proof (search_le_length xp x) as Hle.
  destruct (search xp x) as [|j] eqn:Hs.
  - apply Forall_nth_range; [exact Hfp | lia].
  - destruct (Nat.eqb_spec (S j) (length xp)) as [He|Hneq].
    + apply Forall_nth_range; [exact Hfp | lia].
    + destruct (Req_dec_T (nth j xp 0) x) as [_|Hx].
      * apply Forall_nth_range; [exact Hfp | lia].
      * pose proof (search_lower xp x j Hs) as Hlo.
        assert (Hup : x < nth (S j) xp 0) by (apply search_upper; [exact Hs | lia]).
        pose proof (Forall_nth_range lo hi fp j Hfp ltac:(lia)) as Ha.
        pose proof (Forall_nth_range lo hi fp (S j) Hfp ltac:(lia)) as Hb.
        set (xa := nth j xp 0) in *. set (xb := nth (S j) xp 0) in *.
        set (ya := nth j fp 0) in *. set (yb := nth (S j) fp 0) in *.
        cbv zeta.
        replace ((yb - ya) / (xb - xa) * (x - xa) + ya)
          with (ya + (yb - ya) * ((x - xa) / (xb - xa))) by (field; lra).
        assert (Ht : 0 <= (x - xa) / (xb - xa) <= 1).
        { split.
          - apply Rmult_le_reg_r with (xb - xa); [lra|].
            unfold Rdiv. rewrite Rmult_assoc, Rinv_l by lra. lra.
          - apply Rmult_le_reg_r with (xb - xa); [lra|].
            unfold Rdiv. rewrite Rmult_assoc, Rinv_l by lra. lra. }
        pose proof (chord_between ya yb _ Ht) as Hc.
        unfold Rmin, Rmax in Hc. destruct (Rle_dec ya yb); lra.
Qed.

Lemma hd_in_range (lo hi : R) (l : list R) :
  l <> [] -> Forall (fun v => lo <= v <= hi) l -> lo <= hd 0 l <= hi.
Proof. intros Hne H. destruct l; [congruence|]. now inversion H. Qed.

Lemma last_in_range (lo hi : R) (l : list R) :
  l <> [] -> Forall (fun v => lo <= v <= hi) l -> lo <= last l 0 <= hi.
Proof.
  intros Hne H. rewrite Forall_forall in H. apply H.
  destruct l as [|a l]; [congruence|].
  clear. revert a. induction l as [|b l IH]; intros a; [left; reflexivity|].
  right. apply IH.
Qed.

Lemma nonempty_of_length (ps vs : list R) :
  ps <> [] -> length vs = length ps -> vs <> [].
Proof. intros Hps Hlen ->. destruct ps; [congruence | discriminate]. Qed.

(** X1.  The vertical interpolator returns exactly when there is at least
    one observed level and as many values as observed pressures; what it
    returns is as long as the target grid, and when it does not return it
    raises a ValueError, whatever the target grid. *)
Theorem vertical_interpolate_returns_iff (ps vs ls : list R) :
  ((exists out, vertical_interpolate ps vs ls = OK out) <->
   (ps <> [] /\ length vs = length ps)) /\
  (vertical_interpolate ps vs ls = Raise ValueError \/
   exists out, vertical_interpolate ps vs ls = OK out /\ length out = length ls).
Proof.
  split.
  - split.
    + intros [out H]. apply vertical_interpolate_inv in H. tauto.
    + intros [Hne Hlen]. eexists. apply vertical_interpolate_eq; assumption.
  - destruct (Nat.eq_dec (length ps) 0) as [H0|H0].
    { left. unfold vertical_interpolate, np_interp.
      rewrite !length_rev, !length_map, H0. reflexivity. }
    destruct (Nat.eq_dec (length vs) (length ps)) as [Hlen|Hlen].
    + right. exists (map (level_value ps vs) ls). split; [|apply length_map].
      apply vertical_interpolate_eq; [|exact Hlen].
      intros ->. apply H0. reflexivity.
    + left. unfold vertical_interpolate, np_interp.
      rewrite !length_rev, !length_map.
      destruct (Nat.eqb_spec (length ps) 0) as [|_]; [reflexivity|].
      destruct (Nat.eqb_spec (length vs) (length ps)) as [|_]; [congruence|].
      reflexivity.
Qed.

(** X2.  The vertical interpolator never overshoots: for a strictly
    decreasing sounding of positive pressures, if every observed value lies
    between [lo] and [hi], so does every output, at target levels inside and
    outside the observed range alike. *)
Theorem vertical_interpolate_within_observed_range (lo hi : R) (ps vs ls : list R) :
  strictly_decreasing ps -> Forall (fun p => 0 < p) ps ->
  ps <> [] -> length vs = length ps ->
  Forall (fun v => lo <= v <= hi) vs ->
  exists out,
    vertical_interpolate ps vs ls = OK out /\
    Forall (fun y => lo <= y <= hi) out.
Proof.
  intros _ _ Hne Hlen Hvs. exists (map (level_value ps vs) ls).
  split; [now apply vertical_interpolate_eq|].
  pose proof (nonempty_of_length ps vs Hne Hlen) as Hvne.
  apply Forall_forall. intros y Hy.
  apply in_map_iff in Hy. destruct Hy as [l [<- _]].
  unfold level_value.
  destruct (Rltb l (last ps 0)); [now apply last_in_range|].
  destruct (Rgtb l (hd 0 ps)); [now apply hd_in_range|].
  apply interp_one_range.
  - intros H. apply Hne. apply (f_equal (@rev R)) in H.
    rewrite rev_involutive in H. simpl in H.
    destruct ps; [reflexivity | discriminate].
  - now rewrite !length_rev, length_map.
  - apply Forall_rev. exact Hvs.
Qed.

Lemma vertical_interpolate_within_observed_range_witness :
  exists out,
    vertical_interpolate [1000; 850; 700; 500] [20; 15; 5; -10]
      [1050; 900; 600; 100] = OK out /\
    Forall (fun y => -10 <= y <= 20) out.
Proof.
  apply (vertical_interpolate_within_observed_range (-10) 20
           [1000; 850; 700; 500] [20; 15; 5; -10] [1050; 900; 600; 100]).
  - simpl. repeat split; lra.
  - repeat constructor; lra.
  - discriminate.
  - reflexivity.
  - repeat constructor; lra.
Defined.

(** ** Helper lemmas: changes of unit *)

Lemma nth_map_in (f : R -> R) (l : list R) (k : nat) :
  (k < length l)%nat -> nth k (map f l) 0 = f (nth k l 0).
Proof.
  intros Hk. rewrite (nth_indep _ 0 (f 0)) by (rewrite length_map; exact Hk).
  apply map_nth.
Qed.

Lemma hd_map_in (f : R -> R) (l : list R) :
  l <> [] -> hd 0 (map f l) = f (hd 0 l).
Proof. destruct l; [congruence | reflexivity]. Qed.

Lemma last_map_in (f : R -> R) (l : list R) :
  l <> [] -> last (map f l) 0 = f (last l 0).
Proof.
  intros Hne. rewrite !last_nth, length_map.
  apply nth_map_in. destruct l; [congruence | simpl; lia].
Qed.

Lemma interp_one_affine (a b : R) (xp fp : list R) (x : R) :
  xp <> [] -> length fp = length xp ->
  interp_one xp (map (fun v => a * v + b) fp) x = a * interp_one xp fp x + b.
Proof.
  intros Hne Hlen. unfold interp_one.
  assert (Hn : (0 < length xp)%nat) by (destruct xp; [congruence | simpl; lia]).
  pose proof (search_le_length xp x) as Hle.
  destruct (search xp x) as [|j].
  - apply nth_map_in. lia.
  - destruct (Nat.eqb_spec (S j) (length xp)) as [He|Hneq].
    + apply nth_map_in. lia.
    + destruct (Req_dec_T (nth j xp 0) x) as [_|_].
      * apply nth_map_in. lia.
      * cbv zeta. rewrite !nth_map_in by lia. unfold Rdiv. ring.
Qed.

Lemma search_shift (c : R) (xp : list R) (x : R) :
  search (map (Rplus c) xp) (c + x) = search xp x.
Proof.
  induction xp as [|x0 xp IH]; [reflexivity|].
  simpl. destruct (Rlt_dec (c + x) (c + x0)), (Rlt_dec x x0);
    try reflexivity; try lra. now rewrite IH.
Qed.

Lemma interp_one_shift (c : R) (xp fp : list R) (x : R) :
  interp_one (map (Rplus c) xp) fp (c + x) = interp_one xp fp x.
Proof.
  unfold interp_one. rewrite search_shift, length_map.
  pose proof (search_le_length xp x) as Hle.
  destruct (search xp x) as [|j]; [reflexivity|].
  destruct (Nat.eqb_spec (S j) (length xp)) as [He|Hneq]; [reflexivity|].
  rewrite !nth_map_in by lia.
  destruct (Req_dec_T (c + nth j xp 0) (c + x)), (Req_dec_T (nth j xp 0) x);
    try reflexivity; try lra.
  cbv zeta.
  replace (c + nth (S j) xp 0 - (c + nth j xp 0))
    with (nth (S j) xp 0 - nth j xp 0) by ring.
  replace (c + x - (c + nth j xp 0)) with (x - nth j xp 0) by ring.
  reflexivity.
Qed.

Lemma map_ln_scaled (k : R) (ps : list R) :
  0 < k -> Forall (fun p => 0 < p) ps ->
  map ln (map (Rmult k) ps) = map (Rplus (ln k)) (map ln ps).
Proof.
  intros Hk Hpos. rewrite !map_map. apply map_ext_in. intros p Hp.
  rewrite Forall_forall in Hpos. apply ln_mult; [exact Hk | apply Hpos, Hp].
Qed.

Lemma Rltb_scaled (k x y : R) : 0 < k -> Rltb (k * x) (k * y) = Rltb x y.
Proof.
  intros Hk. destruct (Rltb x y) eqn:E.
  - apply Rltb_true. apply Rltb_true in E. nra.
  - apply Rltb_false. apply Rltb_false in E. nra.
Qed.

Lemma level_value_scaled (k : R) (ps vs : list R) (l : R) :
  0 < k -> Forall (fun p => 0 < p) ps -> ps <> [] ->
  level_value (map (Rmult k) ps) vs (k * l) = level_value ps vs l.
Proof.
  intros Hk Hpos Hne. unfold level_value, Rgtb.
  rewrite (last_map_in (Rmult k)), (hd_map_in (Rmult k)) by exact Hne.
  rewrite !Rltb_scaled by exact Hk.
  destruct (Rltb l (last ps 0)) eqn:E1; [reflexivity|].
  destruct (Rltb (hd 0 ps) l) eqn:E2; [reflexivity|].
  assert (Hl : 0 < l).
  { apply Rltb_false in E1.
    assert (0 < last ps 0); [|lra].
    rewrite last_nth. apply Forall_nth_pos; [exact Hpos|].
    destruct ps; [congruence | simpl; lia]. }
  rewrite ln_mult by assumption.
  rewrite map_ln_scaled by assumption.
  rewrite <- map_rev. apply interp_one_shift.
Qed.

Lemma vertical_interpolate_raises (ps vs ls : list R) :
  ps = [] \/ length vs <> length ps ->
  vertical_interpolate ps vs ls = Raise ValueError.
Proof.
  intros H. unfold vertical_interpolate, np_interp.
  rewrite !length_rev, !length_map.
  destruct (Nat.eqb_spec (length ps) 0) as [|H0]; [reflexivity|].
  destruct (Nat.eqb_spec (length vs) (length ps)) as [He|_]; [|reflexivity].
  destruct H as [->|H]; [simpl in H0; lia | congruence].
Qed.

Lemma shape_cases (ps vs : list R) :
  (ps <> [] /\ length vs = length ps) \/ (ps = [] \/ length vs <> length ps).
Proof.
  destruct ps as [|p ps]; [right; left; reflexivity|].
  destruct (Nat.eq_dec (length vs) (length (p :: ps))) as [H|H].
  - left. split; [discriminate | exact H].
  - right. right. exact H.
Qed.

(** X3.  The vertical interpolator commutes with an affine change of unit of
    the interpolated variable (Celsius to Kelvin or to Fahrenheit, knots to
    metres per second): interpolating [a * v + b] gives [a * y + b] where
    interpolating [v] gives [y], and raises where that raises. *)
Theorem vertical_interpolate_affine (a b : R) (ps vs ls : list R) :
  vertical_interpolate ps (map (fun v => a * v + b) vs) ls
  = match vertical_interpolate ps vs ls with
    | OK out => OK (map (fun y => a * y + b) out)
    | Raise e => Raise e
    end.
Proof.
  destruct (shape_cases ps vs) as [[Hne Hlen]|Hbad].
  - pose proof (nonempty_of_length ps vs Hne Hlen) as Hvne.
    rewrite !vertical_interpolate_eq by (try rewrite length_map; assumption).
    f_equal. rewrite map_map. apply map_ext. intros l.
    unfold level_value.
    rewrite (last_map_in (fun v => a * v + b)) by exact Hvne.
    rewrite (hd_map_in (fun v => a * v + b)) by exact Hvne.
    destruct (Rltb l (last ps 0)); [reflexivity|].
    destruct (Rgtb l (hd 0 ps)); [reflexivity|].
    rewrite <- (map_rev (fun v => a * v + b)). apply interp_one_affine.
    + intros H. apply Hne. apply (f_equal (@length R)) in H.
      rewrite length_rev, length_map in H. destruct ps; [reflexivity | discriminate].
    + now rewrite !length_rev, length_map.
  - rewrite (vertical_interpolate_raises ps vs ls Hbad).
    apply vertical_interpolate_raises. rewrite length_map. exact Hbad.
Qed.

(** X4.  The vertical interpolator does not depend on the unit of pressure:
    for positive observed pressures, multiplying the observed pressures and
    the target levels by the same positive factor (hPa to Pa) leaves the
    result as it is, returned or raised. *)
Theorem vertical_interpolate_pressure_unit (k : R) (ps vs ls : list R) :
  0 < k -> Forall (fun p => 0 < p) ps ->
  vertical_interpolate (map (Rmult k) ps) vs (map (Rmult k) ls)
  = vertical_interpolate ps vs ls.
Proof.
  intros Hk Hpos. destruct (shape_cases ps vs) as [[Hne Hlen]|Hbad].
  - rewrite !vertical_interpolate_eq;
      try assumption; try (rewrite length_map; assumption).
    + f_equal. rewrite map_map. apply map_ext. intros l.
      now apply level_value_scaled.
    + intros H. apply Hne. destruct ps; [reflexivity | discriminate].
  - rewrite (vertical_interpolate_raises ps vs ls Hbad).
    apply vertical_interpolate_raises. rewrite length_map.
    destruct Hbad as [->|H]; [left; reflexivity | right; exact H].
Qed.

Lemma vertical_interpolate_pressure_unit_witness :
  vertical_interpolate (map (Rmult 100) [1000; 850; 700; 500]) [20; 15; 5; -10]
    (map (Rmult 100) [1000; 900; 100])
  = vertical_interpolate [1000; 850; 700; 500] [20; 15; 5; -10] [1000; 900; 100].
Proof.
  apply (vertical_interpolate_pressure_unit 100
           [1000; 850; 700; 500] [20; 15; 5; -10] [1000; 900; 100]).
  - lra.
  - repeat constructor; lra.
Defined.



(** ** Helper lemmas: monotone profiles *)

Lemma non_increasing_tail (a : R) (l : list R) :
  non_increasing (a :: l) -> non_increasing l.
Proof. destruct l; simpl; tauto. Qed.

Lemma non_increasing_adjacent (l : list R) (k : nat) :
  non_increasing l -> (S k < length l)%nat -> nth (S k) l 0 <= nth k l 0.
Proof.
  revert k. induction l as [|a t IH]; intros k Hs Hk; simpl in Hk; [lia|].
  destruct k as [|k].
  - destruct t as [|b t']; simpl in *; [lia | lra].
  - change (nth (S k) t 0 <= nth k t 0). apply IH; [|lia].
    eapply non_increasing_tail; eassumption.
Qed.

Lemma non_increasing_nth_le (l : list R) (i j : nat) :
  non_increasing l -> (i <= j)%nat -> (j < length l)%nat ->
  nth j l 0 <= nth i l 0.
Proof.
  intros Hs Hij Hj. induction Hij as [|j Hij IH]; [lra|].
  apply Rle_trans with (nth j l 0); [|apply IH; lia].
  apply non_increasing_adjacent; assumption.
Qed.

Lemma non_decreasing_tail (a : R) (l : list R) :
  non_decreasing (a :: l) -> non_decreasing l.
Proof. destruct l; simpl; tauto. Qed.

Lemma non_decreasing_adjacent (l : list R) (k : nat) :
  non_decreasing l -> (S k < length l)%nat -> nth k l 0 <= nth (S k) l 0.
Proof.
  revert k. induction l as [|a t IH]; intros k Hs Hk; simpl in Hk; [lia|].
  destruct k as [|k].
  - destruct t as [|b t']; simpl in *; [lia | lra].
  - change (nth k t 0 <= nth (S k) t 0). apply IH; [|lia].
    eapply non_decreasing_tail; eassumption.
Qed.

Lemma non_decreasing_nth_le (l : list R) (i j : nat) :
  non_decreasing l -> (i <= j)%nat -> (j < length l)%nat ->
  nth i l 0 <= nth j l 0.
Proof.
  intros Hs Hij Hj. induction Hij as [|j Hij IH]; [lra|].
  apply Rle_trans with (nth j l 0); [apply IH; lia|].
  apply non_decreasing_adjacent; assumption.
Qed.

Lemma non_decreasing_of_adjacent (l : list R) :
  (forall k, (S k < length l)%nat -> nth k l 0 <= nth (S k) l 0) ->
  non_decreasing l.
Proof.
  induction l as [|a t IH]; intros H; [exact I|].
  destruct t as [|b t']; [exact I|]. split.
  - apply (H O). simpl. lia.
  - apply IH. intros k Hk. apply (H (S k)). simpl in *. lia.
Qed.

Lemma rev_non_decreasing (vs : list R) :
  non_increasing vs -> non_decreasing (rev vs).
Proof.
  intros Hs. apply non_decreasing_of_adjacent. intros k Hk.
  rewrite length_rev in Hk. rewrite !rev_nth by lia.
  replace (length vs - S k)%nat with (S (length vs - S (S k))) by lia.
  apply non_increasing_adjacent; [exact Hs | lia].
Qed.

(** Inside a segment [np.interp] is the chord, also at its left end. *)
Lemma interp_one_segment (xp fp : list R) (x : R) (k : nat) :
  search xp x = S k -> (S k < length xp)%nat ->
  interp_one xp fp x
  = nth k fp 0
    + (nth (S k) fp 0 - nth k fp 0)
      * ((x - nth k xp 0) / (nth (S k) xp 0 - nth k xp 0)).
Proof.
  intros Hs Hk. unfold interp_one. rewrite Hs.
  destruct (Nat.eqb_spec (S k) (length xp)) as [He|_]; [lia|].
  pose proof (search_lower xp x k Hs) as Hlo.
  assert (Hup : x < nth (S k) xp 0) by (apply search_upper; [exact Hs | lia]).
  destruct (Req_dec_T (nth k xp 0) x) as [He|_].
  - rewrite He. unfold Rdiv. ring.
  - cbv zeta. field. lra.
Qed.

(** What [np.interp] returns lies between the samples around [x]. *)
Lemma interp_one_sandwich (xp fp : list R) (x : R) :
  xp <> [] -> length fp = length xp -> non_decreasing fp ->
  nth (pred (search xp x)) fp 0 <= interp_one xp fp x
  <= nth (Nat.min (search xp x) (length xp - 1)) fp 0.
Proof.
  intros Hne Hlen Hfp.
  assert (Hn : (0 < length xp)%nat) by (destruct xp; [congruence | simpl; lia]).
  pose proof (search_le_length xp x) as Hle.
  destruct (search xp x) as [|k] eqn:Hs.
  - unfold interp_one. rewrite Hs. simpl. lra.
  - destruct (Nat.eq_dec (S k) (length xp)) as [He|Hneq].
    + unfold interp_one. rewrite Hs.
      destruct (Nat.eqb_spec (S k) (length xp)) as [_|]; [|lia].
      replace (Nat.min (S k) (length xp - 1)) with k by lia. simpl. lra.
    + rewrite (interp_one_segment xp fp x k Hs) by lia.
      replace (Nat.min (S k) (length xp - 1)) with (S k) by lia. cbn [pred].
      pose proof (search_lower xp x k Hs) as Hlo.
      assert (Hup : x < nth (S k) xp 0) by (apply search_upper; [exact Hs | lia]).
      pose proof (non_decreasing_adjacent fp k Hfp ltac:(lia)) as Hy.
      assert (Ht : 0 <= (x - nth k xp 0) / (nth (S k) xp 0 - nth k xp 0) <= 1).
      { split.
        - apply Rmult_le_reg_r with (nth (S k) xp 0 - nth k xp 0); [lra|].
          unfold Rdiv. rewrite Rmult_assoc, Rinv_l by lra. lra.
        - apply Rmult_le_reg_r with (nth (S k) xp 0 - nth k xp 0); [lra|].
          unfold Rdiv. rewrite Rmult_assoc, Rinv_l by lra. lra. }
      nra.
Qed.

(** On samples that do not fall, [np.interp] does not fall. *)
Lemma interp_one_monotone (xp fp : list R) (x x' : R) :
  xp <> [] -> length fp = length xp -> non_decreasing fp -> x <= x' ->
  interp_one xp fp x <= interp_one xp fp x'.
Proof.
  intros Hne Hlen Hfp Hx.
  assert (Hn : (0 < length xp)%nat) by (destruct xp; [congruence | simpl; lia]).
  pose proof (search_monotone xp x x' Hx) as Hj.
  pose proof (search_le_length xp x') as Hle'.
  pose proof (interp_one_sandwich xp fp x Hne Hlen Hfp) as [_ Hup].
  pose proof (interp_one_sandwich xp fp x' Hne Hlen Hfp) as [Hlo' _].
  destruct (Nat.eq_dec (search xp x) (search xp x')) as [He|Hneq].
  - destruct (search xp x') as [|k] eqn:Hs'.
    + unfold interp_one. rewrite He, Hs'. lra.
    + destruct (Nat.eq_dec (S k) (length xp)) as [Hend|Hmid].
      * unfold interp_one. rewrite He, Hs'.
        destruct (Nat.eqb_spec (S k) (length xp)); [lra | lia].
      * rewrite (interp_one_segment xp fp x k He) by lia.
        rewrite (interp_one_segment xp fp x' k Hs') by lia.
        pose proof (search_lower xp x k He) as Hlo.
        assert (Hub : x' < nth (S k) xp 0)
          by (apply search_upper; [exact Hs' | lia]).
        pose proof (non_decreasing_adjacent fp k Hfp ltac:(lia)) as Hy.
        apply Rplus_le_compat_l. apply Rmult_le_compat_l; [lra|].
        apply Rmult_le_compat_r; [|lra].
        left. apply Rinv_0_lt_compat. lra.
  - apply Rle_trans with (nth (Nat.min (search xp x) (length xp - 1)) fp 0);
      [exact Hup|].
    apply Rle_trans with (nth (pred (search xp x')) fp 0); [|exact Hlo'].
    apply non_decreasing_nth_le; [exact Hfp | lia | lia].
Qed.

Lemma level_value_range (lo hi : R) (ps vs : list R) (l : R) :
  ps <> [] -> length vs = length ps ->
  Forall (fun v => lo <= v <= hi) vs ->
  lo <= level_value ps vs l <= hi.
Proof.
  intros Hne Hlen Hvs.
  pose proof (nonempty_of_length ps vs Hne Hlen) as Hvne.
  unfold level_value.
  destruct (Rltb l (last ps 0)); [now apply last_in_range|].
  destruct (Rgtb l (hd 0 ps)); [now apply hd_in_range|].
  apply interp_one_range.
  - intros H. apply Hne. apply (f_equal (@length R)) in H.
    rewrite length_rev, length_map in H. destruct ps; [reflexivity | discriminate].
  - now rewrite !length_rev, length_map.
  - apply Forall_rev. exact Hvs.
Qed.

Lemma non_increasing_between_ends (vs : list R) :
  non_increasing vs -> Forall (fun v => last vs 0 <= v <= hd 0 vs) vs.
Proof.
  intros Hs. apply Forall_forall. intros v Hv.
  destruct (In_nth vs v 0 Hv) as [k [Hk <-]].
  rewrite last_nth, hd_nth. split;
    apply non_increasing_nth_le; try exact Hs; lia.
Qed.

(** Values that fall with height are interpolated to values that rise with
    pressure. *)
Lemma level_value_monotone (ps vs : list R) (l l' : R) :
  strictly_decreasing ps -> Forall (fun p => 0 < p) ps ->
  ps <> [] -> length vs = length ps -> non_increasing vs ->
  l <= l' -> level_value ps vs l <= level_value ps vs l'.
Proof.
  intros Hs Hpos Hne Hlen Hvs Hl.
  pose proof (level_value_range _ _ ps vs l Hne Hlen
                (non_increasing_between_ends vs Hvs)) as Hr.
  pose proof (level_value_range _ _ ps vs l' Hne Hlen
                (non_increasing_between_ends vs Hvs)) as Hr'.
  assert (Hends : last ps 0 <= hd 0 ps).
  { destruct ps as [|a t]; [congruence|]. now apply strictly_decreasing_last_le. }
  assert (Hlast : 0 < last ps 0).
  { rewrite last_nth. apply Forall_nth_pos; [exact Hpos|].
    destruct ps; [congruence | simpl; lia]. }
  unfold level_value, Rgtb in *.
  destruct (Rltb l (last ps 0)) eqn:E1; [lra|]. apply Rltb_false in E1.
  destruct (Rltb l' (last ps 0)) eqn:E1'; [apply Rltb_true in E1'; lra|].
  destruct (Rltb (hd 0 ps) l) eqn:E2.
  { apply Rltb_true in E2.
    destruct (Rltb (hd 0 ps) l') eqn:E2'; [lra|]. apply Rltb_false in E2'. lra. }
  destruct (Rltb (hd 0 ps) l') eqn:E2'; [lra|].
  apply interp_one_monotone.
  - intros H. apply Hne. apply (f_equal (@length R)) in H.
    rewrite length_rev, length_map in H. destruct ps; [reflexivity | discriminate].
  - now rewrite !length_rev, length_map.
  - apply rev_non_decreasing, Hvs.
  - apply ln_le_compat; lra.
Qed.

(** X6.  The vertical interpolator keeps a monotone profile monotone: for a
    strictly decreasing sounding of positive pressures whose values do not
    rise from one observed level to the next one up, the output at a target
    level of lower pressure is never above the output at a target level of
    higher pressure, across interpolated and clamped levels alike. *)
Theorem vertical_interpolate_monotone (ps vs ls out : list R)
    (i j : nat) (l l' y y' : R) :
  strictly_decreasing ps -> Forall (fun p => 0 < p) ps ->
  non_increasing vs ->
  vertical_interpolate ps vs ls = OK out ->
  nth_error ls i = Some l -> nth_error ls j = Some l' -> l <= l' ->
  nth_error out i = Some y -> nth_error out j = Some y' ->
  y <= y'.
Proof.
  intros Hs Hpos Hvs H Hi Hj Hl Hy Hy'.
  apply vertical_interpolate_inv in H. destruct H as [Hne [Hlen ->]].
  rewrite nth_error_map, Hi in Hy. rewrite nth_error_map, Hj in Hy'.
  injection Hy as <-. injection Hy' as <-.
  now apply level_value_monotone.
Qed.

Lemma vertical_interpolate_monotone_witness :
  exists out y y',
    vertical_interpolate [1000; 850; 700; 500] [20; 15; 5; -10] [900; 600; 100]
    = OK out /\
    nth_error out 1 = Some y /\ nth_error out 0 = Some y' /\ y <= y'.
Proof.
  assert (H : vertical_interpolate [1000; 850; 700; 500] [20; 15; 5; -10]
                [900; 600; 100]
              = OK (map (level_value [1000; 850; 700; 500] [20; 15; 5; -10])
                      [900; 600; 100]))
    by (apply vertical_interpolate_eq; [discriminate | reflexivity]).
  eexists. eexists. eexists.
  split; [exact H|]. split; [reflexivity|]. split; [reflexivity|].
  eapply (vertical_interpolate_monotone
            [1000; 850; 700; 500] [20; 15; 5; -10] [900; 600; 100] _
            1%nat 0%nat 600 900).
  - simpl. repeat split; lra.
  - repeat constructor; lra.
  - simpl. repeat split; lra.
  - exact H.
  - reflexivity.
  - reflexivity.
  - lra.
  - reflexivity.
  - reflexivity.
Defined.

(** * The vertical grid *)





(** * The mesh of the cross-section *)

Lemma map_const_repeat {A B : Type} (b : B) (l : list A) :
  map (fun _ => b) l = repeat b (length l).
Proof. induction l as [|a l IH]; [reflexivity|]. simpl. now rewrite IH. Qed.

Lemma linspace_from_zero (b : R) (num : nat) :
  np_linspace 0 b num = map (fun i => INR i * (b / INR (num - 1))) (seq 0 num).
Proof.
  unfold np_linspace. apply map_ext. intros i. rewrite Rminus_0_r. ring.
Qed.

(** The two meshes are those of the vertical grid against 100 points spread
    evenly from the first to the last entry of the distance array. *)
Lemma radisonde_cross_section_mesh
    (griddata : list R -> list R -> list R -> ndarray2 -> ndarray2 -> result ndarray2)
    (height_to_pressure_std : list R -> list R)
    (uninit : nat -> string -> nat -> nat -> R)
    (stns : list string) (data : dict DataFrame) (start end_ step : Z)
    (cs : cross_section) :
  radisonde_cross_section griddata height_to_pressure_std uninit
    stns data start end_ step = OK cs ->
  exists levels d_first d_last,
    np_arange start (end_ - 1) (- step) = OK levels /\
    getitem_first (obs_distance cs) = OK d_first /\
    getitem_last (obs_distance cs) = OK d_last /\
    (p_grid cs, x_grid cs)
    = np_meshgrid (map IZR levels) (np_linspace d_first d_last 100).
Proof.
  intros H. unfold radisonde_cross_section in H.
  bind_inv H. rename a into levels, E into Hlevels.
  bind_inv H. bind_inv H. bind_inv H. destruct a1 as [tmp_grid c].
  bind_inv H. bind_inv H. bind_inv H. rename a3 into dist.
  bind_inv H. rename a3 into d_first, E5 into Hfirst.
  bind_inv H. rename a3 into d_last, E5 into Hlast.
  unfold np_meshgrid in H. cbv beta iota zeta in H.
  bind_inv H. injection H as <-. cbn [obs_distance x_grid p_grid].
  exists levels, d_first, d_last. repeat split; assumption.
Qed.

Lemma distances_first_zero (lat0 lon0 el0 : R) (rest : list (R * R * R)) :
  getitem_first (distances_from lon0 lat0 ((lat0, lon0, el0) :: rest)) = OK 0.
Proof.
  unfold distances_from. cbn [map getitem_first fst snd].
  now rewrite great_circle_distance_same.
Qed.

Lemma getitem_last_nth_error {A : Type} (l : list A) (x : A) :
  getitem_last l = OK x -> nth_error l (length l - 1) = Some x.
Proof.
  unfold getitem_last. intros H.
  rewrite <- (rev_involutive l). rewrite length_rev.
  destruct (rev l) as [|y t]; [discriminate|]. injection H as ->.
  cbn [rev length]. rewrite nth_error_app2 by (rewrite length_rev; lia).
  rewrite length_rev. replace (S (length t) - 1 - length t)%nat with O by lia.
  reflexivity.
Qed.

(** X8.  The meshes of a returned cross-section.  Every row of [p_grid] is
    the vertical grid.  Row [i] of [x_grid] holds, at every level, [i] times
    one 99th of the distance of the station listed last: the horizontal axis
    runs from the first station listed (distance 0) to the last one listed,
    whatever the distances of the stations between them. *)
Theorem mesh_grids
    (griddata : list R -> list R -> list R -> ndarray2 -> ndarray2 -> result ndarray2)
    (height_to_pressure_std : list R -> list R)
    (uninit : nat -> string -> nat -> nat -> R)
    (stns : list string) (data : dict DataFrame) (start end_ step : Z)
    (cs : cross_section) :
  radisonde_cross_section griddata height_to_pressure_std uninit
    stns data start end_ step = OK cs ->
  exists levels d_last,
    np_arange start (end_ - 1) (- step) = OK levels /\
    nth_error (obs_distance cs) (length stns - 1) = Some d_last /\
    p_grid cs = repeat (map IZR levels) 100 /\
    x_grid cs
    = map (fun i => repeat (INR i * (d_last / 99)) (length levels)) (seq 0 100).
Proof.
  intros H.
  destruct (radisonde_cross_section_mesh _ _ _ _ _ _ _ _ _ H)
    as [levels [d_first [d_last [Hlevels [Hfirst [Hlast Hmesh]]]]]].
  apply radisonde_cross_section_inv in H.
  destruct H as [levels' [qs [lat0 [lon0 [el0 [rest
                   [_ [Hqs [Heq [Hdist _]]]]]]]]]].
  subst qs. rewrite Hdist, distances_first_zero in Hfirst.
  injection Hfirst as <-.
  exists levels, d_last. split; [exact Hlevels|]. split.
  { apply map_result_length in Hqs.
    assert (Hlen : length (obs_distance cs) = length stns)
      by (rewrite Hdist; unfold distances_from; now rewrite length_map).
    rewrite <- Hlen. apply getitem_last_nth_error. exact Hlast. }
  unfold np_meshgrid in Hmesh.
  pose proof (f_equal fst Hmesh) as Hp. pose proof (f_equal snd Hmesh) as Hx.
  cbv beta iota delta [fst snd] in Hp, Hx. rewrite Hp, Hx. split.
  - now rewrite map_const_repeat, np_linspace_length.
  - rewrite linspace_from_zero, map_map. apply map_ext. intros i.
    rewrite map_const_repeat, length_map.
    replace (INR (100 - 1)) with 99; [reflexivity|].
    change (100 - 1)%nat with 99%nat. rewrite INR_IZR_INZ. reflexivity.
Qed.

Lemma mesh_grids_witness :
  exists cs levels d_last,
    radisonde_cross_section demo_griddata demo_height_to_pressure demo_uninit
      demo_stns demo_data 1000 100 450 = OK cs /\
    np_arange 1000 (100 - 1) (- 450) = OK levels /\
    nth_error (obs_distance cs) (length demo_stns - 1) = Some d_last /\
    p_grid cs = repeat (map IZR levels) 100 /\
    x_grid cs
    = map (fun i => repeat (INR i * (d_last / 99)) (length levels)) (seq 0 100).
Proof.
  destruct demo_returns as [cs H].
  destruct (mesh_grids demo_griddata demo_height_to_pressure demo_uninit
              demo_stns demo_data 1000 100 450 cs H) as [levels [d_last Hm]].
  exists cs, levels, d_last. split; [exact H | exact Hm].
Defined.

(** * The inputs on which the builder returns *)






Section BuilderReturnsExactly.

Variable griddata :
  list R -> list R -> list R -> ndarray2 -> ndarray2 -> result ndarray2.
Variable height_to_pressure_std : list R -> list R.
Variable uninit : nat -> string -> nat -> nat -> R.

Hypothesis griddata_returns :
  forall px py v xx pp, exists g,
    griddata px py v xx pp = OK g /\ map (@length R) g = map (@length R) xx.



End BuilderReturnsExactly.



(** * Errors and edge cases of the builder *)

(** X10.  With a step other than 0, an empty station list makes the builder
    raise IndexError, and a first station that is not in the data makes it
    raise KeyError, whatever the other stations and the grid are: the first
    station is looked up before any sounding is read. *)
Theorem first_station_errors
    (griddata : list R -> list R -> list R -> ndarray2 -> ndarray2 -> result ndarray2)
    (height_to_pressure_std : list R -> list R)
    (uninit : nat -> string -> nat -> nat -> R)
    (data : dict DataFrame) (start end_ step : Z) :
  step <> 0%Z ->
  radisonde_cross_section griddata height_to_pressure_std uninit
    [] data start end_ step = Raise IndexError /\
  forall s0 rest,
    getitem data s0 = Raise KeyError ->
    radisonde_cross_section griddata height_to_pressure_std uninit
      (s0 :: rest) data start end_ step = Raise KeyError.
Proof.
  intros Hstep. unfold radisonde_cross_section, np_arange.
  destruct (Z.eqb_spec (- step) 0) as [H0|_]; [lia|]. cbn [bind]. split.
  - reflexivity.
  - intros s0 rest Hs0. cbn [getitem_first bind]. rewrite Hs0. reflexivity.
Qed.

Lemma first_station_errors_witness :
  radisonde_cross_section demo_griddata demo_height_to_pressure demo_uninit
    [] demo_data 1000 100 10 = Raise IndexError /\
  forall s0 rest,
    getitem demo_data s0 = Raise KeyError ->
    radisonde_cross_section demo_griddata demo_height_to_pressure demo_uninit
      (s0 :: rest) demo_data 1000 100 10 = Raise KeyError.
Proof.
  apply (first_station_errors demo_griddata demo_height_to_pressure
           demo_uninit demo_data 1000 100 10).
  discriminate.
Defined.



(** * The variables of the cross-section *)

Lemma dict_fromkeys_fold_In (keys acc : list string) (k : string) :
  In k (fold_left
          (fun acc k => if existsb (String.eqb k) acc then acc else acc ++ [k])
          keys acc)
  <-> In k acc \/ In k keys.
Proof.
  revert acc. induction keys as [|k0 keys IH]; intros acc; cbn [fold_left].
  - simpl. tauto.
  - rewrite IH. destruct (existsb (String.eqb k0) acc) eqn:E.
    + apply existsb_eqb_In in E. simpl. intuition (subst; auto).
    + rewrite in_app_iff. simpl. tauto.
Qed.

Lemma dict_fromkeys_In (keys : list string) (k : string) :
  In k (dict_fromkeys keys) <-> In k keys.
Proof.
  unfold dict_fromkeys. rewrite dict_fromkeys_fold_In. simpl. tauto.
Qed.

Lemma dict_fromkeys_fold_length (keys acc : list string) :
  (length (fold_left
             (fun acc k => if existsb (String.eqb k) acc then acc else acc ++ [k])
             keys acc)
   <= length acc + length keys)%nat.
Proof.
  revert acc. induction keys as [|k0 keys IH]; intros acc; cbn [fold_left].
  - simpl. lia.
  - etransitivity; [apply IH|].
    destruct (existsb (String.eqb k0) acc); [|rewrite length_app]; simpl; lia.
Qed.

(** X12.  The variables of a returned cross-section are chosen by the first
    station alone: [grid_data] has one grid for each distinct label among
    the first eight column labels of the first station's sounding, in the
    order of their first occurrence, hence at most eight grids, each label
    once, 'pressure' among them; what further columns the first or another
    station has does not show. *)
Theorem grid_data_labels
    (griddata : list R -> list R -> list R -> ndarray2 -> ndarray2 -> result ndarray2)
    (height_to_pressure_std : list R -> list R)
    (uninit : nat -> string -> nat -> nat -> R)
    (stns : list string) (data : dict DataFrame) (start end_ step : Z)
    (cs : cross_section) :
  radisonde_cross_section griddata height_to_pressure_std uninit
    stns data start end_ step = OK cs ->
  exists s0 df0,
    nth_error stns 0 = Some s0 /\ getitem data s0 = OK df0 /\
    map fst (grid_data cs) = dict_fromkeys (firstn 8 (map fst df0)) /\
    NoDup (map fst (grid_data cs)) /\
    (length (grid_data cs) <= 8)%nat /\
    (forall k, In k (map fst (grid_data cs)) <-> In k (firstn 8 (map fst df0))) /\
    In "pressure"%string (map fst (grid_data cs)).
Proof.
  intros H. apply grid_data_keys in H.
  destruct H as [s0 [df0 [Hs0 [Hdf0 [Hk Hp]]]]].
  exists s0, df0. unfold keys_upto8 in *. rewrite Hk.
  split; [destruct stns; [discriminate | injection Hs0 as ->; reflexivity]|].
  split; [exact Hdf0|]. split; [reflexivity|].
  split; [apply dict_fromkeys_NoDup|]. split.
  - rewrite <- (length_map fst), Hk. unfold dict_fromkeys.
    etransitivity; [apply dict_fromkeys_fold_length|].
    cbn [length Nat.add]. apply firstn_le_length.
  - split; [intros k; apply dict_fromkeys_In | exact Hp].
Qed.

Lemma grid_data_labels_witness :
  exists cs s0 df0,
    radisonde_cross_section demo_griddata demo_height_to_pressure demo_uninit
      demo_stns demo_data 1000 100 450 = OK cs /\
    nth_error demo_stns 0 = Some s0 /\ getitem demo_data s0 = OK df0 /\
    map fst (grid_data cs) = dict_fromkeys (firstn 8 (map fst df0)) /\
    NoDup (map fst (grid_data cs)) /\
    (length (grid_data cs) <= 8)%nat /\
    (forall k, In k (map fst (grid_data cs)) <-> In k (firstn 8 (map fst df0))) /\
    In "pressure"%string (map fst (grid_data cs)).
Proof.
  destruct demo_returns as [cs H].
  destruct (grid_data_labels demo_griddata demo_height_to_pressure demo_uninit
              demo_stns demo_data 1000 100 450 cs H) as [s0 [df0 Hl]].
  exists cs, s0, df0. split; [exact H | exact Hl].
Defined.

(** * What the builder reads of the data *)

Lemma station_entry_ext (data data' : dict DataFrame) (levels : list R)
    (key : string) (c : coords) (s : string) :
  getitem data s = getitem data' s ->
  station_entry data levels key c s = station_entry data' levels key c s.
Proof.
  intros H. unfold station_entry, station_coords, station_column.
  rewrite H. reflexivity.
Qed.

Lemma station_rows_ext (data data' : dict DataFrame) (levels : list R)
    (key : string) (stns : list string) :
  (forall s, In s stns -> getitem data s = getitem data' s) ->
  forall c, station_rows data levels key stns c
            = station_rows data' levels key stns c.
Proof.
  induction stns as [|s rest IH]; intros H c; [reflexivity|].
  cbn [station_rows].
  rewrite (station_entry_ext data data') by (apply H; left; reflexivity).
  apply bind_ext. intros [row c1].
  rewrite IH by (intros s' Hs'; apply H; right; exact Hs'). reflexivity.
Qed.

Lemma interpolate_stations_ext (u : nat -> string -> nat -> nat -> R)
    (stns : list string) (data data' : dict DataFrame) (keys : list string)
    (levels : list R) :
  (forall s, In s stns -> getitem data s = getitem data' s) ->
  interpolate_stations u stns data keys levels
  = interpolate_stations u stns data' keys levels.
Proof.
  intros H. unfold interpolate_stations. apply for_each_ext.
  intros [tg c] key. rewrite !fill_key_rows.
  now rewrite (station_rows_ext data data').
Qed.

(** X13.  The builder reads the soundings of the stations listed and no
    other: on two data dictionaries that agree on every station of the list
    it gives the same result, a returned structure or a raised exception. *)
Theorem reads_listed_stations_only
    (griddata : list R -> list R -> list R -> ndarray2 -> ndarray2 -> result ndarray2)
    (height_to_pressure_std : list R -> list R)
    (uninit : nat -> string -> nat -> nat -> R)
    (stns : list string) (data data' : dict DataFrame) (start end_ step : Z) :
  (forall s, In s stns -> getitem data s = getitem data' s) ->
  radisonde_cross_section griddata height_to_pressure_std uninit
    stns data start end_ step
  = radisonde_cross_section griddata height_to_pressure_std uninit
      stns data' start end_ step.
Proof.
  intros H. unfold radisonde_cross_section.
  apply bind_ext; intros levels.
  destruct stns as [|s0 rest]; [reflexivity|].
  cbn [getitem_first bind]. rewrite <- (H s0) by (left; reflexivity).
  apply bind_ext; intros df0.
  rewrite (interpolate_stations_ext uninit (s0 :: rest) data data') by exact H.
  reflexivity.
Qed.

Lemma reads_listed_stations_only_witness :
  radisonde_cross_section demo_griddata demo_height_to_pressure demo_uninit
    demo_stns demo_data 1000 100 450
  = radisonde_cross_section demo_griddata demo_height_to_pressure demo_uninit
      demo_stns
      (("ZZZ"%string, sounding 45 7 300 [800] [1]) :: demo_data)
      1000 100 450.
Proof.
  apply (reads_listed_stations_only demo_griddata demo_height_to_pressure
           demo_uninit demo_stns demo_data
           (("ZZZ"%string, sounding 45 7 300 [800] [1]) :: demo_data)
           1000 100 450).
  intros s [<-|[<-|[<-|[]]]]; reflexivity.
Defined.

(** * The script: fetching the soundings and building the section *)

Lemma getitem_setitem_same {V : Type} (d : dict V) (k : string) (v : V) :
  getitem (setitem d k v) k = OK v.
Proof.
  induction d as [|[k' v'] d IH]; cbn [setitem getitem].
  - now rewrite String.eqb_refl.
  - destruct (String.eqb k' k) eqn:E; cbn [getitem]; rewrite E;
      [reflexivity | exact IH].
Qed.

Lemma getitem_setitem_other {V : Type} (d : dict V) (k k' : string) (v : V) :
  k <> k' -> getitem (setitem d k v) k' = getitem d k'.
Proof.
  intros Hne. induction d as [|[k0 v0] d IH]; cbn [setitem getitem].
  - destruct (String.eqb_spec k k'); [contradiction | reflexivity].
  - destruct (String.eqb_spec k0 k) as [->|Hk0]; cbn [getitem].
    + destruct (String.eqb_spec k k'); [contradiction | reflexivity].
    + rewrite IH. reflexivity.
Qed.

Lemma setitem_keys {V : Type} (d : dict V) (k : string) (v : V) :
  map fst (setitem d k v)
  = if existsb (String.eqb k) (map fst d) then map fst d else map fst d ++ [k].
Proof.
  induction d as [|[k0 v0] d IH]; cbn [setitem map fst existsb app];
    [reflexivity|].
  rewrite (String.eqb_sym k k0).
  destruct (String.eqb k0 k); cbn [orb map fst]; [reflexivity|].
  rewrite IH. destruct (existsb (String.eqb k) (map fst d)); reflexivity.
Qed.

Section ScriptFacts.

Variable request_data : string -> result DataFrame.

Lemma fetch_loop (stn_list : list string) :
  forall d0 df,
    for_each (fetch_station request_data) stn_list d0 = OK df ->
    map fst df
    = fold_left
        (fun acc k => if existsb (String.eqb k) acc then acc else acc ++ [k])
        stn_list (map fst d0) /\
    (forall s, In s stn_list -> getitem df s = request_data s) /\
    (forall s, ~ In s stn_list -> getitem df s = getitem d0 s).
Proof.
  induction stn_list as [|s rest IH]; intros d0 df H.
  - injection H as <-. split; [reflexivity|]. split; [intros s [] | reflexivity].
  - rewrite for_each_cons in H. bind_inv H. unfold fetch_station in E.
    bind_inv E. rename a0 into fr, E0 into Hfr. injection E as <-.
    apply IH in H. destruct H as [Hkeys [Hin Hout]].
    split; [|split].
    + cbn [fold_left]. rewrite Hkeys, setitem_keys. reflexivity.
    + intros s' Hs'. destruct (in_dec string_dec s' rest) as [Hr|Hr];
        [apply Hin, Hr|].
      destruct Hs' as [<-|Hs']; [|contradiction].
      rewrite (Hout s Hr), getitem_setitem_same. congruence.
    + intros s' Hs'. rewrite Hout by (intros Hr; apply Hs'; right; exact Hr).
      apply getitem_setitem_other. intros ->. apply Hs'. left. reflexivity.
Qed.

Lemma fetch_loop_returns (stn_list : list string) :
  forall d0,
    (exists df, for_each (fetch_station request_data) stn_list d0 = OK df) <->
    (forall s, In s stn_list -> exists fr, request_data s = OK fr).
Proof.
  induction stn_list as [|s rest IH]; intros d0.
  - split; [intros _ s [] | intros _; eexists; reflexivity].
  - rewrite for_each_cons. unfold fetch_station at 1. split.
    + intros [df H]. bind_inv H. bind_inv E. injection E as <-.
      intros s' [<-|Hs']; [eauto|]. eapply IH; eauto.
    + intros Hall. destruct (Hall s (or_introl eq_refl)) as [fr Hfr].
      rewrite Hfr. cbn [bind]. apply IH. intros s' Hs'. apply Hall.
      right. exact Hs'.
Qed.

End ScriptFacts.

(** X14.  The loop that fetches the soundings returns exactly when every
    request returns.  The dictionary it then leaves holds, for every station
    of the list, the sounding requested for it, and nothing for any other
    station; its keys are the stations in the order of their first
    occurrence in the list, each once. *)
Theorem fetch_soundings_dictionary (request_data : string -> result DataFrame)
    (stn_list : list string) :
  ((exists df, fetch_soundings request_data stn_list = OK df) <->
   (forall s, In s stn_list -> exists fr, request_data s = OK fr)) /\
  (forall df,
     fetch_soundings request_data stn_list = OK df ->
     map fst df = dict_fromkeys stn_list /\
     (forall s, In s stn_list -> getitem df s = request_data s) /\
     (forall s, ~ In s stn_list -> getitem df s = Raise KeyError)).
Proof.
  unfold fetch_soundings. split; [apply fetch_loop_returns|].
  intros df H. apply fetch_loop in H. exact H.
Qed.






(** * The ground elevation *)

Lemma station_coords_inv (data : dict DataFrame) (s : string) (lat lon el : R) :
  station_coords data s = OK (lat, lon, el) ->
  exists df clat clon cel,
    getitem data s = OK df /\
    getitem df "latitude" = OK clat /\ nth_error clat 0 = Some lat /\
    getitem df "longitude" = OK clon /\ nth_error clon 0 = Some lon /\
    getitem df "elevation" = OK cel /\ nth_error cel 0 = Some el.
Proof.
  unfold station_coords, getattr, series_first. intros H.
  destruct (getitem data s) as [df|e]; [|discriminate]. cbn [bind] in H.
  destruct (getitem df "latitude") as [[|x1 c1]|e] eqn:H1; try discriminate.
  cbn [bind] in H.
  destruct (getitem df "longitude") as [[|x2 c2]|e] eqn:H2; try discriminate.
  cbn [bind] in H.
  destruct (getitem df "elevation") as [[|x3 c3]|e] eqn:H3; try discriminate.
  cbn [bind] in H. injection H as <- <- <-.
  exists df, (x1 :: c1), (x2 :: c2), (x3 :: c3). repeat split; assumption.
Qed.

(** X16.  The ground elevation of a returned cross-section is the standard
    atmosphere pressure of one height for each station, in the order of the
    station list: the first entry of the station's elevation column.  The
    rest of that column is not read. *)
Theorem elevation_from_first_rows
    (griddata : list R -> list R -> list R -> ndarray2 -> ndarray2 -> result ndarray2)
    (height_to_pressure_std : list R -> list R)
    (uninit : nat -> string -> nat -> nat -> R)
    (stns : list string) (data : dict DataFrame) (start end_ step : Z)
    (cs : cross_section) :
  radisonde_cross_section griddata height_to_pressure_std uninit
    stns data start end_ step = OK cs ->
  exists heights,
    elevation cs = height_to_pressure_std heights /\
    Forall2
      (fun s h => exists df col,
         getitem data s = OK df /\ getitem df "elevation" = OK col /\
         nth_error col 0 = Some h)
      stns heights.
Proof.
  intros H. apply radisonde_cross_section_inv in H.
  destruct H as [levels [qs [lat0 [lon0 [el0 [rest
                   [_ [Hqs [_ [_ [Hel _]]]]]]]]]]].
  exists (map snd qs). split; [exact Hel|].
  apply map_result_Forall2 in Hqs. clear - Hqs.
  induction Hqs as [|s [[lat lon] el] stns qs Hs _ IH]; [constructor|].
  cbn [map snd]. constructor; [|exact IH].
  apply station_coords_inv in Hs.
  destruct Hs as [df [clat [clon [cel [Hdf [_ [_ [_ [_ [Hcel Hel]]]]]]]]]].
  exists df, cel. auto.
Qed.

Lemma elevation_from_first_rows_witness :
  exists cs heights,
    radisonde_cross_section demo_griddata demo_height_to_pressure demo_uninit
      demo_stns demo_data 1000 100 450 = OK cs /\
    elevation cs = demo_height_to_pressure heights /\
    Forall2
      (fun s h => exists df col,
         getitem demo_data s = OK df /\ getitem df "elevation" = OK col /\
         nth_error col 0 = Some h)
      demo_stns heights.
Proof.
  destruct demo_returns as [cs H].
  destruct (elevation_from_first_rows demo_griddata demo_height_to_pressure
              demo_uninit demo_stns demo_data 1000 100 450 cs H)
    as [heights Hh].
  exists cs, heights. split; [exact H | exact Hh].
Defined.

(** * The scattered points handed to the 2-D interpolator *)






